(* ===== verification/_CoqProject ===== *)
-Q . S2P
Prelude.v
JsString.v
Money.v
Pricing.v
Orders.v
OrderSpec.v
Catalog.v
Crypto.v
Auth.v
Users.v
Client.v
Checkout.v
Schema.v
Widgets.v
Navigation.v
Api.v
Boot.v
Footer.v
PrintedSummary.v
CartModal.v
Carousel.v
CheckoutView.v
