(* ===== verification/Prelude.v ===== *)
(** * Hedeya storefront: a verification development

    The program is a toy e-commerce storefront: an Express backend under
    [src/backend] (order, product, auth and user routes, Sequelize models
    and a seed) and a React frontend under [src/src] (pages and widgets
    driven by their state hooks, and an API client that calls the
    backend).  A client function builds a method and a URL; [fetch]
    resolves it, Express's [server.js] dispatches it by its mounts and
    the route order of each router to a handler, which validates
    the body, reads or updates a module-level array (orders, users) or the
    [products] table, and answers a JSON envelope with a status.  The auth
    routes issue JSON web tokens that the user routes check in a
    middleware; the order routes price a cart with [calculateOrderTotal].

    ** Files
    - [Prelude] (this file): the handler answer [result] (an [Ok] value or
      an [Err] status and error string) with its monad instances, the
      JavaScript idioms the handlers use on optional fields (truthiness,
      [x || d], [Array.prototype.slice], [findIndex]), the hint databases
      [hedeya] and [hedeya_rw], the tactics [invc] and [case_ifs], and
      list lemmas shared by the components.
    - [JsString]: [toString], [padStart], [slice(-k)], [toLowerCase],
      [split(' ')] and [parseInt] on Stdlib strings, with the decimal
      parser that inverts [toString].
    - [Money]: [Math.round] on exact rationals and amounts in cents.
    - [Pricing]: [calculateOrderTotal] of [routes/orders.js] (the same code
      as [helpers.calculateOrderTotal] in [src/src/api/index.js]), the
      per-line totals and the summary of [CheckoutPage.jsx].
    - [Orders]: the five handlers of [routes/orders.js] over the store
      [OrderStore] ([orders], [orderIdCounter]); each handler is a
      function from the store, the clock and the request to the new store
      and the answer.
    - [OrderSpec]: the handlers that change the store as a step relation
      [order_step], the reachable stores, the invariant [store_wf], and the
      refinement of the order array to a finite map keyed by order id.
    - [Catalog]: the four routes of [routes/products.js] over the
      [products] table as a [gmap] ([findAndCountAll] by its SQL meaning,
      with PostgreSQL's refusal of a value outside an [ENUM] type), [GET
      /:id] from its raw parameter through [parseInt], [seedDatabase] of
      [models/index.js], and the stock handler split into its two database
      round trips ([findByPk], then [product.update], which saves only the
      fields that differ from the instance read), run under any
      interleaving ([run_schedule]).
    - [Crypto]: the interfaces [PasswordHasher] ([bcryptjs]) and
      [TokenSigner] ([jsonwebtoken]) as classes with their laws, and
      reference instances showing the laws can be met.
    - [Auth]: the [users] array and counter of [routes/auth.js] with
      [register], [login], [verify-token], [refresh-token] and [logout].
      [register] awaits [bcrypt.hash] between its duplicate check and its
      push, so it is two steps ([register_begin], [register_finish]); the
      server state [AuthServer] holds the registrations suspended there,
      and [server_step] lets them resume in any order among the other
      requests.  The reachable stores are those of this server.
    - [Users]: the [verifyToken] middleware of [routes/users.js] and the
      stub handlers behind it.
    - [Client]: the session of [src/src/api/index.js] ([localStorage]
      token and user, the [Authorization] header) composed with the auth
      and user handlers it calls.
    - [Checkout]: [CheckoutPage.jsx] as an event-driven machine (form
      edits, the Next, Back and Place Order buttons with their enabling
      conditions, and the two [setTimeout] continuations as pending
      timers), with [formatCardNumber].
    - [Schema]: the Sequelize models [models/Order.js], [OrderItem.js]
      and [Address.js] as attribute lists, and what [Model.create] does
      with them (defaults, the instance validator, PostgreSQL's [ENUM]
      check, with [parseFloat] for the [min] rule).  No route calls
      [Model.create] on these models.
    - [Widgets]: [ProductPage.jsx] and [FeaturedProducts.jsx] as state
      records with a step function per rendered button, React's batched
      [setState] and its bail-out when no state changed, and the
      [Toast.jsx] effect re-armed at each render.
    - [Navigation]: the routes of [App.jsx] matched as React Router does
      (letters up to case, trailing slashes ignored), the [Header.jsx]
      state with its hover dropdowns (an explicit pointer position decides
      which [mouseenter]/[mouseleave] events fire), the [Sidebar.jsx]
      expanded categories and the [CartModal.jsx] checkout navigation, and
      every link the header and sidebar render; the sidebar's effect on
      the document (scroll lock, [mousedown] listener) composed with the
      header's renders, and its click-outside close.
    - [Api]: the URL each function of [src/src/api/index.js] requests
      ([URLSearchParams] serialization, [fetch]'s path parsing), Express's
      [qs] query parser and [decodeURIComponent], the route tables of the
      four routers, and the dispatch of [server.js] in Express's order (a
      route's path is matched and its parameters decoded before its method
      is checked, so an undecodable parameter is a 400 whatever the
      method); the five API objects ([productApi] ... [systemApi]) over
      [api.get]/[post]/[put]/[delete], and how [api.request] settles on
      the answers [server.js] gives itself (root, health, 404 and error
      handlers).
    - [Boot]: the start of [server.js] and [server-hybrid.js]: the graph
      of the backend's [require] calls loaded depth first as Node does
      (with a depth bound, [length + 1], shown sufficient for any graph
      without cycles), and the [initializeDatabase] and [startServer] of
      each, the database calls' outcomes being inputs; the same loader
      on the relative imports of the frontend's modules.
    - [Footer]: the newsletter form of [Footer.jsx] with the browser's
      sanitization and [type="email"] validation of its input, and every
      internal link of the header, sidebar and footer.
    - [PrintedSummary]: the amounts the Order Summary sidebar of
      [CheckoutPage.jsx] prints, with [Number.prototype.toFixed(2)]
      ([to_fixed2]) on the [Pricing.checkout_summary] values, and the
      value a printed amount denotes ([fixed_value], [shown_amount]);
      [toFixed(d)] in general ([to_fixed]) and [String] of a number
      ([number_text]).
    - [CartModal]: the cart modal of [CartModal.jsx] (its render from the
      cart's items and total, and the calls each button makes), composed
      with the header through [onClose] and [navigate]; the price texts
      of the product page and the carousel, and the header's badge.
    - [CheckoutView]: what the checkout page renders from its state:
      the progress indicator and the step-3 confirmation, whose order
      number is read from the clock at each render.
    - [Carousel]: the product cards of [FeaturedProducts.jsx] (badge,
      stars, prices, the [<Link>] around a linked card) and a click on
      [Add to Cart] dispatched along its handlers from the button up: the
      button's, then the link's, which navigates on a plain left click
      that no handler has cancelled.

    ** Theorems
    - Orders: every reachable store keeps order numbers strictly
      increasing below the counter, with identifiers and tracking numbers
      derived from them, so tracking numbers and ids are unique; handler
      steps never remove an order or change its keys; the array refines a
      map; each handler's success and error answers; a page of the order
      list is bounded, filtered and newest first.
    - Pricing: for whole-cent prices the rounded total is the sum of its
      rounded parts and the subtotal the sum of the line totals; with
      prices below a cent the sum fails, and the checkout page and the
      order route disagree on shipping (two examples kept beside the
      theorems).
    - Catalog: the table invariant (row keyed by id, stock non-negative,
      [inStock] equal to [stock > 0]) holds after seeding and every stock
      update; a product page returns only rows meeting every filter, newest
      first; two interleaved stock requests lose an update, while one run
      alone equals the atomic handler; [GET /:id] returns inactive rows.
    - Auth and users: under any interleaving of suspended registrations
      the seeded admin stays first and user ids stay unique; two
      registrations of one email that overlap at [await bcrypt.hash] both
      succeed and store the email twice, where run one after the other
      the second is a 409; the seeded admin can never log in;
      register/verify and register/login round trips; refresh accepts any
      expired token; every user route answers the middleware's rejection;
      end to end, after a login through the client the user routes accept
      its token only when [JWT_SECRET] is set.
    - Checkout: at most one payment is ever pending; firing the pending
      timers always reaches the confirmation and clears the cart
      (liveness, by a measure: timers plus pending payments); the
      confirmation can be reached with a cleared email;
      [formatCardNumber] is idempotent and its output fits the input's 19
      characters.
    - Widgets: the product page keeps its quantity at least 1, its image
      index in range and its toast timer in step with the toast, and a
      shown toast is always hidden by its pending timer; the carousel's
      slide stays in range.
    - Navigation: from any header state with the pointer over a dropdown's
      panel, moving back onto its button, or out and back, lets a pending
      timer close the menu under the pointer; a sidebar category is
      expanded exactly when toggled an odd number of times; no header or
      sidebar link is a route of the app.
    - Api: a filter object survives the query string round trip through
      [URLSearchParams] and [qs]; every client function with plain path
      arguments reaches the handler it is written for, and [getApiInfo]
      gets the 404 handler.
    - Sidebar: the page is scroll-locked and listening exactly while
      the sidebar is open, and a click outside closes it.
    - Printed summary: for a whole-cent cart total the printed total is
      the sum of the printed parts, and a cart total of a fraction of a
      cent prints 0.00 + 9.99 + 0.00 = 10.00.
    - Checkout view: in every reachable state the progress indicator
      marks exactly the steps up to the current one, and the
      confirmation shows the form's email and a clock-derived order
      number that changes between renders.
    - Carousel: for any click, [Add to Cart] adds the card's product, and
      on a plain left click a linked card's [<Link>] also navigates, so
      the Mambobaby Float card leaves the home page.
    - Boot: the module loader terminates on every graph without cycles;
      the frontend's imports name three files the repository lacks (the
      cart context, [Portal], [App.css]).

    ** Modelling choices and bounds
    JavaScript numbers are exact rationals ([Q]) and integers ([Z], [N]),
    not doubles: the amounts, counters and timestamps involved stay far
    below [2^53], where doubles are exact on integers, and the rounding
    the code does ([Math.round(x * 100) / 100]) is modelled as written;
    the rounding error of the binary sums before it is not.  Totals are
    kept in cents.  [toFixed(2)] is modelled for values below [10^21]
    (above, JavaScript prints the exponent form), rounding the exact value
    half up; on a double it rounds the binary value, which can differ at
    an exact half cent.  [String(x)] is modelled as the exact decimal of
    [x], which is what JavaScript prints for [x = 0] and for
    [10^-6 <= |x| < 10^21] with at most 20 decimals (the prices,
    quantities and ratings of the pages); other numbers print with an
    exponent or 17 significant digits.  The stock route's [quantity] is
    an integer.  [Date.now()] is an argument of each handler.  Strings
    are 8-bit Stdlib strings; [toLowerCase] lowers ASCII letters only (a
    non-ASCII letter is left as is), and [decodeURIComponent] checks the
    UTF-8 of the bytes it decodes.  The only bound is the module loader's
    depth, [length + 1], shown enough for a graph without cycles; every
    other recursion is structural, and the parsers and handlers are
    executable, so the witnesses run by [vm_compute].  Browser timers are
    explicit pending ids that a timer event fires; React renders are the
    commit of a handler's updates.  Node runs one handler at a time up to
    its next [await]: the interleavings modelled are those of the stock
    route's two round trips and of [register]'s hash; [login]'s
    [await bcrypt.compare] is not split, since after it the handler only
    sets [lastLogin] on the object it found, which no other handler
    moves.

    ** Not modelled
    The middleware configuration (helmet, cors, body parsing, logging),
    the global error handler and the Sequelize connection options of
    [config/database.js]; the [User] model, which [models/index.js]
    requires but the repository lacks; the column types other than
    [ENUM], the unique indexes and the foreign keys of the models; the
    markup and animation of every component and the components without
    behaviour ([Hero], [TopBar], [USPBar], the sections); the
    cart context and [Portal], which are not among the sources: the
    components' calls to the context are recorded and what it holds
    (items, total, count) is an argument, so what [updateQuantity] does
    with a quantity of 0 is not known; the entry point that mounts
    [App] is not in the repository either; the static lists of the
    product page (features, payment methods, gear);
    DOM containment, taken as the event's side of the sidebar panel;
    the static demo data of [data/demoData.js], which no module
    imports; query keys with brackets, which [qs] parses into nested
    objects (the filter keys the client is written for have none); request bodies and the route
    handlers' messages as the client reads them; JSON bodies whose
    fields have another type than the one the handlers expect (a string
    or fractional stock quantity); the [Intl] and [Date] formatting
    helpers and [generateId] ([Math.random]) of [src/src/api/index.js]. *)

From Stdlib Require Export ZArith.
From stdpp Require Export base list strings gmap.

Open Scope Z_scope.

Declare Scope hedeya_scope.
Delimit Scope hedeya_scope with hd.

(** ** Handler results

    Every route handler of the backend answers with a JSON envelope
    [{success, data?, error?, message?}] and an HTTP status.  A handler is
    modelled as a function returning [Ok data] (status 200 or 201) or
    [Err status error], where [error] is the [error] string of the source. *)
Inductive result (A : Type) : Type :=
| Ok (a : A)
| Err (status : Z) (error : string).
Arguments Ok {A} _.
Arguments Err {A} _ _.

#[export] Instance result_ret : MRet result := λ A a, Ok a.
#[export] Instance result_bind : MBind result :=
  λ A B f r, match r with Ok a => f a | Err c e => Err c e end.

Definition is_ok {A} (r : result A) : bool :=
  match r with Ok _ => true | Err _ _ => false end.

Definition err_status {A} (r : result A) : option Z :=
  match r with Ok _ => None | Err c _ => Some c end.

(** ** JavaScript idioms on optional strings

    A request field [x] read from [req.body] or [req.query] is [None] when
    absent and [Some s] when present.  JavaScript truthiness of a string
    is non-emptiness, so [!x] holds for [None] and for [Some ""]. *)
Definition js_truthy (o : option string) : bool :=
  match o with Some s => negb (String.eqb s "") | None => false end.

(** [x || d] on an optional string. *)
Definition js_or (o : option string) (d : string) : string :=
  match o with Some s => if String.eqb s "" then d else s | None => d end.

(** [x || null] on an optional string. *)
Definition js_or_null (o : option string) : option string :=
  if js_truthy o then o else None.

(** [Array.prototype.slice(start, end)] with both arguments given: a
    negative index counts from the end, indices are clamped to
    [0, length]. *)
Definition js_rel_index (k len : Z) : Z :=
  if k <? 0 then Z.max (len + k) 0 else Z.min k len.

Definition js_slice {A} (l : list A) (start end_ : Z) : list A :=
  let len := Z.of_nat (length l) in
  let from := js_rel_index start len in
  let to := js_rel_index end_ len in
  take (Z.to_nat (to - from)) (drop (Z.to_nat from) l).

(** [Array.prototype.findIndex]: the index of the first element satisfying
    [p], or [-1]. *)
Fixpoint js_find_index {A} (p : A → bool) (l : list A) : Z :=
  match l with
  | [] => -1
  | x :: l' => if p x then 0 else
      let i := js_find_index p l' in if i <? 0 then -1 else i + 1
  end.

(** ** Tactics and hints shared by the development *)
Create HintDb hedeya.
Create Rewrite HintDb hedeya_rw.

Ltac invc H := inversion H; subst; clear H.

(** Case on every boolean test of the goal produced by unfolding. *)
Ltac case_ifs :=
  repeat match goal with
  | |- context [if ?b then _ else _] =>
      let E := fresh "E" in destruct b eqn:E
  end.

(** ** Generic lemmas *)

Lemma js_truthy_true o : js_truthy o = true ↔ ∃ s, o = Some s ∧ s ≠ "".
Proof.
  destruct o as [s|]; simpl; [|naive_solver].
  destruct (String.eqb_spec s ""); naive_solver.
Qed.

Lemma js_or_truthy o d : js_truthy o = true → ∃ s, o = Some s ∧ js_or o d = s.
Proof.
  intros [s [-> Hs]]%js_truthy_true. exists s. simpl.
  destruct (String.eqb_spec s ""); [done|]. split; [done|]. reflexivity.
Qed.

Lemma js_rel_index_bounds k len : 0 ≤ len → 0 ≤ js_rel_index k len ≤ len.
Proof. unfold js_rel_index. destruct (Z.ltb_spec k 0); lia. Qed.

Lemma js_rel_index_nonneg k len : 0 ≤ k → js_rel_index k len = Z.min k len.
Proof. unfold js_rel_index. destruct (Z.ltb_spec k 0); lia. Qed.

(** A slice never has more elements than the distance of its bounds. *)
Lemma js_slice_length {A} (l : list A) s e :
  0 ≤ s → 0 ≤ e - s → (length (js_slice l s e) ≤ Z.to_nat (e - s))%nat.
Proof.
  intros Hs He. unfold js_slice.
  rewrite !js_rel_index_nonneg by lia.
  rewrite length_take. lia.
Qed.

(** A window [take n (drop m l)] only holds elements of [l]. *)
Lemma take_drop_subseteq {A} (l : list A) n m x : x ∈ take n (drop m l) → x ∈ l.
Proof.
  intros Hx. apply elem_of_take in Hx as [i [Hi _]].
  rewrite lookup_drop in Hi. by eapply list_elem_of_lookup_2.
Qed.

(** Every element of a slice is an element of the list. *)
Lemma js_slice_subseteq {A} (l : list A) s e x : x ∈ js_slice l s e → x ∈ l.
Proof. apply take_drop_subseteq. Qed.

(** [js_slice l 0 len] with [len >= length l] is the whole list. *)
Lemma js_slice_all {A} (l : list A) e :
  Z.of_nat (length l) ≤ e → js_slice l 0 e = l.
Proof.
  intros He. unfold js_slice. rewrite !js_rel_index_nonneg by lia.
  rewrite (Z.min_l 0) by lia. rewrite (Z.min_r e) by lia. simpl.
  apply take_ge. lia.
Qed.

Lemma js_find_index_range {A} (p : A → bool) l :
  js_find_index p l = -1 ∨ (0 ≤ js_find_index p l < Z.of_nat (length l)).
Proof.
  induction l as [|x l IH]; simpl; [by left|].
  destruct (p x); [right; lia|].
  destruct (Z.ltb_spec (js_find_index p l) 0); [by left|]. right. lia.
Qed.

(** [findIndex] returns the position [list_find] finds, for any predicate
    [P] the boolean test [p] decides. *)
Lemma js_find_index_find {A} (p : A → bool) (P : A → Prop) `{∀ x, Decision (P x)}
    (l : list A) :
  (∀ x, p x = true ↔ P x) →
  match list_find P l with
  | Some (i, _) => js_find_index p l = Z.of_nat i
  | None => js_find_index p l = -1
  end.
Proof.
  intros Hp. induction l as [|y l IH]; simpl; [done|].
  destruct (decide (P y)) as [Hy|Hy].
  - by rewrite (proj2 (Hp y) Hy).
  - assert (p y = false) as -> by (destruct (p y) eqn:E; [by apply Hp in E|done]).
    destruct (list_find P l) as [[i x]|]; simpl.
    + rewrite IH, (proj2 (Z.ltb_ge _ _)) by lia. lia.
    + by rewrite IH.
Qed.

Lemma list_find_head {A} (P : A → Prop) `{∀ x, Decision (P x)} (l : list A) (x : A) :
  l !! 0%nat = Some x → P x → list_find P l = Some (0%nat, x).
Proof. intros Hl Hx. apply list_find_Some. split_and!; [done|done|]. intros; lia. Qed.

(** A function injective on the elements of a list without duplicate
    images. *)
Lemma NoDup_map_inj_on {A B} (f : A → B) (l : list A) (x y : A) :
  NoDup (map f l) → x ∈ l → y ∈ l → f x = f y → x = y.
Proof.
  induction l as [|z l IH]; simpl; intros Hnd Hx Hy Hf; [by apply not_elem_of_nil in Hx|].
  apply NoDup_cons in Hnd as [Hni Hnd].
  apply elem_of_cons in Hx as [->|Hx], Hy as [->|Hy]; auto.
  - destruct Hni. rewrite Hf. by apply list_elem_of_fmap_2.
  - destruct Hni. rewrite <- Hf. by apply list_elem_of_fmap_2.
Qed.

(** Sortedness survives taking and dropping, hence slicing. *)
From Stdlib Require Import Sorted.

Lemma Sorted_take {A} (R : A → A → Prop) (l : list A) n : Sorted R l → Sorted R (take n l).
Proof.
  intros Hs. revert n. induction Hs as [|x l Hs IH Hhd]; intros [|n]; simpl; try constructor.
  - apply IH.
  - destruct Hhd, n; simpl; constructor; done.
Qed.

Lemma Sorted_drop {A} (R : A → A → Prop) (l : list A) n : Sorted R l → Sorted R (drop n l).
Proof.
  intros Hs. revert n. induction Hs as [|x l Hs IH Hhd]; intros [|n]; simpl; try constructor; auto.
Qed.

Lemma Sorted_js_slice {A} (R : A → A → Prop) (l : list A) s e :
  Sorted R l → Sorted R (js_slice l s e).
Proof. intros Hs. apply Sorted_take, Sorted_drop, Hs. Qed.

Lemma Sorted_map_mono {A B} (R : A → A → Prop) (R' : B → B → Prop) (f : A → B) l :
  (∀ a b, R a b → R' (f a) (f b)) → Sorted R l → Sorted R' (map f l).
Proof.
  intros Hf Hs. induction Hs as [|x l Hs IH Hhd]; simpl; constructor; [done|].
  destruct Hhd; simpl; constructor; auto.
Qed.

#[export] Hint Resolve js_rel_index_bounds js_slice_subseteq : hedeya.
