(* ===== verification/JsString.v ===== *)
(** * JavaScript string primitives

    The string operations the routes call: [Number.prototype.toString] on
    integers, [String.prototype.padStart], [slice(-k)] and [toLowerCase],
    together with the decimal parsers that invert them.  Strings are
    Stdlib [string]s of 8-bit characters; JavaScript strings of UTF-16
    code units agree with them on the ASCII inputs considered here. *)

From S2P Require Import Prelude.
From Stdlib Require Import Ascii DecimalString DecimalN DecimalZ.

(** ** Definitions *)

(** [n.toString()] for a non-negative integer [n]: its decimal digits,
    without leading zeros.  JavaScript switches to exponent notation from
    [10^21] on; order numbers and timestamps stay far below. *)
Definition n_to_string (n : N) : string :=
  NilEmpty.string_of_uint (N.to_uint n).

(** [z.toString()] for an integer [z], with a leading ["-"] when
    negative. *)
Definition z_to_string (z : Z) : string :=
  NilEmpty.string_of_int (Z.to_int z).

(** The inverse of [n_to_string]: a string of decimal digits (leading
    zeros allowed) read as a natural number. *)
Definition parse_N (s : string) : option N :=
  N.of_uint <$> NilEmpty.uint_of_string s.

Fixpoint str_repeat (k : nat) (c : ascii) : string :=
  match k with O => "" | S k' => String c (str_repeat k' c) end.

(** [s.padStart(target, c)] with a one-character pad string. *)
Definition pad_start (s : string) (target : nat) (c : ascii) : string :=
  let len := String.length s in
  if (target <=? len)%nat then s else str_repeat (target - len) c +:+ s.

(** [s.slice(-k)]: the last [k] characters, or all of [s] when shorter. *)
Definition str_slice_last (k : nat) (s : string) : string :=
  Stdlib.Strings.String.substring (String.length s - k) k s.

(** [toLowerCase] on ASCII characters. *)
Definition ascii_to_lower (c : ascii) : ascii :=
  let n := nat_of_ascii c in
  if (65 <=? n)%nat && (n <=? 90)%nat then ascii_of_nat (n + 32) else c.

Fixpoint to_lower (s : string) : string :=
  match s with
  | "" => ""
  | String c s' => String (ascii_to_lower c) (to_lower s')
  end.

Fixpoint str_forallb (p : ascii → bool) (s : string) : bool :=
  match s with "" => true | String c s' => p c && str_forallb p s' end.

Definition is_digit (c : ascii) : bool :=
  let n := nat_of_ascii c in (48 <=? n)%nat && (n <=? 57)%nat.

(** [s.split(sep)] with a one-character separator: the pieces between
    separators, empty ones included. *)
Fixpoint split_on (sep : ascii) (s : string) : list string :=
  match s with
  | "" => [""]
  | String c s' =>
      if Ascii.eqb c sep then "" :: split_on sep s'
      else match split_on sep s' with
           | w :: ws => String c w :: ws
           | [] => [String c ""]
           end
  end.

(** The value of a digit in radix up to 36. *)
Definition digit_value (c : ascii) : option Z :=
  let n := Z.of_nat (nat_of_ascii c) in
  if (48 <=? n) && (n <=? 57) then Some (n - 48)
  else if (97 <=? n) && (n <=? 122) then Some (n - 87)
  else if (65 <=? n) && (n <=? 90) then Some (n - 55)
  else None.

(** The longest prefix of digits of [radix], accumulated in [acc];
    [None] when there is none. *)
Fixpoint digits_prefix (radix : Z) (s : string) (acc : Z) (seen : bool) : option Z :=
  match s with
  | String c s' =>
      match digit_value c with
      | Some d => if d <? radix then digits_prefix radix s' (acc * radix + d) true
                  else if seen then Some acc else None
      | None => if seen then Some acc else None
      end
  | "" => if seen then Some acc else None
  end.

(** [\s] of JavaScript regular expressions, and the whitespace
    [parseInt] skips, on 8-bit characters: tab to carriage return, space
    and the no-break space. *)
Definition is_js_space (c : ascii) : bool :=
  let n := nat_of_ascii c in ((9 <=? n)%nat && (n <=? 13)%nat) || (n =? 32)%nat || (n =? 160)%nat.

(** Leading JavaScript whitespace. *)
Fixpoint trim_start (s : string) : string :=
  match s with
  | String c s' => if is_js_space c then trim_start s' else s
  | "" => ""
  end.

(** [parseInt(s)]: leading whitespace, a sign, a [0x] prefix selecting
    radix 16, then the longest prefix of digits; [None] is [NaN]. *)
Definition js_parseInt (s : string) : option Z :=
  let s1 := trim_start s in
  let '(sign, s2) := match s1 with
                     | String "-" s' => (-1, s')
                     | String "+" s' => (1, s')
                     | _ => (1, s1)
                     end%char in
  let '(radix, s3) := match s2 with
                      | String "0" (String "x" s') | String "0" (String "X" s') => (16, s')
                      | _ => (10, s2)
                      end%char in
  Z.mul sign <$> digits_prefix radix s3 0 false.

(** [parts.join(sep)]. *)
Fixpoint str_join (sep : string) (parts : list string) : string :=
  match parts with
  | [] => ""
  | [p] => p
  | p :: ps => p +:+ sep +:+ str_join sep ps
  end.

(** A query parameter read with [parseInt], the default number when the
    parameter is absent ([const { limit = 50 } = req.query;
    parseInt(limit)]); [None] is [NaN]. *)
Definition query_int (q : option string) (d : Z) : option Z :=
  match q with Some s => js_parseInt s | None => Some d end.

(** ** Lemmas *)

Lemma parse_N_n_to_string n : parse_N (n_to_string n) = Some n.
Proof.
  unfold parse_N, n_to_string. rewrite NilEmpty.usu. simpl.
  by rewrite DecimalN.Unsigned.of_to.
Qed.

(** [toString] is injective on natural numbers. *)
Lemma n_to_string_inj n m : n_to_string n = n_to_string m → n = m.
Proof.
  intros H. pose proof (parse_N_n_to_string n) as Hn.
  rewrite H, parse_N_n_to_string in Hn. by injection Hn.
Qed.

Lemma n_to_string_nonempty n : n_to_string n ≠ "".
Proof.
  intros Hn. pose proof (parse_N_n_to_string n) as Hp. rewrite Hn in Hp.
  vm_compute in Hp. injection Hp as <-. discriminate Hn.
Qed.

Lemma str_repeat_length k c : String.length (str_repeat k c) = k.
Proof. induction k; simpl; auto. Qed.

(** Leading zeros do not change the parsed value. *)
Lemma parse_N_zeros k s : parse_N (str_repeat k "0" +:+ s) = parse_N s.
Proof.
  induction k as [|k IH]; [done|].
  unfold parse_N in *. simpl.
  destruct (NilEmpty.uint_of_string (str_repeat k "0" +:+ s)) as [d|] eqn:E;
    simpl in *; [|done].
  rewrite <- IH. simpl. f_equal.
Qed.

Lemma parse_N_pad_start s target :
  parse_N (pad_start s target "0") = parse_N s.
Proof.
  unfold pad_start. destruct (target <=? _)%nat; [done|].
  apply parse_N_zeros.
Qed.

Lemma str_forallb_app p s t :
  str_forallb p (s +:+ t) = str_forallb p s && str_forallb p t.
Proof. induction s; simpl; [done|]. rewrite IHs. by destruct (p a). Qed.

(** The decimal digits of a number contain no ["-"]. *)
Lemma n_to_string_no_dash n :
  str_forallb (λ c, negb (Ascii.eqb c "-")) (n_to_string n) = true.
Proof.
  unfold n_to_string. generalize (N.to_uint n) as d.
  induction d; simpl; auto.
Qed.

(** The decimal digits of a number are digits. *)
Lemma n_to_string_digits n : str_forallb is_digit (n_to_string n) = true.
Proof.
  unfold n_to_string. generalize (N.to_uint n) as d.
  induction d; simpl; auto.
Qed.

Lemma str_forallb_impl (p q : ascii → bool) s :
  (∀ c, p c = true → q c = true) → str_forallb p s = true → str_forallb q s = true.
Proof.
  intros Hpq. induction s as [|c s IH]; simpl; [done|].
  intros [Hc Hs]%andb_prop. by rewrite Hpq, IH.
Qed.

(** Splitting at a separator that does not occur in the suffix is unique. *)
Lemma app_sep_suffix_inj (sep : ascii) a a' b b' :
  str_forallb (λ c, negb (Ascii.eqb c sep)) b = true →
  str_forallb (λ c, negb (Ascii.eqb c sep)) b' = true →
  a +:+ String sep b = a' +:+ String sep b' → a = a' ∧ b = b'.
Proof.
  assert (Hno : ∀ x y, str_forallb (λ c, negb (Ascii.eqb c sep))
                         (x +:+ String sep y) = false).
  { intros x y. rewrite str_forallb_app. simpl.
    by rewrite Ascii.eqb_refl, andb_false_r. }
  revert a'. induction a as [|c a IH]; intros [|c' a'] Hb Hb' Heq;
    simpl in Heq; simplify_eq.
  - done.
  - by rewrite Hno in Hb.
  - by rewrite Hno in Hb'.
  - destruct (IH a' Hb Hb' ltac:(done)). by subst.
Qed.

Lemma str_length_app a b : String.length (a +:+ b) = (String.length a + String.length b)%nat.
Proof. induction a as [|c a IH]; simpl; [done|]. by rewrite IH. Qed.

Lemma str_forallb_cons p c s : str_forallb p (String c s) = p c && str_forallb p s.
Proof. done. Qed.

Lemma str_app_nil s : "" +:+ s = s.
Proof. done. Qed.

Lemma str_app_cons c s t : String c s +:+ t = String c (s +:+ t).
Proof. done. Qed.

(** Where a split at a separator falls in a non-empty string. *)
Lemma str_split_cons (c sep : ascii) s x y :
  String c s = x +:+ String sep y ↔
  (x = "" ∧ c = sep ∧ s = y) ∨ (∃ x', x = String c x' ∧ s = x' +:+ String sep y).
Proof.
  split.
  - destruct x as [|c' x]; rewrite ?str_app_nil, ?str_app_cons; intros H; simplify_eq; eauto.
  - intros [(-> & -> & ->)|(x' & -> & ->)]; reflexivity.
Qed.

(** Splitting a string without the separator gives the string itself. *)
Lemma split_on_none (sep : ascii) s :
  str_forallb (λ c, negb (Ascii.eqb c sep)) s = true → split_on sep s = [s].
Proof.
  induction s as [|c s IH]; [done|]. simpl. intros [Hc Hs]%andb_prop.
  apply negb_true_iff in Hc. by rewrite Hc, IH.
Qed.

Lemma split_on_app (sep : ascii) a b :
  str_forallb (λ c, negb (Ascii.eqb c sep)) a = true →
  split_on sep (a +:+ String sep b) = a :: split_on sep b.
Proof.
  induction a as [|c a IH]; simpl.
  - intros _. by rewrite Ascii.eqb_refl.
  - intros [Hc Ha]%andb_prop. apply negb_true_iff in Hc.
    by rewrite Hc, IH.
Qed.

Lemma str_join_cons2 sep p q qs : str_join sep (p :: q :: qs) = p +:+ sep +:+ str_join sep (q :: qs).
Proof. done. Qed.

Lemma str_app_assoc (a b c : string) : a +:+ b +:+ c = (a +:+ b) +:+ c.
Proof. induction a as [|x a IH]; [done|]. exact (f_equal (String x) IH). Qed.

Lemma ascii_to_lower_idem c : ascii_to_lower (ascii_to_lower c) = ascii_to_lower c.
Proof. destruct c as [[] [] [] [] [] [] [] []]; reflexivity. Qed.

(** [toLowerCase] is idempotent. *)
Lemma to_lower_idem s : to_lower (to_lower s) = to_lower s.
Proof. induction s as [|c s IH]; [done|]. simpl. by rewrite ascii_to_lower_idem, IH. Qed.

Lemma to_lower_nil s : to_lower s = "" → s = "".
Proof. by destruct s. Qed.

#[export] Hint Rewrite to_lower_idem : hedeya_rw.

#[export] Hint Resolve parse_N_n_to_string n_to_string_no_dash : hedeya.
