(* ===== verification/Money.v ===== *)
(** * JavaScript money arithmetic

    Prices and quantities arrive as JavaScript numbers.  They are modelled
    as exact rationals [Q]: the development reasons about the arithmetic
    the code writes, not about binary floating-point rounding (the float
    [0.08] is taken as the rational [8/100]).  [Math.round] is
    [floor(x + 1/2)], as ECMAScript specifies it, and a value produced by
    [Math.round(x * 100) / 100] is represented by the integer number of
    cents [Math.round(x * 100)]. *)

From S2P Require Import Prelude.
From Stdlib Require Import QArith Qround.

(** ** Definitions *)

(** [Math.round(x)]. *)
Definition math_round (x : Q) : Z := Qfloor (x + (1 # 2)).

(** The cents denoted by [Math.round(x * 100) / 100]. *)
Definition round_cents (x : Q) : Z := math_round (x * 100).

(** A JavaScript number that is a whole number of cents, decided on the
    rational [x * 100]: its denominator divides its numerator. *)
Definition is_whole (x : Q) : bool := (Qnum x mod Zpos (Qden x) =? 0)%Z.

Definition whole_cents (x : Q) : bool := is_whole (x * 100).

(** ** Rounding lemmas *)

Lemma Qfloor_unique (z : Z) (x : Q) :
  inject_Z z <= x → x < inject_Z (z + 1) → Qfloor x = z.
Proof.
  intros Hlo Hhi.
  pose proof (Qfloor_resp_le _ _ Hlo) as H1. rewrite Qfloor_Z in H1.
  pose proof (Qfloor_le x) as H2.
  assert (inject_Z (Qfloor x) < inject_Z (z + 1)) as H3 by (eapply Qle_lt_trans; eauto).
  rewrite <- Zlt_Qlt in H3. lia.
Qed.

#[export] Instance Qfloor_proper : Proper (Qeq ==> eq) Qfloor.
Proof.
  intros x y Hxy. apply Z.le_antisymm; apply Qfloor_resp_le; rewrite Hxy; apply Qle_refl.
Qed.

#[export] Instance math_round_proper : Proper (Qeq ==> eq) math_round.
Proof. intros x y Hxy. unfold math_round. by rewrite Hxy. Qed.

#[export] Instance round_cents_proper : Proper (Qeq ==> eq) round_cents.
Proof. intros x y Hxy. unfold round_cents. by rewrite Hxy. Qed.

Lemma math_round_Z (n : Z) : math_round (inject_Z n) = n.
Proof.
  apply Qfloor_unique.
  - rewrite <- (Qplus_0_r (inject_Z n)) at 1. apply Qplus_le_compat; [apply Qle_refl|done].
  - rewrite inject_Z_plus. apply Qplus_lt_r. done.
Qed.

(** Rounding commutes with adding an integer. *)
Lemma math_round_plus_Z (n : Z) (x : Q) : math_round (inject_Z n + x) = (n + math_round x)%Z.
Proof.
  unfold math_round. apply Qfloor_unique.
  - rewrite inject_Z_plus, <- Qplus_assoc. apply Qplus_le_compat; [apply Qle_refl|].
    apply Qfloor_le.
  - rewrite !inject_Z_plus, <- !Qplus_assoc. apply Qplus_lt_r.
    rewrite <- inject_Z_plus. apply Qlt_floor.
Qed.

Lemma math_round_mono (x y : Q) : x <= y → (math_round x <= math_round y)%Z.
Proof. intros H. apply Qfloor_resp_le. by apply Qplus_le_compat; [|apply Qle_refl]. Qed.

(** A rational whose numerator its denominator divides is an integer. *)
Lemma is_whole_spec (x : Q) : is_whole x = true ↔ ∃ z : Z, x == inject_Z z.
Proof.
  destruct x as [n d]. unfold is_whole, Qeq, inject_Z; simpl. split.
  - intros Hm%Z.eqb_eq. exists (n / Zpos d)%Z.
    rewrite (Z.div_mod n (Zpos d)) at 1 by lia. rewrite Hm. lia.
  - intros [z Hz]. apply Z.eqb_eq. rewrite Z.mul_1_r in Hz. rewrite Hz.
    apply Z.mod_mul. lia.
Qed.

Lemma whole_plus (x y : Q) :
  (∃ a : Z, x == inject_Z a) → (∃ b : Z, y == inject_Z b) → ∃ c : Z, x + y == inject_Z c.
Proof. intros [a Ha] [b Hb]. exists (a + b)%Z. by rewrite Ha, Hb, inject_Z_plus. Qed.

Lemma whole_mult (x y : Q) :
  (∃ a : Z, x == inject_Z a) → (∃ b : Z, y == inject_Z b) → ∃ c : Z, x * y == inject_Z c.
Proof. intros [a Ha] [b Hb]. exists (a * b)%Z. by rewrite Ha, Hb, inject_Z_mult. Qed.

Lemma round_cents_whole (x : Q) (z : Z) : x * 100 == inject_Z z → round_cents x = z.
Proof. intros H. unfold round_cents. rewrite H. apply math_round_Z. Qed.

#[export] Hint Resolve whole_plus whole_mult : hedeya.
