(* ===== verification/Pricing.v ===== *)
(** * Pricing calculator

    [calculateOrderTotal] of [src/backend/routes/orders.js] (repeated
    verbatim as [helpers.calculateOrderTotal] in [src/src/api/index.js]),
    the per-line total computed when an order is created, and the order
    summary that [src/src/components/CheckoutPage.jsx] displays. *)

From S2P Require Import Prelude Money.
From Stdlib Require Import QArith Qround Lqa.

(** ** Data *)

(** One element of the [items] array of [POST /api/orders] (a cart line):
    [{id, name, price, quantity, image}]. *)
Record CartItem := mkCartItem {
  ci_id : option string;
  ci_name : option string;
  ci_price : Q;
  ci_quantity : Q;
  ci_image : option string
}.

(** The [totals] object, each field in cents: the field's JavaScript value
    is the number divided by 100. *)
Record Totals := mkTotals {
  subtotal : Z;
  tax : Z;
  shipping : Z;
  total : Z
}.

(** ** Operations *)

Definition TAX_RATE : Q := 8 # 100.
Definition FREE_SHIPPING_OVER : Q := 75.
Definition SHIPPING_FEE : Q := 999 # 100.

(** [items.reduce((total, item) => total + item.price * item.quantity, 0)]. *)
Definition items_subtotal (items : list CartItem) : Q :=
  fold_left (λ acc it, acc + ci_price it * ci_quantity it) items 0.

(** [subtotal > 75 ? 0 : 9.99]. *)
Definition shipping_of (sub : Q) : Q :=
  if Qle_bool sub FREE_SHIPPING_OVER then SHIPPING_FEE else 0.

Definition calculateOrderTotal (items : list CartItem) : Totals :=
  let sub := items_subtotal items in
  let tx := sub * TAX_RATE in
  let sh := shipping_of sub in
  {| subtotal := round_cents sub;
     tax := round_cents tx;
     shipping := round_cents sh;
     total := round_cents (sub + tx + sh) |}.

(** [Math.round(item.price * item.quantity * 100) / 100], the [total] of a
    stored order line. *)
Definition line_total (it : CartItem) : Z := round_cents (ci_price it * ci_quantity it).

(** The summary of [CheckoutPage]: [subtotal > 50 ? 0 : 9.99], tax at 8%,
    and an unrounded total.  [getCartTotal] belongs to the cart context,
    which is not among the sources; the summary takes its value. *)
Record CheckoutSummary := mkCheckoutSummary {
  co_subtotal : Q;
  co_shipping : Q;
  co_tax : Q;
  co_total : Q
}.

Definition checkout_summary (cart_total : Q) : CheckoutSummary :=
  let sh := if Qle_bool cart_total 50 then SHIPPING_FEE else 0 in
  let tx := cart_total * TAX_RATE in
  {| co_subtotal := cart_total; co_shipping := sh; co_tax := tx;
     co_total := cart_total + sh + tx |}.

(** Prices that are whole cents and integer quantities: the inputs the
    catalogue and the cart produce. *)
Definition cents_priced (items : list CartItem) : bool :=
  forallb (λ it, whole_cents (ci_price it) && is_whole (ci_quantity it)) items.

(** Two item lists with equal prices and quantities, as rationals. *)
Definition items_equiv (l1 l2 : list CartItem) : Prop :=
  Forall2 (λ a b, ci_price a == ci_price b ∧ ci_quantity a == ci_quantity b) l1 l2.

(** ** Lemmas *)

Lemma items_subtotal_acc_whole (items : list CartItem) (acc : Q) :
  cents_priced items = true → (∃ a : Z, acc * 100 == inject_Z a) →
  ∃ s : Z, fold_left (λ acc it, acc + ci_price it * ci_quantity it) items acc * 100
           == inject_Z s.
Proof.
  revert acc. induction items as [|it items IH]; intros acc Hc Ha; simpl; [done|].
  simpl in Hc. apply andb_prop in Hc as [Hit Hc]. apply andb_prop in Hit as [Hp Hq].
  apply IH; [done|].
  apply is_whole_spec in Hp, Hq.
  destruct (whole_plus _ _ Ha (whole_mult _ _ Hp Hq)) as [c Hcq].
  exists c. rewrite <- Hcq. ring.
Qed.

Lemma items_subtotal_whole (items : list CartItem) :
  cents_priced items = true → ∃ s : Z, items_subtotal items * 100 == inject_Z s.
Proof.
  intros H. apply items_subtotal_acc_whole; [done|]. by exists 0%Z.
Qed.

Lemma shipping_of_cents (sub : Q) :
  shipping_of sub * 100 == inject_Z (round_cents (shipping_of sub)).
Proof. unfold shipping_of. by destruct (Qle_bool sub _). Qed.

Lemma fold_subtotal_app (l1 l2 : list CartItem) acc :
  fold_left (λ acc it, acc + ci_price it * ci_quantity it) (l1 ++ l2) acc =
  fold_left (λ acc it, acc + ci_price it * ci_quantity it) l2
    (fold_left (λ acc it, acc + ci_price it * ci_quantity it) l1 acc).
Proof. apply fold_left_app. Qed.

Lemma fold_subtotal_proper (l1 l2 : list CartItem) a1 a2 :
  items_equiv l1 l2 → a1 == a2 →
  fold_left (λ acc it, acc + ci_price it * ci_quantity it) l1 a1 ==
  fold_left (λ acc it, acc + ci_price it * ci_quantity it) l2 a2.
Proof.
  intros H. revert a1 a2. induction H as [|x y l1 l2 [Hp Hq] _ IH]; intros a1 a2 Ha;
    simpl; [done|].
  apply IH. by rewrite Ha, Hp, Hq.
Qed.

#[export] Instance shipping_of_proper : Proper (Qeq ==> Qeq) shipping_of.
Proof.
  intros x y Hxy. unfold shipping_of.
  destruct (Qle_bool x _) eqn:E1, (Qle_bool y _) eqn:E2; try done;
    apply Qle_bool_iff in E1 || apply Qle_bool_iff in E2;
    [rewrite Hxy in E1 | rewrite <- Hxy in E2];
    apply Qle_bool_iff in E1 || apply Qle_bool_iff in E2; congruence.
Qed.

(** ** Theorems *)

(** C3: for prices in whole cents and integer quantities, the rounded total
    is exactly the sum of the rounded subtotal, tax and shipping. *)
Theorem total_is_sum_of_parts (items : list CartItem) :
  cents_priced items = true →
  let t := calculateOrderTotal items in
  total t = (subtotal t + tax t + shipping t)%Z.
Proof.
  intros Hc. destruct (items_subtotal_whole items Hc) as [s Hs]. simpl.
  rewrite (round_cents_whole _ _ Hs).
  set (sh := shipping_of (items_subtotal items)).
  assert ((items_subtotal items + items_subtotal items * TAX_RATE + sh) * 100 ==
          inject_Z (s + round_cents sh) + items_subtotal items * TAX_RATE * 100) as E.
  { unfold sh. rewrite inject_Z_plus, <- Hs, <- shipping_of_cents. ring. }
  unfold round_cents at 1. rewrite E, math_round_plus_Z. unfold round_cents. lia.
Qed.

Lemma fold_subtotal_lines (items : list CartItem) (acc : Q) (a : Z) :
  cents_priced items = true → acc * 100 == inject_Z a →
  fold_left (λ acc it, acc + ci_price it * ci_quantity it) items acc * 100 ==
  inject_Z (a + foldr (λ it s, line_total it + s) 0 items)%Z.
Proof.
  revert acc a. induction items as [|it items IH]; intros acc a Hc Ha; simpl.
  - by rewrite Z.add_0_r.
  - apply andb_prop in Hc as [Hit Hc]. apply andb_prop in Hit as [Hp Hq].
    apply is_whole_spec in Hp, Hq.
    destruct (whole_mult _ _ Hp Hq) as [l Hl].
    assert (ci_price it * ci_quantity it * 100 == inject_Z l) as Hl'.
    { rewrite <- Hl. ring. }
    rewrite (IH _ (a + l)%Z Hc).
    + unfold line_total. rewrite (round_cents_whole _ _ Hl'), Z.add_assoc. reflexivity.
    + rewrite inject_Z_plus, <- Ha, <- Hl'. ring.
Qed.

Lemma round_cents_zero_bounds (x : Q) : round_cents x = 0%Z → -(1#2) <= x * 100 /\ x * 100 < 1#2.
Proof.
  unfold round_cents, math_round. intros H.
  pose proof (Qfloor_le (x * 100 + (1#2))) as H1.
  pose proof (Qlt_floor (x * 100 + (1#2))) as H2.
  rewrite H in H1, H2.
  change (inject_Z 0) with (0 # 1) in H1. change (inject_Z (0 + 1)) with (1 # 1) in H2.
  split; lra.
Qed.

(** a subtotal that rounds to zero cents always gives zero tax, whatever
    the prices (negative ones included). *)
Theorem zero_subtotal_zero_tax (items : list CartItem) :
  subtotal (calculateOrderTotal items) = 0%Z → tax (calculateOrderTotal items) = 0%Z.
Proof.
  simpl. intros [Hlo Hhi]%round_cents_zero_bounds.
  unfold round_cents, math_round, TAX_RATE. apply Qfloor_unique.
  - change (inject_Z 0) with (0 # 1). lra.
  - change (inject_Z (0 + 1)) with (1 # 1). lra.
Qed.

(** Shipping is free exactly when the exact (unrounded) subtotal is
    strictly above 75; otherwise it is the flat 9.99. *)
Theorem shipping_rule (items : list CartItem) :
  (shipping (calculateOrderTotal items) = 0%Z ↔ 75 < items_subtotal items) ∧
  (shipping (calculateOrderTotal items) = 999%Z ↔ items_subtotal items <= 75).
Proof.
  simpl. unfold shipping_of, FREE_SHIPPING_OVER.
  destruct (Qle_bool _ 75) eqn:E.
  - apply Qle_bool_iff in E. split; split; intros H; try done.
    + by apply Qlt_not_le in H.
  - assert (¬ items_subtotal items <= 75) as E' by (by rewrite <- Qle_bool_iff, E).
    split; split; intros H; try done.
    + by apply Qnot_le_lt.
Qed.

(** Single-line carts used by the examples below. *)
Definition one_item (price quantity : Q) : list CartItem :=
  [mkCartItem (Some "1") (Some "item") price quantity None].

(** The worked examples of the specification: a subtotal of 100.00
    gives tax 8.00, free shipping and total 108.00; a subtotal of 50.00
    gives shipping 9.99, tax 4.00 and total 63.99. *)
Example spec_examples :
  calculateOrderTotal (one_item 100 1) = mkTotals 10000 800 0 10800 ∧
  calculateOrderTotal (one_item 50 1) = mkTotals 5000 400 999 6399 ∧
  calculateOrderTotal (one_item 75 1) = mkTotals 7500 600 999 9099.
Proof. vm_compute. auto. Qed.

(** The total is not the sum of its rounded parts once a price has a
    fraction of a cent: a single item at 0.0047 gives subtotal 0.00, tax
    0.00, shipping 9.99 and total 10.00.  Nothing in the route rejects such
    a price. *)
Theorem subcent_price_breaks_sum :
  let t := calculateOrderTotal (one_item (47 # 10000) 1) in
  total t ≠ (subtotal t + tax t + shipping t)%Z.
Proof. vm_compute. discriminate. Qed.

(** C33: for whole-cent prices and integer quantities the subtotal is the
    sum of the stored per-line totals. *)
Theorem subtotal_is_sum_of_lines (items : list CartItem) :
  cents_priced items = true →
  subtotal (calculateOrderTotal items) = foldr (λ it s, line_total it + s)%Z 0%Z items.
Proof.
  intros Hc. simpl. apply round_cents_whole. unfold items_subtotal.
  rewrite (fold_subtotal_lines items 0 0 Hc); [|done]. f_equal.
Qed.

(** The checkout page and the order route disagree on shipping for a
    cart between 50 and 75: at 60.00 the page shows free shipping and a
    total of 64.80, while the order is charged 9.99 and 74.79. *)
Theorem checkout_shipping_diverges :
  co_shipping (checkout_summary 60) == 0 ∧ co_total (checkout_summary 60) == 6480 # 100 ∧
  shipping (calculateOrderTotal (one_item 60 1)) = 999%Z ∧
  total (calculateOrderTotal (one_item 60 1)) = 7479%Z.
Proof. vm_compute. repeat split; reflexivity. Qed.

(** The totals depend on prices and quantities only up to [Qeq]. *)
#[export] Instance calculateOrderTotal_proper : Proper (items_equiv ==> eq) calculateOrderTotal.
Proof.
  intros l1 l2 H. unfold calculateOrderTotal.
  assert (items_subtotal l1 == items_subtotal l2) as E by (by apply fold_subtotal_proper).
  by rewrite E.
Qed.

(** Witnesses for the theorems with hypotheses. *)
Lemma total_is_sum_of_parts_witness :
  cents_priced (one_item (1999 # 100) 3) = true ∧
  total (calculateOrderTotal (one_item (1999 # 100) 3)) =
    (subtotal (calculateOrderTotal (one_item (1999 # 100) 3)) +
     tax (calculateOrderTotal (one_item (1999 # 100) 3)) +
     shipping (calculateOrderTotal (one_item (1999 # 100) 3)))%Z.
Proof.
  split; [vm_compute; reflexivity|].
  apply (total_is_sum_of_parts (one_item (1999 # 100) 3)). vm_compute. reflexivity.
Defined.

Lemma zero_subtotal_zero_tax_witness :
  subtotal (calculateOrderTotal (one_item (1 # 1000) 1)) = 0%Z ∧
  tax (calculateOrderTotal (one_item (1 # 1000) 1)) = 0%Z.
Proof.
  split; [vm_compute; reflexivity|].
  apply zero_subtotal_zero_tax. vm_compute. reflexivity.
Defined.

Lemma subtotal_is_sum_of_lines_witness :
  cents_priced (one_item (1250 # 100) 4 ++ one_item (399 # 100) 2) = true ∧
  subtotal (calculateOrderTotal (one_item (1250 # 100) 4 ++ one_item (399 # 100) 2)) =
    foldr (λ it s, line_total it + s)%Z 0%Z (one_item (1250 # 100) 4 ++ one_item (399 # 100) 2).
Proof.
  split; [vm_compute; reflexivity|].
  apply subtotal_is_sum_of_lines. vm_compute. reflexivity.
Defined.
