(* ===== verification/Orders.v ===== *)
(** * Order lifecycle controller

    The in-memory order routes of [src/backend/routes/orders.js]: the
    module-level [orders] array and [orderIdCounter], and the five
    handlers [POST /], [GET /:orderId], [GET /tracking/:trackingNumber],
    [PUT /:orderId/status] and [GET /].  Each handler is a function from the
    store, the clock reading [now] (milliseconds, [Date.now()]) and the
    request to the new store and the response. *)

From S2P Require Import Prelude JsString Money Pricing.
From Stdlib Require Import QArith Ascii Sorted.
Local Open Scope Z_scope.

(** ** Data *)

(** The [status] enumeration of [models/Order.js]. *)
Inductive OrderStatus :=
| Pending | Paid | Processing | Shipped | Delivered | Cancelled | Refunded.

#[export] Instance OrderStatus_eq_dec : EqDecision OrderStatus.
Proof. solve_decision. Defined.

Definition status_name (st : OrderStatus) : string :=
  match st with
  | Pending => "pending" | Paid => "paid" | Processing => "processing"
  | Shipped => "shipped" | Delivered => "delivered" | Cancelled => "cancelled"
  | Refunded => "refunded"
  end.

(** The [paymentStatus] enumeration of [models/Order.js]. *)
Inductive PaymentStatus := PayPending | PayCompleted | PayFailed | PayRefunded.

#[export] Instance PaymentStatus_eq_dec : EqDecision PaymentStatus.
Proof. solve_decision. Defined.

(** A JSON scalar of the request body where its type matters: the card
    number is sliced as a string, and a number there makes [.slice]
    throw. *)
Inductive JsScalar := JStr (s : string) | JNum (q : Q).

Record CustomerInfoIn := mkCustomerInfoIn {
  cin_firstName : option string;
  cin_lastName : option string;
  cin_email : option string;
  cin_phone : option string
}.

Record AddressIn := mkAddressIn {
  ain_address : option string;
  ain_city : option string;
  ain_state : option string;
  ain_postalCode : option string;
  ain_country : option string
}.

Record PaymentDetailsIn := mkPaymentDetailsIn {
  pin_cardNumber : option JsScalar;
  pin_cardType : option string
}.

(** The body of [POST /api/orders]. *)
Record OrderRequest := mkOrderRequest {
  req_items : option (list CartItem);
  req_customerInfo : option CustomerInfoIn;
  req_shippingAddress : option AddressIn;
  req_paymentMethod : option string;
  req_paymentDetails : option PaymentDetailsIn
}.

Record OrderItem := mkOrderItem {
  oi_productId : option string;
  oi_name : option string;
  oi_price : Q;
  oi_quantity : Q;
  oi_image : option string;
  oi_total : Z
}.

Record CustomerInfo := mkCustomerInfo {
  cu_firstName : string;
  cu_lastName : string;
  cu_email : string;
  cu_phone : option string
}.

Record ShippingAddress := mkShippingAddress {
  sa_address : string;
  sa_city : string;
  sa_state : option string;
  sa_postalCode : string;
  sa_country : string
}.

Record PaymentDetails := mkPaymentDetails { pd_last4 : string; pd_cardType : string }.

(** A stored order: the object literal of the create handler, with the
    fields the handler adds afterwards ([paymentStatus], [paymentDate]).
    Dates are kept as millisecond timestamps. *)
Record Order := mkOrder {
  o_id : string;
  o_orderNumber : N;
  o_status : OrderStatus;
  o_items : list OrderItem;
  o_customerInfo : CustomerInfo;
  o_shippingAddress : ShippingAddress;
  o_paymentMethod : string;
  o_paymentDetails : option PaymentDetails;
  o_totals : Totals;
  o_createdAt : Z;
  o_updatedAt : Z;
  o_estimatedDelivery : Z;
  o_trackingNumber : option string;
  o_paymentStatus : option PaymentStatus;
  o_paymentDate : option Z
}.

(** The module state: [let orders = []; let orderIdCounter = 1;]. *)
Record OrderStore := mkOrderStore { orders : list Order; orderIdCounter : N }.

Definition initial_store : OrderStore := mkOrderStore [] 1.

(** ** Helpers *)

(** [`HED-${Date.now()}-${orderIdCounter++}`]: the identifier and the
    incremented counter. *)
Definition generateOrderId (now : Z) (counter : N) : string * N :=
  ("HED-" +:+ z_to_string now +:+ "-" +:+ n_to_string counter, (counter + 1)%N).

(** [`TRK${orderNumber.toString().padStart(6, '0')}`]. *)
Definition tracking_number (n : N) : string := "TRK" +:+ pad_start (n_to_string n) 6 "0"%char.

Definition THREE_DAYS_MS : Z := 3 * 24 * 60 * 60 * 1000.

Definition snapshot_item (it : CartItem) : OrderItem :=
  mkOrderItem (ci_id it) (ci_name it) (ci_price it) (ci_quantity it) (ci_image it)
    (line_total it).

Definition snapshot_customer (ci : CustomerInfoIn) : CustomerInfo :=
  mkCustomerInfo (js_or (cin_firstName ci) "") (js_or (cin_lastName ci) "")
    (js_or (cin_email ci) "") (js_or_null (cin_phone ci)).

Definition snapshot_address (a : AddressIn) : ShippingAddress :=
  mkShippingAddress (js_or (ain_address a) "") (js_or (ain_city a) "")
    (js_or_null (ain_state a)) (js_or (ain_postalCode a) "")
    (js_or (ain_country a) "Egypt").

(** [paymentDetails?.cardNumber?.slice(-4) || '****']; [None] stands for
    the [TypeError] thrown when the card number is not a string. *)
Definition card_last4 (pd : option PaymentDetailsIn) : option string :=
  match pd with
  | None => Some "****"
  | Some p =>
      match pin_cardNumber p with
      | None => Some "****"
      | Some (JStr s) => Some (js_or (Some (str_slice_last 4 s)) "****")
      | Some (JNum _) => None
      end
  end.

Definition customer_valid (ci : option CustomerInfoIn) : bool :=
  match ci with
  | Some c => js_truthy (cin_email c) && js_truthy (cin_firstName c) &&
              js_truthy (cin_lastName c)
  | None => false
  end.

Definition address_valid (a : option AddressIn) : bool :=
  match a with
  | Some a => js_truthy (ain_address a) && js_truthy (ain_city a) &&
              js_truthy (ain_postalCode a)
  | None => false
  end.

(** The data of the 201 response of [POST /api/orders]. *)
Record CreateResponse := mkCreateResponse {
  cr_orderId : string;
  cr_orderNumber : N;
  cr_status : OrderStatus;
  cr_paymentStatus : option PaymentStatus;
  cr_trackingNumber : option string;
  cr_estimatedDelivery : Z;
  cr_totals : Totals
}.

(** The simulated payment of lines 106-114, applied through the reference
    to the order already pushed on the array. *)
Definition simulate_payment (card : bool) (now : Z) (o : Order) : Order :=
  if card then
    mkOrder (o_id o) (o_orderNumber o) Paid (o_items o) (o_customerInfo o)
      (o_shippingAddress o) (o_paymentMethod o) (o_paymentDetails o) (o_totals o)
      (o_createdAt o) (o_updatedAt o) (o_estimatedDelivery o) (o_trackingNumber o)
      (Some PayCompleted) (Some now)
  else
    mkOrder (o_id o) (o_orderNumber o) (o_status o) (o_items o) (o_customerInfo o)
      (o_shippingAddress o) (o_paymentMethod o) (o_paymentDetails o) (o_totals o)
      (o_createdAt o) (o_updatedAt o) (o_estimatedDelivery o) (o_trackingNumber o)
      (Some PayPending) (o_paymentDate o).

(** Line 117: the tracking number, assigned through the same reference. *)
Definition assign_tracking (o : Order) : Order :=
  mkOrder (o_id o) (o_orderNumber o) (o_status o) (o_items o) (o_customerInfo o)
    (o_shippingAddress o) (o_paymentMethod o) (o_paymentDetails o) (o_totals o)
    (o_createdAt o) (o_updatedAt o) (o_estimatedDelivery o)
    (Some (tracking_number (o_orderNumber o))) (o_paymentStatus o) (o_paymentDate o).

(** ** [POST /api/orders] *)
Definition create_order (s : OrderStore) (now : Z) (req : OrderRequest)
    : OrderStore * result CreateResponse :=
  match req_items req with
  | None | Some [] => (s, Err 400 "Invalid order items")
  | Some items =>
    if negb (customer_valid (req_customerInfo req)) then
      (s, Err 400 "Invalid customer information")
    else if negb (address_valid (req_shippingAddress req)) then
      (s, Err 400 "Invalid shipping address")
    else
      let totals := calculateOrderTotal items in
      let '(id, counter') := generateOrderId now (orderIdCounter s) in
      let orderNumber := (counter' - 1)%N in
      let card := bool_decide (req_paymentMethod req = Some "card") in
      let details :=
        if card then
          match card_last4 (req_paymentDetails req) with
          | Some l4 =>
              Some (Some (mkPaymentDetails l4
                (js_or (req_paymentDetails req ≫= pin_cardType) "unknown")))
          | None => None
          end
        else Some None in
      match details with
      | None => (mkOrderStore (orders s) counter', Err 500 "Failed to create order")
      | Some pdetails =>
        let ci := default (mkCustomerInfoIn None None None None) (req_customerInfo req) in
        let sa := default (mkAddressIn None None None None None) (req_shippingAddress req) in
        let newOrder :=
          mkOrder id orderNumber Pending (map snapshot_item items)
            (snapshot_customer ci) (snapshot_address sa)
            (js_or (req_paymentMethod req) "cash_on_delivery") pdetails totals
            now now (now + THREE_DAYS_MS) None None None in
        let stored := assign_tracking (simulate_payment card now newOrder) in
        (mkOrderStore (orders s ++ [stored]) counter',
         Ok (mkCreateResponse (o_id stored) (o_orderNumber stored) (o_status stored)
               (o_paymentStatus stored) (o_trackingNumber stored)
               (o_estimatedDelivery stored) (o_totals stored)))
      end
  end.

(** ** [GET /api/orders/:orderId] *)
Definition get_order (s : OrderStore) (orderId : string) : result Order :=
  match find (λ o, String.eqb (o_id o) orderId) (orders s) with
  | Some o => Ok o
  | None => Err 404 "Order not found"
  end.

(** ** [GET /api/orders/tracking/:trackingNumber] *)
Record TrackingEvent := mkTrackingEvent {
  ev_date : Z; ev_status : string; ev_description : string
}.

Record TrackingView := mkTrackingView {
  tv_orderId : string;
  tv_orderNumber : N;
  tv_status : OrderStatus;
  tv_trackingNumber : option string;
  tv_estimatedDelivery : Z;
  tv_createdAt : Z;
  tv_city : string;
  tv_country : string;
  tv_events : list TrackingEvent
}.

(** The event list, re-derived from the current status on every call. *)
Definition tracking_events (o : Order) : list TrackingEvent :=
  [mkTrackingEvent (o_createdAt o) "Order Placed"
     "Your order has been received and is being processed"] ++
  (if bool_decide (o_status o = Paid) || bool_decide (o_status o = Processing) then
     [mkTrackingEvent (default (o_createdAt o) (o_paymentDate o)) "Payment Confirmed"
        "Payment has been processed successfully"] else []) ++
  (if bool_decide (o_status o = Shipped) then
     [mkTrackingEvent (o_updatedAt o) "Shipped"
        "Your order has been shipped and is on its way"] else []) ++
  (if bool_decide (o_status o = Delivered) then
     [mkTrackingEvent (o_updatedAt o) "Delivered"
        "Your order has been delivered successfully"] else []).

Definition get_tracking (s : OrderStore) (trackingNumber : string) : result TrackingView :=
  match find (λ o, bool_decide (o_trackingNumber o = Some trackingNumber)) (orders s) with
  | Some o =>
      Ok (mkTrackingView (o_id o) (o_orderNumber o) (o_status o) (o_trackingNumber o)
            (o_estimatedDelivery o) (o_createdAt o) (sa_city (o_shippingAddress o))
            (sa_country (o_shippingAddress o)) (tracking_events o))
  | None => Err 404 "Order not found"
  end.

(** ** [PUT /api/orders/:orderId/status] *)

(** [validStatuses] of the handler: the enumeration without [refunded]. *)
Definition validStatuses : list OrderStatus :=
  [Pending; Paid; Processing; Shipped; Delivered; Cancelled].

(** [!status || !validStatuses.includes(status)], returning the status
    named when it is accepted. *)
Definition parse_valid_status (st : option string) : option OrderStatus :=
  if js_truthy st then find (λ v, bool_decide (Some (status_name v) = st)) validStatuses
  else None.

Definition set_status (st : OrderStatus) (now : Z) (o : Order) : Order :=
  mkOrder (o_id o) (o_orderNumber o) st (o_items o) (o_customerInfo o)
    (o_shippingAddress o) (o_paymentMethod o) (o_paymentDetails o) (o_totals o)
    (o_createdAt o) now (o_estimatedDelivery o) (o_trackingNumber o)
    (o_paymentStatus o) (o_paymentDate o).

Record StatusUpdate := mkStatusUpdate {
  su_orderId : string; su_newStatus : OrderStatus; su_updatedAt : Z
}.

Definition update_status (s : OrderStore) (now : Z) (orderId : string)
    (status : option string) : OrderStore * result StatusUpdate :=
  match parse_valid_status status with
  | None => (s, Err 400 "Invalid status")
  | Some st =>
      let idx := js_find_index (λ o, String.eqb (o_id o) orderId) (orders s) in
      if bool_decide (idx = -1) then (s, Err 404 "Order not found")
      else (mkOrderStore (alter (set_status st now) (Z.to_nat idx) (orders s))
                         (orderIdCounter s),
            Ok (mkStatusUpdate orderId st now))
  end.

(** ** [GET /api/orders] *)

(** [filteredOrders.sort((a, b) => new Date(b.createdAt) - new Date(a.createdAt))]:
    newest first; [Array.prototype.sort] is stable, so orders created in
    the same millisecond keep their array order.  Written as an insertion
    sort. *)
Fixpoint insert_by_created_desc (o : Order) (l : list Order) : list Order :=
  match l with
  | [] => [o]
  | o' :: l' =>
      if o_createdAt o' <=? o_createdAt o then o :: l
      else o' :: insert_by_created_desc o l'
  end.

Definition sort_by_created_desc (l : list Order) : list Order :=
  foldr insert_by_created_desc [] l.

Record OrderSummary := mkOrderSummary {
  os_id : string;
  os_orderNumber : N;
  os_status : OrderStatus;
  os_customerName : string;
  os_customerEmail : string;
  os_total : Z;
  os_itemsCount : nat;
  os_createdAt : Z;
  os_trackingNumber : option string
}.

Definition summarize (o : Order) : OrderSummary :=
  mkOrderSummary (o_id o) (o_orderNumber o) (o_status o)
    (cu_firstName (o_customerInfo o) +:+ " " +:+ cu_lastName (o_customerInfo o))
    (cu_email (o_customerInfo o)) (total (o_totals o)) (length (o_items o))
    (o_createdAt o) (o_trackingNumber o).

Record OrderPage := mkOrderPage {
  op_count : nat; op_total : nat; op_data : list OrderSummary
}.

(** [limit] and [offset] are the query strings, read with [parseInt]
    (defaults 50 and 0); [slice] reads [NaN] as 0. *)
Definition list_orders (s : OrderStore) (status : option string)
    (limit offset : option string) : result OrderPage :=
  let filtered :=
    if js_truthy status
    then filter (λ o, bool_decide (Some (status_name (o_status o)) = status)) (orders s)
    else orders s in
  let sorted := sort_by_created_desc filtered in
  let startIndex := query_int offset 0 in
  let endIndex := match startIndex, query_int limit 50 with
                  | Some a, Some b => Some (a + b)
                  | _, _ => None
                  end in
  let page := js_slice sorted (default 0 startIndex) (default 0 endIndex) in
  Ok (mkOrderPage (length page) (length filtered) (map summarize page)).

(** ** Sample requests, used by the witnesses *)

Definition sample_customer : CustomerInfoIn :=
  mkCustomerInfoIn (Some "Mona") (Some "Adel") (Some "mona@example.com") None.

Definition sample_address : AddressIn :=
  mkAddressIn (Some "12 Nile St") (Some "Cairo") None (Some "11511") None.

Definition sample_request (pm : option string) : OrderRequest :=
  mkOrderRequest (Some [mkCartItem (Some "1") (Some "Float") (8999 # 100) 1 None])
    (Some sample_customer) (Some sample_address) pm None.

Example create_order_sample :
  let '(s1, r) := create_order initial_store 1000 (sample_request (Some "card")) in
  orderIdCounter s1 = 2%N ∧ length (orders s1) = 1%nat ∧
  (match r with
   | Ok cr => cr_trackingNumber cr = Some "TRK000001" ∧ cr_status cr = Paid ∧
              cr_orderId cr = "HED-1000-1" ∧ total (cr_totals cr) = 9719%Z
   | Err _ _ => False end).
Proof. vm_compute. repeat split; reflexivity. Qed.

(** ** Lemmas *)

Lemma N_add_1_sub_1 (n : N) : (n + 1 - 1)%N = n.
Proof. lia. Qed.

Lemma card_decide_true pm : bool_decide (pm = Some "card") = true → pm = Some "card".
Proof. by intros ?%bool_decide_eq_true. Qed.

#[export] Hint Rewrite N_add_1_sub_1 : hedeya_rw.

(** ** Theorems: [POST /api/orders] *)

(** C6: an order without items is rejected with 400 and the store (orders
    and counter) is left unchanged: no order record is created. *)
Theorem create_order_rejects_empty (s : OrderStore) (now : Z) (req : OrderRequest) :
  req_items req = None ∨ req_items req = Some [] →
  create_order s now req = (s, Err 400 "Invalid order items").
Proof. unfold create_order. by intros [-> | ->]. Qed.

(** every validation failure leaves the store unchanged and answers 400;
    missing customer data is reported before a missing address. *)
Theorem create_order_validation (s : OrderStore) (now : Z) (req : OrderRequest) items :
  req_items req = Some items → items ≠ [] →
  (customer_valid (req_customerInfo req) = false →
   create_order s now req = (s, Err 400 "Invalid customer information")) ∧
  (customer_valid (req_customerInfo req) = true →
   address_valid (req_shippingAddress req) = false →
   create_order s now req = (s, Err 400 "Invalid shipping address")).
Proof.
  intros Hi Hne. destruct items as [|it items]; [done|].
  unfold create_order. rewrite Hi. split; intros Hc; rewrite Hc; [done|].
  intros Ha. by rewrite Ha.
Qed.

(** C4: a valid order is appended at the end of the array with the
    current counter as its order number, the identifier
    [HED-<now>-<counter>], the tracking number [TRK] followed by the
    zero-padded counter, the computed totals, and status [paid] /
    payment [completed] exactly when the payment method is ["card"]
    (otherwise [pending] / [pending]); the counter is incremented and the
    response repeats the stored order. *)
Theorem create_order_ok (s : OrderStore) (now : Z) (req : OrderRequest) items :
  req_items req = Some items → items ≠ [] →
  customer_valid (req_customerInfo req) = true →
  address_valid (req_shippingAddress req) = true →
  (req_paymentMethod req = Some "card" → card_last4 (req_paymentDetails req) ≠ None) →
  let card := bool_decide (req_paymentMethod req = Some "card") in
  ∃ o : Order,
    create_order s now req =
      (mkOrderStore (orders s ++ [o]) (orderIdCounter s + 1),
       Ok (mkCreateResponse (o_id o) (o_orderNumber o) (o_status o) (o_paymentStatus o)
             (o_trackingNumber o) (o_estimatedDelivery o) (o_totals o))) ∧
    o_orderNumber o = orderIdCounter s ∧
    o_id o = fst (generateOrderId now (orderIdCounter s)) ∧
    o_trackingNumber o = Some (tracking_number (orderIdCounter s)) ∧
    o_totals o = calculateOrderTotal items ∧
    o_createdAt o = now ∧ o_items o = map snapshot_item items ∧
    o_status o = (if card then Paid else Pending) ∧
    o_paymentStatus o = Some (if card then PayCompleted else PayPending).
Proof.
  intros Hi Hne Hc Ha Hcard card. destruct items as [|it items]; [done|].
  unfold create_order. rewrite Hi, Hc, Ha. simpl negb. cbv iota.
  unfold card. destruct (bool_decide _) eqn:E.
  - apply card_decide_true in E. specialize (Hcard E).
    destruct (card_last4 _) as [l4|]; [|done].
    eexists. split; [reflexivity|]. simpl. autorewrite with hedeya_rw. auto 10.
  - eexists. split; [reflexivity|]. simpl. autorewrite with hedeya_rw. auto 10.
Qed.

(** a card payment whose card number is a JSON number makes
    [cardNumber.slice] throw after [orderIdCounter++] ran: the handler
    answers 500, no order is stored, and the order number is consumed. *)
Theorem create_order_throw_consumes_counter (s : OrderStore) (now : Z) (req : OrderRequest)
    items pd q :
  req_items req = Some items → items ≠ [] →
  customer_valid (req_customerInfo req) = true →
  address_valid (req_shippingAddress req) = true →
  req_paymentMethod req = Some "card" →
  req_paymentDetails req = Some pd → pin_cardNumber pd = Some (JNum q) →
  create_order s now req =
    (mkOrderStore (orders s) (orderIdCounter s + 1), Err 500 "Failed to create order").
Proof.
  intros Hi Hne Hc Ha Hpm Hpd Hq. destruct items as [|it items]; [done|].
  unfold create_order. rewrite Hi, Hc, Ha, Hpm, Hpd. simpl. by rewrite Hq.
Qed.

(** Prices and quantities are not validated: an item with a negative
    price is accepted and the order is stored with a negative total. *)
Theorem create_order_accepts_negative_price :
  let req := mkOrderRequest
               (Some [mkCartItem (Some "1") (Some "Float") (-(50)) 1 None])
               (Some sample_customer) (Some sample_address) None None in
  match create_order initial_store 0 req with
  | (s', Ok cr) => length (orders s') = 1%nat ∧ (total (cr_totals cr) < 0)%Z
  | _ => False
  end.
Proof. vm_compute. split; reflexivity. Qed.

(** ** Theorems: [PUT /api/orders/:orderId/status] *)

Lemma parse_valid_status_name (st : OrderStatus) :
  st ≠ Refunded → parse_valid_status (Some (status_name st)) = Some st.
Proof. by destruct st. Qed.

(** ["refunded"], a value of the order status enumeration, is
    rejected by the status update with 400 whatever the order: the
    handler's [validStatuses] omits it. *)
Theorem update_status_rejects_refunded (s : OrderStore) (now : Z) (orderId : string) :
  update_status s now orderId (Some "refunded") = (s, Err 400 "Invalid status").
Proof. reflexivity. Qed.

(** C8: the status update overwrites the status of the first order with
    the given identifier, whatever its current status (no transition is
    checked), stamps [updatedAt], and leaves every other field, every
    other order and the counter unchanged. *)
Theorem update_status_overwrites (s : OrderStore) (now : Z) (orderId : string)
    (st : OrderStatus) (i : nat) (o : Order) :
  st ≠ Refunded →
  list_find (λ o, o_id o = orderId) (orders s) = Some (i, o) →
  update_status s now orderId (Some (status_name st)) =
    (mkOrderStore (alter (set_status st now) i (orders s)) (orderIdCounter s),
     Ok (mkStatusUpdate orderId st now)).
Proof.
  intros Hst Hf. unfold update_status. rewrite parse_valid_status_name by done.
  pose proof (js_find_index_find (λ o, String.eqb (o_id o) orderId)
                (λ o, o_id o = orderId) (orders s) (λ x, String.eqb_eq _ _)) as H.
  rewrite Hf in H. rewrite H, bool_decide_false by lia. by rewrite Nat2Z.id.
Qed.

(** C25: the status update fails without touching the store: 400 when the
    status is missing or not in [validStatuses], checked before the order is
    looked up, and 404 when no order has the identifier. *)
Theorem update_status_errors (s : OrderStore) (now : Z) (orderId : string)
    (status : option string) :
  (parse_valid_status status = None →
   update_status s now orderId status = (s, Err 400 "Invalid status")) ∧
  (is_Some (parse_valid_status status) →
   Forall (λ o, o_id o ≠ orderId) (orders s) →
   update_status s now orderId status = (s, Err 404 "Order not found")).
Proof.
  unfold update_status. split; [by intros ->|].
  intros [st ->] Hnone.
  pose proof (js_find_index_find (λ o, String.eqb (o_id o) orderId)
                (λ o, o_id o = orderId) (orders s) (λ x, String.eqb_eq _ _)) as H.
  rewrite (proj2 (list_find_None _ _) Hnone) in H. by rewrite H.
Qed.

(** ** Theorems: tracking *)

(** the tracking events are re-derived from the current status alone:
    a shipped order shows no payment confirmation and a delivered order
    shows neither payment nor shipment, whatever its history. *)
Theorem tracking_events_by_status (o : Order) :
  map ev_status (tracking_events o) =
    match o_status o with
    | Paid | Processing => ["Order Placed"; "Payment Confirmed"]
    | Shipped => ["Order Placed"; "Shipped"]
    | Delivered => ["Order Placed"; "Delivered"]
    | Pending | Cancelled | Refunded => ["Order Placed"]
    end.
Proof. unfold tracking_events. by destruct (o_status o). Qed.

(** Tracking by number answers the first order carrying that tracking
    number, and reveals only city and country of its address. *)
Theorem get_tracking_finds (s : OrderStore) (tn : string) (i : nat) (o : Order) :
  list_find (λ o, o_trackingNumber o = Some tn) (orders s) = Some (i, o) →
  get_tracking s tn =
    Ok (mkTrackingView (o_id o) (o_orderNumber o) (o_status o) (Some tn)
          (o_estimatedDelivery o) (o_createdAt o) (sa_city (o_shippingAddress o))
          (sa_country (o_shippingAddress o)) (tracking_events o)).
Proof.
  intros Hf. apply list_find_Some in Hf as (Hl & Ho & Hbefore).
  unfold get_tracking.
  assert (find (λ o, bool_decide (o_trackingNumber o = Some tn)) (orders s) = Some o) as ->.
  { clear -Hl Ho Hbefore. revert i Hl Hbefore. induction (orders s) as [|y l IH];
      intros [|i] Hl Hbefore; simplify_eq/=.
    - by rewrite bool_decide_true.
    - rewrite bool_decide_false; [|by apply (Hbefore 0%nat); [|lia]].
      apply (IH i Hl). intros j z Hj Hji. apply (Hbefore (S j)); [done|lia]. }
  by rewrite Ho.
Qed.

(** ** Theorems: [GET /api/orders] *)

Lemma insert_by_created_desc_perm (o : Order) (l : list Order) :
  insert_by_created_desc o l ≡ₚ o :: l.
Proof.
  induction l as [|y l IH]; simpl; [done|].
  destruct (o_createdAt y <=? o_createdAt o); [done|].
  by rewrite IH, Permutation_swap.
Qed.

Lemma sort_by_created_desc_perm (l : list Order) : sort_by_created_desc l ≡ₚ l.
Proof.
  induction l as [|o l IH]; simpl; [done|].
  by rewrite insert_by_created_desc_perm, IH.
Qed.

Definition newer_first (a b : Order) : Prop := o_createdAt b ≤ o_createdAt a.

Lemma insert_by_created_desc_sorted (o : Order) (l : list Order) :
  Sorted newer_first l → Sorted newer_first (insert_by_created_desc o l).
Proof.
  induction 1 as [|y l Hs IH Hhd]; simpl; [by repeat constructor|].
  destruct (Z.leb_spec (o_createdAt y) (o_createdAt o)) as [Hle|Hgt].
  - constructor; [by constructor|]. constructor. done.
  - constructor; [done|].
    destruct l as [|z l]; simpl.
    + constructor. unfold newer_first. lia.
    + destruct (o_createdAt z <=? o_createdAt o); constructor; unfold newer_first; [lia|].
      by invc Hhd.
Qed.

Lemma sort_by_created_desc_sorted (l : list Order) : Sorted newer_first (sort_by_created_desc l).
Proof.
  induction l as [|o l IH]; simpl; [constructor|]. by apply insert_by_created_desc_sorted.
Qed.

Definition status_filter (s : OrderStore) (status : option string) : list Order :=
  if js_truthy status
  then filter (λ o, bool_decide (Some (status_name (o_status o)) = status)) (orders s)
  else orders s.

(** C18: a page of the order list has at most [limit] entries for a
    non-negative offset and limit; [count] is its length and [total] the
    number of orders matching the status filter; every entry summarizes a
    stored order with the requested status; and the entries are newest
    first. *)
Theorem list_orders_page (s : OrderStore) (status limitq offsetq : option string)
    (limit offset : Z) (p : OrderPage) :
  query_int offsetq 0 = Some offset → query_int limitq 50 = Some limit →
  0 ≤ offset → 0 ≤ limit →
  list_orders s status limitq offsetq = Ok p →
  (op_count p ≤ Z.to_nat limit)%nat ∧ op_count p = length (op_data p) ∧
  op_total p = length (status_filter s status) ∧
  (∀ x, x ∈ op_data p → ∃ o, o ∈ orders s ∧ x = summarize o ∧
          (js_truthy status = true → Some (status_name (o_status o)) = status)) ∧
  Sorted (λ a b, os_createdAt b ≤ os_createdAt a) (op_data p).
Proof.
  intros Hqo Hql Hoff Hlim Hp. unfold list_orders in Hp. rewrite Hqo, Hql in Hp.
  simpl in Hp. injection Hp as <-.
  fold (status_filter s status). simpl.
  split; [|split; [by rewrite length_map|split; [done|split]]].
  - pose proof (js_slice_length (sort_by_created_desc (status_filter s status))
                  offset (offset + limit) Hoff ltac:(lia)) as H.
    replace (offset + limit - offset) with limit in H by lia. lia.
  - intros x (o & -> & Ho)%list_elem_of_fmap.
    apply js_slice_subseteq in Ho.
    rewrite (sort_by_created_desc_perm _) in Ho.
    exists o. split; [|split; [done|]].
    + unfold status_filter in Ho. destruct (js_truthy status); [|done].
      by apply list_elem_of_filter in Ho as [_ ?].
    + intros Ht. unfold status_filter in Ho. rewrite Ht in Ho.
      by apply list_elem_of_filter in Ho as [?%bool_decide_unpack _].
  - apply (Sorted_map_mono newer_first); [by intros a b ?|].
    apply Sorted_js_slice, sort_by_created_desc_sorted.
Qed.

(** ** Sample stores *)

Definition sample_store1 : OrderStore :=
  fst (create_order initial_store 1000 (sample_request (Some "card"))).

Definition sample_store2 : OrderStore :=
  fst (create_order sample_store1 2000 (sample_request None)).

(** A negative [offset] counts from the end of the sorted list, as
    [Array.prototype.slice] does: with offset -1 the page holds the oldest
    order only. *)
Theorem list_orders_negative_offset :
  match list_orders sample_store2 None None (Some "-1") with
  | Ok p => map os_orderNumber (op_data p) = [1%N] ∧ op_total p = 2%nat
  | Err _ _ => False
  end.
Proof. vm_compute. split; reflexivity. Qed.

(** ** Witnesses *)

Lemma create_order_rejects_empty_witness :
  create_order initial_store 0
    (mkOrderRequest (Some []) (Some sample_customer) (Some sample_address) None None) =
  (initial_store, Err 400 "Invalid order items").
Proof. apply create_order_rejects_empty. right. reflexivity. Defined.

Definition bad_customer_request : OrderRequest :=
  mkOrderRequest (Some [mkCartItem None None 1 1 None])
    (Some (mkCustomerInfoIn (Some "Mona") (Some "Adel") (Some "") None))
    (Some sample_address) None None.

Lemma create_order_validation_witness :
  create_order initial_store 0 bad_customer_request =
  (initial_store, Err 400 "Invalid customer information").
Proof.
  apply (proj1 (create_order_validation initial_store 0 bad_customer_request
                  [mkCartItem None None 1 1 None] eq_refl ltac:(discriminate))).
  reflexivity.
Defined.

Lemma create_order_ok_witness :
  ∃ o, create_order initial_store 1000 (sample_request (Some "card")) =
         (mkOrderStore [o] 2, Ok (mkCreateResponse (o_id o) 1 Paid (Some PayCompleted)
                                    (Some "TRK000001") (o_estimatedDelivery o) (o_totals o))).
Proof.
  destruct (create_order_ok initial_store 1000 (sample_request (Some "card"))
              [mkCartItem (Some "1") (Some "Float") (8999 # 100) 1 None]
              eq_refl ltac:(discriminate) eq_refl eq_refl ltac:(intros _; discriminate))
    as (o & Heq & Hn & _ & Ht & _ & _ & _ & Hs & Hp).
  exists o. rewrite Heq, Hn, Ht, Hs, Hp. reflexivity.
Defined.

Definition card_number_request : OrderRequest :=
  mkOrderRequest (Some [mkCartItem None None 1 1 None]) (Some sample_customer)
    (Some sample_address) (Some "card")
    (Some (mkPaymentDetailsIn (Some (JNum 4242)) None)).

Lemma create_order_throw_consumes_counter_witness :
  create_order initial_store 0 card_number_request =
  (mkOrderStore [] 2, Err 500 "Failed to create order").
Proof.
  rewrite (create_order_throw_consumes_counter initial_store 0 card_number_request
             [mkCartItem None None 1 1 None] (mkPaymentDetailsIn (Some (JNum 4242)) None) 4242).
  all: first [reflexivity | discriminate].
Defined.

Lemma update_status_overwrites_witness :
  ∃ o, update_status sample_store1 5000 "HED-1000-1" (Some "delivered") =
       (mkOrderStore (alter (set_status Delivered 5000) 0%nat (orders sample_store1)) 2,
        Ok (mkStatusUpdate "HED-1000-1" Delivered 5000)) ∧ o_status o = Paid.
Proof.
  destruct (orders sample_store1 !! 0%nat) as [o|] eqn:Ho; [|discriminate].
  exists o. change (Some "delivered") with (Some (status_name Delivered)).
  rewrite (update_status_overwrites sample_store1 5000 "HED-1000-1" Delivered 0%nat o).
  - split; [reflexivity|]. vm_compute in Ho. by injection Ho as <-.
  - discriminate.
  - apply list_find_head; [done|]. vm_compute in Ho. by injection Ho as <-.
Defined.

Lemma update_status_errors_witness :
  update_status sample_store1 5000 "HED-1000-1" (Some "lost") =
    (sample_store1, Err 400 "Invalid status") ∧
  update_status sample_store1 5000 "HED-9-9" (Some "shipped") =
    (sample_store1, Err 404 "Order not found").
Proof.
  split.
  - apply (proj1 (update_status_errors _ _ _ _)). reflexivity.
  - apply (proj2 (update_status_errors _ _ _ _)); [by eexists|].
    vm_compute. repeat constructor; discriminate.
Defined.

Lemma get_tracking_finds_witness :
  ∃ o, get_tracking sample_store1 "TRK000001" =
    Ok (mkTrackingView (o_id o) 1 Paid (Some "TRK000001") (o_estimatedDelivery o) 1000
          "Cairo" "Egypt" (tracking_events o)).
Proof.
  destruct (orders sample_store1 !! 0%nat) as [o|] eqn:Ho; [|discriminate].
  exists o. rewrite (get_tracking_finds sample_store1 "TRK000001" 0%nat o).
  - vm_compute in Ho. by injection Ho as <-.
  - apply list_find_head; [done|]. vm_compute in Ho. by injection Ho as <-.
Defined.

Lemma list_orders_page_witness :
  ∃ p, list_orders sample_store2 None (Some "1") (Some "0") = Ok p ∧
       (op_count p ≤ Z.to_nat 1)%nat.
Proof.
  eexists. split; [reflexivity|].
  eapply (list_orders_page sample_store2 None (Some "1") (Some "0") 1 0);
    [reflexivity|reflexivity|lia|lia|reflexivity].
Defined.
