(* ===== verification/OrderSpec.v ===== *)
(** * Order store: invariant, reachable states and abstract specification

    The store of [src/backend/routes/orders.js] evolves only through the
    create and status-update handlers.  This file states the invariant
    they keep (order numbers strictly increasing and below the counter,
    identifiers and tracking numbers derived from the order number), proves
    it for every reachable store by induction on the steps, derives the
    uniqueness and immutability of tracking numbers, and shows that the
    array refines a finite map from order identifier to order. *)

From S2P Require Import Prelude JsString Money Pricing Orders.
From Stdlib Require Import Sorted Ascii.
Local Open Scope Z_scope.

(** ** Reachable stores *)

(** The handlers that change the store.  The read-only handlers
    ([get_order], [get_tracking], [list_orders]) take no step. *)
Inductive order_step : OrderStore → OrderStore → Prop :=
| step_create s s' now req r :
    create_order s now req = (s', r) → order_step s s'
| step_update s s' now orderId status r :
    update_status s now orderId status = (s', r) → order_step s s'.

Definition reachable (s : OrderStore) : Prop := rtc order_step initial_store s.

(** ** Invariant *)

(** The fields of an order the handlers never change after creation. *)
Definition order_key (o : Order) : N * string * option string * Z :=
  (o_orderNumber o, o_id o, o_trackingNumber o, o_createdAt o).

Definition key_wf (counter : N) (k : N * string * option string * Z) : Prop :=
  let '(n, id, tn, created) := k in
  (1 ≤ n < counter)%N ∧ tn = Some (tracking_number n) ∧
  id = fst (generateOrderId created n).

Definition store_wf (s : OrderStore) : Prop :=
  (1 ≤ orderIdCounter s)%N ∧
  Forall (key_wf (orderIdCounter s)) (map order_key (orders s)) ∧
  StronglySorted (λ a b, o_orderNumber a < o_orderNumber b)%N (orders s).

(** [TRK] followed by the decimal digits. *)
Definition parse_tracking (s : string) : option N :=
  match s with
  | String "T" (String "R" (String "K" r)) => parse_N r
  | _ => None
  end.

(** ** Lemmas *)

Lemma parse_tracking_number (n : N) : parse_tracking (tracking_number n) = Some n.
Proof.
  unfold tracking_number.
  change (parse_tracking ("TRK" +:+ pad_start (n_to_string n) 6 "0"))
    with (parse_N (pad_start (n_to_string n) 6 "0")).
  by rewrite parse_N_pad_start, parse_N_n_to_string.
Qed.

Lemma tracking_number_inj : Inj eq eq tracking_number.
Proof.
  intros n m H. pose proof (parse_tracking_number n) as Hn.
  by rewrite H, parse_tracking_number in Hn; injection Hn.
Qed.

Lemma order_id_number_inj (t t' : Z) (n n' : N) :
  fst (generateOrderId t n) = fst (generateOrderId t' n') → n = n'.
Proof.
  simpl. rewrite !(str_app_assoc "HED-"). intros H.
  apply (app_sep_suffix_inj "-") in H as [_ H]; try apply n_to_string_no_dash.
  by apply n_to_string_inj.
Qed.

Lemma StronglySorted_NoDup_map {A B} (R : B → B → Prop) (f : A → B) (l : list A) :
  (∀ x, ¬ R x x) → StronglySorted (λ a b, R (f a) (f b)) l → NoDup (map f l).
Proof.
  intros Hirr Hs. induction Hs as [|x l Hs IH Hall]; simpl; constructor; [|done].
  intros (y & Hy & Hyl)%list_elem_of_fmap. rewrite Forall_forall in Hall.
  specialize (Hall y Hyl). rewrite Hy in Hall. by apply (Hirr (f y)).
Qed.

Lemma set_status_key (st : OrderStatus) (now : Z) (o : Order) :
  order_key (set_status st now o) = order_key o.
Proof. done. Qed.

Lemma map_alter_key {A B} (k : A → B) (f : A → A) (i : nat) (l : list A) :
  (∀ x, k (f x) = k x) → map k (alter f i l) = map k l.
Proof.
  intros Hk. revert i. induction l as [|x l IH]; intros [|i]; simpl; [done..| |].
  - by rewrite Hk.
  - f_equal. apply IH.
Qed.

Lemma StronglySorted_alter {A} (R : A → A → Prop) (f : A → A) (i : nat) (l : list A) :
  (∀ x y, R (f x) y ↔ R x y) → (∀ x y, R x (f y) ↔ R x y) →
  StronglySorted R l → StronglySorted R (alter f i l).
Proof.
  intros Hl Hr Hs. revert i. induction Hs as [|x l Hs IH Hall]; intros [|i]; simpl;
    constructor; auto.
  - eapply Forall_impl; [done|]. intros y. apply Hl.
  - apply IH.
  - change (list_alter f i l) with (alter f i l).
    rewrite Forall_forall in Hall |- *. intros y Hy.
    apply list_elem_of_lookup in Hy as [j Hj].
    destruct (decide (i = j)) as [->|Hne].
    + rewrite list_lookup_alter, decide_True in Hj by done.
      destruct (l !! j) as [z|] eqn:Ez; simplify_eq/=. apply Hr.
      apply Hall, list_elem_of_lookup. eauto.
    + rewrite list_lookup_alter, decide_False in Hj by done.
      apply Hall, list_elem_of_lookup. eauto.
Qed.

Lemma key_wf_mono (c c' : N) k : (c ≤ c')%N → key_wf c k → key_wf c' k.
Proof. destruct k as [[[n id] tn] t]. intros ? (? & ? & ?). split_and!; auto; lia. Qed.

Lemma StronglySorted_snoc {A} (R : A → A → Prop) (l : list A) (x : A) :
  StronglySorted R l → Forall (λ y, R y x) l → StronglySorted R (l ++ [x]).
Proof.
  induction 1 as [|y l Hs IH Hall]; intros Hx; simpl.
  - repeat constructor.
  - apply Forall_cons in Hx as [Hyx Hx]. constructor; [by apply IH|].
    apply Forall_app. split; [done|]. by constructor.
Qed.

(** Every outcome of the create handler: the store is unchanged, or only
    the counter moved (the 500 path), or one well-formed order numbered
    with the old counter was appended and the counter moved. *)
Lemma create_order_cases (s s' : OrderStore) (now : Z) (req : OrderRequest) r :
  (1 ≤ orderIdCounter s)%N →
  create_order s now req = (s', r) →
  s' = s ∨ s' = mkOrderStore (orders s) (orderIdCounter s + 1) ∨
  ∃ o, s' = mkOrderStore (orders s ++ [o]) (orderIdCounter s + 1) ∧
       o_orderNumber o = orderIdCounter s ∧
       key_wf (orderIdCounter s + 1) (order_key o).
Proof.
  intros Hc. unfold create_order, generateOrderId.
  repeat case_match; intros; simplify_eq; auto; right; right;
    (eexists; split; [reflexivity|]); simpl; autorewrite with hedeya_rw;
    (split; [done|]); split_and!; auto; lia.
Qed.

Lemma create_order_wf (s s' : OrderStore) (now : Z) (req : OrderRequest) r :
  store_wf s → create_order s now req = (s', r) → store_wf s'.
Proof.
  intros (Hc & Hk & Hs) Hcr.
  destruct (create_order_cases s s' now req r Hc Hcr) as [-> | [-> | (o & -> & Hn & Ho)]];
    [done| |]; unfold store_wf; simpl.
  - split_and!; [lia| |done]. eapply Forall_impl; [done|]. intros k. apply key_wf_mono. lia.
  - split_and!; [lia| |].
    + rewrite map_app. apply Forall_app. split; [|by apply Forall_singleton].
      eapply Forall_impl; [done|]. intros k. apply key_wf_mono. lia.
    + apply StronglySorted_snoc; [done|]. rewrite Hn.
      rewrite Forall_map in Hk. apply (Forall_impl _ _ _ Hk).
      intros y. unfold key_wf, order_key. lia.
Qed.

Lemma update_status_wf (s s' : OrderStore) (now : Z) (orderId : string) status r :
  store_wf s → update_status s now orderId status = (s', r) → store_wf s'.
Proof.
  intros (Hc & Hk & Hs). unfold update_status. repeat case_match; intros; simplify_eq; try done.
  unfold store_wf; simpl. rewrite map_alter_key by apply set_status_key.
  split_and!; [done|done|]. by apply StronglySorted_alter.
Qed.

Lemma initial_store_wf : store_wf initial_store.
Proof. unfold store_wf. simpl. split_and!; [lia|constructor|constructor]. Qed.

Lemma order_step_wf (s s' : OrderStore) : order_step s s' → store_wf s → store_wf s'.
Proof. destruct 1; eauto using create_order_wf, update_status_wf. Qed.

Lemma steps_wf (s s' : OrderStore) : rtc order_step s s' → store_wf s → store_wf s'.
Proof. induction 1; eauto using order_step_wf. Qed.

(** ** Theorems *)

(** C2: every store reachable from the initial one by the create and
    status-update handlers is well formed: the counter is positive, order
    numbers are strictly increasing along the array and below the counter,
    and each order's tracking number and identifier are derived from its
    order number. *)
Theorem reachable_store_wf (s : OrderStore) : reachable s → store_wf s.
Proof. intros Hr. exact (steps_wf _ _ Hr initial_store_wf). Qed.

Lemma store_wf_tracking (s : OrderStore) :
  store_wf s → map o_trackingNumber (orders s) =
               map (λ o, Some (tracking_number (o_orderNumber o))) (orders s).
Proof.
  intros (_ & Hk & _). rewrite Forall_map in Hk. induction Hk as [|o l [_ [Ht _]] _ IH];
    simpl; [done|]. by rewrite Ht, IH.
Qed.

Lemma store_wf_ids (s : OrderStore) :
  store_wf s → map o_id (orders s) =
               map (λ o, fst (generateOrderId (o_createdAt o) (o_orderNumber o))) (orders s).
Proof.
  intros (_ & Hk & _). rewrite Forall_map in Hk. induction Hk as [|o l [_ [_ Hi]] _ IH];
    simpl; [done|]. by rewrite Hi, IH.
Qed.

Lemma store_wf_numbers_nodup (s : OrderStore) :
  store_wf s → NoDup (map o_orderNumber (orders s)).
Proof.
  intros (_ & _ & Hs). apply (StronglySorted_NoDup_map N.lt); [intros x; lia|done].
Qed.

(** C1: in every reachable store no two orders share a tracking number or
    an identifier, and every order has a tracking number. *)
Theorem reachable_tracking_unique (s : OrderStore) :
  reachable s →
  NoDup (map o_trackingNumber (orders s)) ∧ NoDup (map o_id (orders s)) ∧
  Forall (λ o, is_Some (o_trackingNumber o)) (orders s).
Proof.
  intros Hr. pose proof (reachable_store_wf s Hr) as Hwf.
  pose proof (store_wf_numbers_nodup s Hwf) as Hn. split_and!.
  - rewrite store_wf_tracking by done.
    rewrite <- (map_map o_orderNumber (λ n, Some (tracking_number n))).
    apply NoDup_fmap_2_strong; [|done].
    intros n m _ _ Heq. apply tracking_number_inj. congruence.
  - rewrite store_wf_ids by done.
    apply (NoDup_fmap_2_strong _); [|by apply (NoDup_fmap_1 o_orderNumber)].
    intros o1 o2 H1 H2 Heq%order_id_number_inj.
    by apply (NoDup_map_inj_on o_orderNumber (orders s)).
  - destruct Hwf as (_ & Hk & _). rewrite Forall_map in Hk.
    eapply Forall_impl; [done|]. intros o (_ & -> & _). by eexists.
Qed.

(** C7: orders are never removed and the fields fixed at creation (order
    number, identifier, tracking number, creation time) never change: after
    any handler step from a reachable store, the old orders' keys are a
    prefix of the new ones. *)
Theorem order_keys_immutable (s s' : OrderStore) :
  reachable s → order_step s s' → map order_key (orders s) `prefix_of` map order_key (orders s').
Proof.
  intros Hr Hstep. destruct (reachable_store_wf s Hr) as (Hc & _ & _).
  destruct Hstep as [s s' now req r Hcr | s s' now orderId status r Hu].
  - destruct (create_order_cases s s' now req r Hc Hcr) as [-> | [-> | (o & -> & _)]];
      simpl; [done|done|]. rewrite map_app. by eexists.
  - revert Hu. unfold update_status. repeat case_match; intros; simplify_eq; try done.
    simpl. by rewrite map_alter_key by apply set_status_key.
Qed.

(** ** Abstract specification: a finite map from order identifier *)

(** The array seen as a map; [list_to_map] keeps the first entry of a key,
    as [Array.prototype.find] does. *)
Definition abs_orders (s : OrderStore) : gmap string Order :=
  list_to_map ((λ o, (o_id o, o)) <$> orders s).

Lemma get_order_abs (s : OrderStore) (orderId : string) :
  get_order s orderId =
    match abs_orders s !! orderId with Some o => Ok o | None => Err 404 "Order not found" end.
Proof.
  unfold get_order, abs_orders. induction (orders s) as [|o l IH]; simpl; [done|].
  rewrite lookup_insert. destruct (String.eqb_spec (o_id o) orderId).
  - by rewrite decide_True.
  - by rewrite decide_False.
Qed.

Lemma list_to_map_snoc (l : list Order) (o : Order) :
  o_id o ∉ o_id <$> l →
  list_to_map ((λ o, (o_id o, o)) <$> l ++ [o]) =
    <[o_id o := o]> (list_to_map ((λ o, (o_id o, o)) <$> l) : gmap string Order).
Proof.
  induction l as [|x l IH]; intros Hni; [done|].
  rewrite fmap_cons in Hni. apply not_elem_of_cons in Hni as [Hne Hni].
  rewrite <- app_comm_cons, !fmap_cons, !list_to_map_cons, IH by done.
  by rewrite insert_insert_ne.
Qed.

Lemma list_to_map_alter (f : Order → Order) (orderId : string) (l : list Order)
    (i : nat) (o : Order) :
  (∀ x, o_id (f x) = o_id x) →
  list_find (λ o, o_id o = orderId) l = Some (i, o) →
  list_to_map ((λ o, (o_id o, o)) <$> alter f i l) =
    alter f orderId (list_to_map ((λ o, (o_id o, o)) <$> l) : gmap string Order).
Proof.
  intros Hf. revert i. induction l as [|x l IH]; intros i Hfind; simpl in *; [done|].
  destruct (decide (o_id x = orderId)) as [<-|Hne].
  - simplify_eq/=. rewrite Hf. by rewrite alter_insert_eq.
  - destruct (list_find _ l) as [[j y]|] eqn:E; simplify_eq/=.
    rewrite alter_insert_ne by congruence. f_equal. by apply (IH j).
Qed.

Lemma create_order_ok_inv (s s' : OrderStore) (now : Z) (req : OrderRequest) cr :
  create_order s now req = (s', Ok cr) →
  ∃ o, s' = mkOrderStore (orders s ++ [o]) (orderIdCounter s + 1) ∧
       cr_orderId cr = o_id o ∧ o_id o = fst (generateOrderId now (orderIdCounter s)).
Proof.
  unfold create_order, generateOrderId.
  repeat case_match; intros; simplify_eq; eexists; (split; [reflexivity|]); done.
Qed.

Lemma fresh_order_id (s : OrderStore) (now : Z) :
  store_wf s → fst (generateOrderId now (orderIdCounter s)) ∉ o_id <$> orders s.
Proof.
  intros (_ & Hk & _) (o & Heq & Ho)%list_elem_of_fmap.
  rewrite Forall_map, Forall_forall in Hk. destruct (Hk o Ho) as (Hn & _ & Hid).
  rewrite Hid in Heq. apply order_id_number_inj in Heq. lia.
Qed.

(** C5: the order array refines a finite map from identifier to order:
    lookup by identifier is map lookup, a successful status update is
    [alter] at that key, and a successful creation inserts the new order
    under a key that was free. *)
Theorem order_store_refines_map (s : OrderStore) :
  reachable s →
  (∀ orderId, get_order s orderId =
     match abs_orders s !! orderId with Some o => Ok o | None => Err 404 "Order not found" end) ∧
  (∀ now orderId status s' u,
     update_status s now orderId status = (s', Ok u) →
     abs_orders s' = alter (set_status (su_newStatus u) now) orderId (abs_orders s)) ∧
  (∀ now req s' cr,
     create_order s now req = (s', Ok cr) →
     abs_orders s !! cr_orderId cr = None ∧
     ∃ o, abs_orders s' = <[cr_orderId cr := o]> (abs_orders s)).
Proof.
  intros Hr. pose proof (reachable_store_wf s Hr) as Hwf. split_and!.
  - apply get_order_abs.
  - intros now orderId status s' u. unfold update_status.
    destruct (parse_valid_status status) as [st|]; [|done].
    pose proof (js_find_index_find (λ o, String.eqb (o_id o) orderId)
                  (λ o, o_id o = orderId) (orders s) (λ x, String.eqb_eq _ _)) as H.
    destruct (list_find _ (orders s)) as [[i o]|] eqn:Hf; rewrite H;
      [|by rewrite bool_decide_true].
    rewrite bool_decide_false by lia. intros; simplify_eq/=.
    unfold abs_orders. simpl. rewrite Nat2Z.id. by apply (list_to_map_alter _ _ _ _ o).
  - intros now req s' cr (o & -> & Hcr & Hid)%create_order_ok_inv.
    pose proof (fresh_order_id s now Hwf) as Hfresh. rewrite <- Hid in Hfresh.
    rewrite Hcr. split.
    + unfold abs_orders. apply not_elem_of_list_to_map. by rewrite <- list_fmap_compose.
    + exists o. unfold abs_orders. simpl. by apply list_to_map_snoc.
Qed.

(** ** Witnesses *)

Lemma step_sample1 : order_step initial_store sample_store1.
Proof.
  apply (step_create _ _ 1000 (sample_request (Some "card"))
           (snd (create_order initial_store 1000 (sample_request (Some "card"))))).
  apply surjective_pairing.
Qed.

Lemma step_sample2 : order_step sample_store1 sample_store2.
Proof.
  apply (step_create _ _ 2000 (sample_request None)
           (snd (create_order sample_store1 2000 (sample_request None)))).
  apply surjective_pairing.
Qed.

Lemma reachable_sample1 : reachable sample_store1.
Proof. apply rtc_once, step_sample1. Qed.

Lemma reachable_sample2 : reachable sample_store2.
Proof. eapply rtc_r; [apply reachable_sample1|apply step_sample2]. Qed.

Lemma reachable_store_wf_witness : reachable sample_store2 ∧ store_wf sample_store2.
Proof. split; [apply reachable_sample2|]. apply reachable_store_wf, reachable_sample2. Defined.

Lemma reachable_tracking_unique_witness :
  reachable sample_store2 ∧ NoDup (map o_trackingNumber (orders sample_store2)).
Proof.
  split; [apply reachable_sample2|]. apply (reachable_tracking_unique _ reachable_sample2).
Defined.

Lemma order_keys_immutable_witness :
  map order_key (orders sample_store1) `prefix_of` map order_key (orders sample_store2).
Proof. apply order_keys_immutable; [apply reachable_sample1|apply step_sample2]. Defined.

Lemma order_store_refines_map_witness :
  get_order sample_store2 "HED-2000-2" =
    match abs_orders sample_store2 !! "HED-2000-2" with
    | Some o => Ok o | None => Err 404 "Order not found" end.
Proof. apply (order_store_refines_map _ reachable_sample2). Defined.
