(* ===== verification/Catalog.v ===== *)
(** * Catalog query service

    The product routes of [src/backend/routes/products.js] over the
    [products] table declared in [src/backend/models/Product.js], and the
    seeding of that table by [seedDatabase] in [src/backend/models/index.js].
    The table is a finite map from primary key to row.  A Sequelize query
    [findAndCountAll({where, limit, offset, order: [['createdAt','DESC']]})]
    is modelled by its SQL meaning: filter the rows by the where clause,
    order them newest first, skip [offset] rows and keep [limit]; the count
    is the number of rows the where clause selects.  Rows with equal
    [createdAt] come back in an order the database does not specify; the
    model fixes one, and no theorem depends on it.  PostgreSQL refuses a
    [category] or [ageGroup] value outside its [ENUM] type, which the route
    answers with 500.  The stock route's [quantity] is a JSON integer: a
    string or a fractional number in the body is not modelled.  Its write,
    [product.update], saves only the fields whose new value differs from
    the instance it read. *)

From S2P Require Import Prelude JsString.
From Stdlib Require Import QArith Sorted.
Local Open Scope Z_scope.

(** ** Data *)

(** [category: DataTypes.ENUM(...)]. *)
Inductive Category :=
| EducationalToys | MotherEssential | NewBornEssential | ArtToys
| BabyCareHygiene | SleepComfort.

Definition category_name (c : Category) : string :=
  match c with
  | EducationalToys => "educational-toys" | MotherEssential => "mother-essential"
  | NewBornEssential => "new-born-essential" | ArtToys => "art-toys"
  | BabyCareHygiene => "baby-care-hygiene" | SleepComfort => "sleep-comfort"
  end.

Definition all_categories : list Category :=
  [EducationalToys; MotherEssential; NewBornEssential; ArtToys; BabyCareHygiene; SleepComfort].

(** [ageGroup: DataTypes.ENUM(...)]. *)
Inductive AgeGroup :=
| Months0_12 | Years1_2 | Years3_5 | Years6_8 | Years9_12 | Years13Plus | Adult.

Definition age_group_name (a : AgeGroup) : string :=
  match a with
  | Months0_12 => "0-12 months" | Years1_2 => "1-2 years" | Years3_5 => "3-5 years"
  | Years6_8 => "6-8 years" | Years9_12 => "9-12 years" | Years13Plus => "13+ years"
  | Adult => "adult"
  end.

Definition all_age_groups : list AgeGroup :=
  [Months0_12; Years1_2; Years3_5; Years6_8; Years9_12; Years13Plus; Adult].

(** A row of [products].  [DECIMAL(10,2)] prices are integer cents and the
    [DECIMAL(2,1)] rating is in tenths; the JSON columns ([images],
    [features], [dimensions], [tags]) and [weight] are not used by any
    route and are left out. *)
Record Product := mkProduct {
  p_id : N;
  p_name : string;
  p_description : option string;
  p_price : Z;
  p_originalPrice : option Z;
  p_category : Category;
  p_ageGroup : AgeGroup;
  p_image : option string;
  p_stockQuantity : Z;
  p_inStock : bool;
  p_rating : Z;
  p_reviewCount : Z;
  p_isActive : bool;
  p_isFeatured : bool;
  p_createdAt : Z
}.

(** The column validators of the model: [name] non-empty of length 2 to
    200, [price], [originalPrice], [stockQuantity], [reviewCount] at least
    0, [rating] between 0 and 5. *)
Definition product_valid (p : Product) : bool :=
  (2 <=? String.length (p_name p))%nat && (String.length (p_name p) <=? 200)%nat &&
  (0 <=? p_price p) && (match p_originalPrice p with Some o => 0 <=? o | None => true end) &&
  (0 <=? p_stockQuantity p) && (0 <=? p_rating p) && (p_rating p <=? 50) &&
  (0 <=? p_reviewCount p).

(** The table, keyed by the auto-incremented primary key. *)
Abbreviation ProductTable := (gmap N Product).

(** ** [GET /api/products]: the where clause *)

(** The query string.  A price bound is [Some v] when its parameter is a
    non-empty string that [parseFloat] reads as [v]; [limit] and [offset]
    are the raw strings, read with [parseInt] (defaults 50 and 0). *)
Record ProductQuery := mkProductQuery {
  q_category : option string;
  q_ageGroup : option string;
  q_minPrice : option Q;
  q_maxPrice : option Q;
  q_inStock : option string;
  q_limit : option string;
  q_offset : option string
}.

(** The [whereClause] object built by the handler. *)
Record WhereClause := mkWhereClause {
  w_isActive : bool;
  w_category : option string;
  w_ageGroup : option string;
  w_priceGte : option Q;
  w_priceLte : option Q;
  w_inStock : option bool;
  w_stockGt : option Z
}.

Definition build_where (q : ProductQuery) : WhereClause :=
  let inStock := bool_decide (q_inStock q = Some "true") in
  mkWhereClause true
    (if js_truthy (q_category q) then q_category q else None)
    (if js_truthy (q_ageGroup q) then q_ageGroup q else None)
    (q_minPrice q) (q_maxPrice q)
    (if inStock then Some true else None)
    (if inStock then Some 0 else None).

(** The SQL meaning of the where clause on one row. *)
Definition where_matches (w : WhereClause) (p : Product) : bool :=
  Bool.eqb (p_isActive p) (w_isActive w) &&
  (match w_category w with Some c => String.eqb (category_name (p_category p)) c | None => true end) &&
  (match w_ageGroup w with Some a => String.eqb (age_group_name (p_ageGroup p)) a | None => true end) &&
  (match w_priceGte w with Some v => Qle_bool v (p_price p # 100) | None => true end) &&
  (match w_priceLte w with Some v => Qle_bool (p_price p # 100) v | None => true end) &&
  (match w_inStock w with Some b => Bool.eqb (p_inStock p) b | None => true end) &&
  (match w_stockGt w with Some n => n <? p_stockQuantity p | None => true end).

(** [ORDER BY "createdAt" DESC] as an insertion sort. *)
Fixpoint insert_by_created (p : Product) (l : list Product) : list Product :=
  match l with
  | [] => [p]
  | p' :: l' => if p_createdAt p' <=? p_createdAt p then p :: l else p' :: insert_by_created p l'
  end.

Definition sort_newest_first (l : list Product) : list Product :=
  foldr insert_by_created [] l.

Record ProductPage := mkProductPage {
  pp_count : nat; pp_total : nat; pp_data : list Product
}.

(** The [category] and [ageGroup] columns are PostgreSQL [ENUM] types: a
    compared value outside the type is an [invalid input value for enum]
    error, not an empty result. *)
Definition where_enums_ok (w : WhereClause) : bool :=
  match w_category w with
  | Some c => existsb (λ k, String.eqb (category_name k) c) all_categories
  | None => true
  end &&
  match w_ageGroup w with
  | Some a => existsb (λ g, String.eqb (age_group_name g) a) all_age_groups
  | None => true
  end.

(** [Model.findAndCountAll]: PostgreSQL refuses a negative or [NaN]
    ([None]) [LIMIT] or [OFFSET] and an enumeration value outside its
    type, which the handler reports as 500. *)
Definition findAndCountAll (t : ProductTable) (w : WhereClause) (limitq offsetq : option Z)
    (err : string) : result ProductPage :=
  match limitq, offsetq with
  | Some limit, Some offset =>
  if (limit <? 0) || (offset <? 0) || negb (where_enums_ok w) then Err 500 err
  else
    let rows := filter (λ p, where_matches w p) (map snd (map_to_list t)) in
    let page := take (Z.to_nat limit) (drop (Z.to_nat offset) (sort_newest_first rows)) in
    Ok (mkProductPage (length page) (length rows) page)
  | _, _ => Err 500 err
  end.

Definition list_products (t : ProductTable) (q : ProductQuery) : result ProductPage :=
  findAndCountAll t (build_where q) (query_int (q_limit q) 50) (query_int (q_offset q) 0)
    "Failed to fetch products".

(** [GET /api/products/category/:category] and [GET /api/products/age/:ageGroup]. *)
Definition products_by_category (t : ProductTable) (category : string) (limit offset : option string)
    : result ProductPage :=
  findAndCountAll t (mkWhereClause true (Some category) None None None None None)
    (query_int limit 50) (query_int offset 0) "Failed to fetch products by category".

Definition products_by_age (t : ProductTable) (ageGroup : string) (limit offset : option string)
    : result ProductPage :=
  findAndCountAll t (mkWhereClause true None (Some ageGroup) None None None None)
    (query_int limit 50) (query_int offset 0) "Failed to fetch products by age group".

(** ** [GET /api/products/:id]

    [Product.findByPk(id, {where: {isActive: true}})]: [findByPk] replaces
    the [where] option by the primary-key condition, so the [isActive]
    filter has no effect. *)
Definition findByPk (t : ProductTable) (id : N) : option Product := t !! id.

Definition get_product (t : ProductTable) (id : N) : result Product :=
  match findByPk t id with
  | Some p => Ok p
  | None => Err 404 "Product not found"
  end.

(** The handler from its raw parameter: [parseInt(req.params.id)]; a
    [NaN] reaches PostgreSQL as [WHERE id = 'NaN'], which an integer
    column refuses (500); a negative id selects no row. *)
Definition get_product_param (t : ProductTable) (raw : string) : result Product :=
  match js_parseInt raw with
  | None => Err 500 "Failed to fetch product"
  | Some z => if z <? 0 then Err 404 "Product not found" else get_product t (Z.to_N z)
  end.

(** ** [POST /api/products/:id/stock] *)

Record StockUpdate := mkStockUpdate {
  su_productId : N; su_newStock : Z; su_inStock : bool
}.

(** [product.update({stockQuantity, inStock})]. *)
Definition set_stock (newStock : Z) (p : Product) : Product :=
  mkProduct (p_id p) (p_name p) (p_description p) (p_price p) (p_originalPrice p)
    (p_category p) (p_ageGroup p) (p_image p) newStock (bool_decide (0 < newStock))
    (p_rating p) (p_reviewCount p) (p_isActive p) (p_isFeatured p) (p_createdAt p).

(** [quantity] is the body's number ([None] when absent); [!quantity]
    also rejects [0]. *)
Definition update_stock (t : ProductTable) (id : N) (quantity : option Z)
    : ProductTable * result StockUpdate :=
  match quantity with
  | None | Some 0 => (t, Err 400 "Invalid quantity")
  | Some q =>
      match findByPk t id with
      | None => (t, Err 404 "Product not found")
      | Some p =>
          let newStock := Z.max 0 (p_stockQuantity p - q) in
          (<[id := set_stock newStock p]> t,
           Ok (mkStockUpdate id newStock (bool_decide (0 < newStock))))
      end
  end.

(** ** [seedDatabase] *)

(** One element of the seed array; the columns it omits take their
    defaults ([isActive] true, [isFeatured] false). *)
Definition seed_row (name desc : string) (price orig : Z) (cat : Category) (age : AgeGroup)
    (stock : Z) (rating reviews : Z) (featured : bool) (id : N) (now : Z) : Product :=
  mkProduct id name (Some desc) price (Some orig) cat age (Some "/api/placeholder/400/400")
    stock true rating reviews true featured now.

Definition seed_rows : list (N → Z → Product) := [
  seed_row "Mambobaby Float"
    "Safe and comfortable baby float for water activities. Made with premium materials and designed for maximum safety."
    8999 12999 BabyCareHygiene Months0_12 25 48 156 true;
  seed_row "Educational Building Blocks"
    "Colorful building blocks to enhance creativity and motor skills development."
    3499 4999 EducationalToys Years1_2 40 46 89 true;
  seed_row "Organic Baby Blanket"
    "Soft and warm organic cotton blanket perfect for newborns and babies."
    4599 6599 SleepComfort Months0_12 30 49 203 true;
  seed_row "Art Supply Set"
    "Complete art supply set to encourage creativity and artistic expression."
    2999 3999 ArtToys Years3_5 35 47 124 false;
  seed_row "Baby Care Gift Set"
    "Complete baby care set with all essentials for new parents."
    7999 9999 BabyCareHygiene Months0_12 20 48 167 false;
  seed_row "Mother Essential Kit"
    "Comprehensive care package for new mothers with premium products."
    12499 15999 MotherEssential Adult 15 49 98 false
].

(** [Product.bulkCreate(products)] with primary keys drawn from the
    table's sequence, starting at [next_id]. *)
Fixpoint bulk_create (t : ProductTable) (rows : list (N → Z → Product)) (next_id : N) (now : Z)
    : ProductTable :=
  match rows with
  | [] => t
  | r :: rows' => bulk_create (<[next_id := r next_id now]> t) rows' (next_id + 1) now
  end.

(** [if (productCount > 0) return;] then the bulk insert. *)
Definition seedDatabase (t : ProductTable) (next_id : N) (now : Z) : ProductTable :=
  if (0 <? size t)%nat then t else bulk_create t seed_rows next_id now.

(** ** Interleaved stock requests

    The stock handler makes two database round trips, [findByPk] (line
    172) and [product.update] (line 184), with no transaction around them;
    another request may run in between.  A request in flight is a thread
    of its own: ready, having read the row, or answered.  [product.update]
    sets the two fields on the instance read and saves only those whose
    value differs from the instance's ([changed()]), into the row as it
    is when the write runs ([UPDATE ... SET <changed> WHERE id = ?]); a
    write that changes nothing sends no query. *)
(** The row after [product.update({stockQuantity, inStock})] on the
    instance [p], saved into the current row [r]. *)
Definition save_changed (p : Product) (newStock : Z) (r : Product) : Product :=
  let newIn := bool_decide (0 < newStock) in
  mkProduct (p_id r) (p_name r) (p_description r) (p_price r) (p_originalPrice r)
    (p_category r) (p_ageGroup r) (p_image r)
    (if bool_decide (newStock = p_stockQuantity p) then p_stockQuantity r else newStock)
    (if bool_decide (newIn = p_inStock p) then p_inStock r else newIn)
    (p_rating r) (p_reviewCount r) (p_isActive r) (p_isFeatured r) (p_createdAt r).

Inductive StockThread :=
| StReady (id : N) (quantity : option Z)
| StRead (id : N) (quantity : Z) (p : Product)
| StDone (r : result StockUpdate).

Definition stock_step (t : ProductTable) (th : StockThread) : ProductTable * StockThread :=
  match th with
  | StReady id quantity =>
      match quantity with
      | None | Some 0 => (t, StDone (Err 400 "Invalid quantity"))
      | Some q =>
          match findByPk t id with
          | None => (t, StDone (Err 404 "Product not found"))
          | Some p => (t, StRead id q p)
          end
      end
  | StRead id q p =>
      let newStock := Z.max 0 (p_stockQuantity p - q) in
      (alter (save_changed p newStock) id t,
       StDone (Ok (mkStockUpdate id newStock (bool_decide (0 < newStock)))))
  | StDone _ => (t, th)
  end.

(** Run the threads by a schedule: each entry names the thread that takes
    its next step. *)
Fixpoint run_schedule (t : ProductTable) (ths : list StockThread) (sched : list nat)
    : ProductTable * list StockThread :=
  match sched with
  | [] => (t, ths)
  | i :: sched' =>
      match ths !! i with
      | Some th => let '(t', th') := stock_step t th in run_schedule t' (<[i := th']> ths) sched'
      | None => run_schedule t ths sched'
      end
  end.

(** ** Sample tables *)

Definition sample_now : Z := 1700000000000.

(** The table [seedDatabase] produces on an empty database. *)
Definition seeded_catalog : ProductTable := seedDatabase ∅ 1 sample_now.

(** A product withdrawn from sale. *)
Definition retired_product : Product :=
  mkProduct 7 "Retired Rattle" None 1999 None ArtToys Months0_12 None 0 false 40 12 false false 5.

Definition catalog_with_retired : ProductTable := <[7%N := retired_product]> seeded_catalog.

(** [?category=baby-care-hygiene&inStock=true&limit=1]. *)
Definition sample_query : ProductQuery :=
  mkProductQuery (Some "baby-care-hygiene") None None (Some (inject_Z 100)) (Some "true") (Some "1") None.

Definition sample_page : ProductPage :=
  match list_products seeded_catalog sample_query with
  | Ok pg => pg | Err _ _ => mkProductPage 0 0 []
  end.

(** ** Invariant *)


(** ** Lemmas *)

Lemma set_stock_wf (n : Z) (p : Product) :
  0 ≤ n → 0 ≤ p_stockQuantity (set_stock n p) ∧
  p_inStock (set_stock n p) = bool_decide (0 < p_stockQuantity (set_stock n p)).
Proof. done. Qed.

Lemma insert_by_created_perm (p : Product) (l : list Product) :
  insert_by_created p l ≡ₚ p :: l.
Proof.
  induction l as [|y l IH]; simpl; [done|].
  destruct (p_createdAt y <=? p_createdAt p); [done|]. by rewrite IH, Permutation_swap.
Qed.

Lemma sort_newest_first_perm (l : list Product) : sort_newest_first l ≡ₚ l.
Proof. induction l as [|p l IH]; simpl; [done|]. by rewrite insert_by_created_perm, IH. Qed.

Lemma insert_by_created_sorted (p : Product) (l : list Product) :
  Sorted (λ a b, p_createdAt b ≤ p_createdAt a) l →
  Sorted (λ a b, p_createdAt b ≤ p_createdAt a) (insert_by_created p l).
Proof.
  induction 1 as [|y l Hs IH Hhd]; simpl; [by repeat constructor|].
  destruct (Z.leb_spec (p_createdAt y) (p_createdAt p)).
  - by repeat constructor.
  - constructor; [done|]. destruct l as [|z l]; simpl; [constructor; lia|].
    destruct (p_createdAt z <=? p_createdAt p); constructor; [lia|]. by invc Hhd.
Qed.

Lemma sort_newest_first_sorted (l : list Product) :
  Sorted (λ a b, p_createdAt b ≤ p_createdAt a) (sort_newest_first l).
Proof. induction l; simpl; [constructor|]. by apply insert_by_created_sorted. Qed.

Lemma where_matches_spec (w : WhereClause) (p : Product) :
  where_matches w p = true →
  p_isActive p = w_isActive w ∧
  (∀ c, w_category w = Some c → category_name (p_category p) = c) ∧
  (∀ a, w_ageGroup w = Some a → age_group_name (p_ageGroup p) = a) ∧
  (∀ v, w_priceGte w = Some v → (v <= p_price p # 100)%Q) ∧
  (∀ v, w_priceLte w = Some v → (p_price p # 100 <= v)%Q) ∧
  (∀ b, w_inStock w = Some b → p_inStock p = b) ∧
  (∀ n, w_stockGt w = Some n → n < p_stockQuantity p).
Proof.
  unfold where_matches. intros H. repeat (apply andb_prop in H as [H ?]).
  split_and!; [by apply Bool.eqb_prop| ..]; intros ? E; rewrite E in *;
    try (by apply String.eqb_eq); try (by apply Qle_bool_iff);
    try (by apply Bool.eqb_prop); lia.
Qed.

Lemma bulk_create_present (t : ProductTable) rows (next_id : N) (now : Z) (k : N) :
  is_Some (t !! k) → is_Some (bulk_create t rows next_id now !! k).
Proof.
  revert t next_id. induction rows as [|r rows IH]; intros t next_id Hk; simpl; [done|].
  apply IH. rewrite lookup_insert. case_decide; [by eexists|done].
Qed.

Lemma bulk_create_first (t : ProductTable) r rows (next_id : N) (now : Z) :
  is_Some (bulk_create t (r :: rows) next_id now !! next_id).
Proof.
  apply (bulk_create_present (<[next_id := r next_id now]> t)).
  rewrite lookup_insert_eq. by eexists.
Qed.


Lemma bulk_create_valid (t : ProductTable) rows (next_id : N) (now : Z) :
  Forall (λ r, ∀ id now, product_valid (r id now) = true) rows →
  map_Forall (λ _ p, product_valid p = true) t →
  map_Forall (λ _ p, product_valid p = true) (bulk_create t rows next_id now).
Proof.
  intros Hrows. revert t next_id. induction Hrows as [|r rows Hr _ IH]; intros t next_id Ht;
    simpl; [done|].
  apply IH. by apply map_Forall_insert_2.
Qed.


Lemma seed_rows_valid : Forall (λ r, ∀ id now, product_valid (r id now) = true) seed_rows.
Proof.
  unfold seed_rows. repeat (constructor; [intros id now; reflexivity|]).
  constructor.
Qed.

(** ** Theorems *)

(** C11: a stock update by a non-zero quantity on an existing product
    stores [max(0, stock - quantity)] and sets [inStock] to whether that is
    positive; the new stock is never negative.  A negative quantity adds
    to the stock. *)
Theorem update_stock_ok (t : ProductTable) (id : N) (q : Z) (p : Product) :
  q ≠ 0 → t !! id = Some p →
  let n := Z.max 0 (p_stockQuantity p - q) in
  update_stock t id (Some q) =
    (<[id := set_stock n p]> t, Ok (mkStockUpdate id n (bool_decide (0 < n)))) ∧
  0 ≤ n ∧ p_inStock (set_stock n p) = bool_decide (0 < p_stockQuantity (set_stock n p)).
Proof.
  intros Hq Hp n. split; [|split; [lia|done]].
  unfold update_stock, findByPk. rewrite Hp. by destruct q.
Qed.

(** a stock update without a quantity, or with quantity 0, is
    rejected with 400, and one for an unknown product with 404; the table
    is unchanged. *)
Theorem update_stock_errors (t : ProductTable) (id : N) (quantity : option Z) :
  (quantity = None ∨ quantity = Some 0 → update_stock t id quantity = (t, Err 400 "Invalid quantity")) ∧
  (∀ q, quantity = Some q → q ≠ 0 → t !! id = None →
        update_stock t id quantity = (t, Err 404 "Product not found")).
Proof.
  unfold update_stock, findByPk. split; [by intros [-> | ->]|].
  intros q -> Hq Hnone. rewrite Hnone. by destruct q.
Qed.


(** C9: a page of [GET /api/products] has at most [limit] rows, [count]
    is its length and [total] the number of rows the where clause
    selects; the rows are newest first, and each is an active product of
    the table satisfying every filter given: category and age group
    equal to the parameters, price within the inclusive bounds, and, for
    [inStock=true], flagged in stock with a positive stock. *)
Theorem list_products_sound (t : ProductTable) (q : ProductQuery) (pg : ProductPage) :
  list_products t q = Ok pg →
  (∃ limit, query_int (q_limit q) 50 = Some limit ∧ (pp_count pg ≤ Z.to_nat limit)%nat) ∧
  pp_count pg = length (pp_data pg) ∧
  pp_total pg = length (filter (where_matches (build_where q)) (map snd (map_to_list t))) ∧
  Sorted (λ a b, p_createdAt b ≤ p_createdAt a) (pp_data pg) ∧
  ∀ p, p ∈ pp_data pg →
    (∃ k, t !! k = Some p) ∧ p_isActive p = true ∧
    (js_truthy (q_category q) = true → Some (category_name (p_category p)) = q_category q) ∧
    (js_truthy (q_ageGroup q) = true → Some (age_group_name (p_ageGroup p)) = q_ageGroup q) ∧
    (∀ v, q_minPrice q = Some v → (v <= p_price p # 100)%Q) ∧
    (∀ v, q_maxPrice q = Some v → (p_price p # 100 <= v)%Q) ∧
    (q_inStock q = Some "true" → p_inStock p = true ∧ 0 < p_stockQuantity p).
Proof.
  unfold list_products, findAndCountAll.
  destruct (query_int (q_limit q) 50) as [limit|]; [|done].
  destruct (query_int (q_offset q) 0) as [offset|]; [|done].
  destruct (_ || _); [done|]. intros [= <-]. simpl.
  split; [exists limit; split; [done|rewrite length_take; lia]|]. split; [done|]. split; [done|].
  split; [by apply Sorted_take, Sorted_drop, sort_newest_first_sorted|].
  intros p Hp%take_drop_subseteq. rewrite sort_newest_first_perm in Hp.
  apply list_elem_of_filter in Hp as [Hw Hp].
  apply list_elem_of_fmap in Hp as ([k p'] & -> & Hkp). apply elem_of_map_to_list in Hkp.
  apply Is_true_true_1, where_matches_spec in Hw as (Ha & Hc & Hg & Hmin & Hmax & Hi & Hs).
  unfold build_where in *; simpl in *.
  split_and!; [by exists k|done| | |done|done|].
  - intros Ht. rewrite Ht in Hc.
    destruct (q_category q) as [c|]; [by rewrite (Hc c eq_refl)|done].
  - intros Ht. rewrite Ht in Hg.
    destruct (q_ageGroup q) as [a|]; [by rewrite (Hg a eq_refl)|done].
  - intros E. rewrite E, bool_decide_true in Hi, Hs by done. split; [by apply Hi|by apply Hs].
Qed.

(** C39: [GET /api/products/:id] returns inactive products: [findByPk]
    ignores the [where: {isActive: true}] option the handler passes. *)
Theorem get_product_returns_inactive (t : ProductTable) (id : N) (p : Product) :
  t !! id = Some p → p_isActive p = false → get_product t id = Ok p.
Proof. intros Hp _. unfold get_product, findByPk. by rewrite Hp. Qed.

(** Seeding an empty table stores rows that pass the model's
    validators, and seeding is idempotent: once the table has a row,
    [seedDatabase] leaves it alone. *)
Theorem seed_database_spec (next_id : N) (now : Z) :
  map_Forall (λ _ p, product_valid p = true) (seedDatabase ∅ next_id now) ∧
  size (seedDatabase ∅ next_id now) ≠ 0%nat ∧
  ∀ (t : ProductTable) n n' now', seedDatabase (seedDatabase t n now') n' now = seedDatabase t n now'.
Proof.
  split_and!.
  - unfold seedDatabase. rewrite map_size_empty.
    apply bulk_create_valid; [apply seed_rows_valid|apply map_Forall_empty].
  - unfold seedDatabase. rewrite map_size_empty.
    apply (map_size_ne_0_lookup_2 _ next_id). apply bulk_create_first.
  - intros t n n' now'. unfold seedDatabase at 2.
    destruct (Nat.ltb_spec 0 (size t)) as [Hs|Hs].
    + unfold seedDatabase. by rewrite (proj2 (Nat.ltb_lt _ _) Hs).
    + assert (size (bulk_create t seed_rows n now') ≠ 0%nat) as Hne.
      { apply (map_size_ne_0_lookup_2 _ n). apply bulk_create_first. }
      unfold seedDatabase. rewrite (proj2 (Nat.ltb_lt 0 (size (bulk_create _ _ _ _)))) by lia.
      by rewrite (proj2 (Nat.ltb_ge _ _) Hs).
Qed.


Lemma set_stock_idem (m n : Z) (p : Product) : set_stock m (set_stock n p) = set_stock m p.
Proof. done. Qed.



(** C24: two requests on the same product whose reads both run before
    either write lose an update: the stock ends at [s - q2] instead of the
    [s - q1 - q2] the two requests run one after the other give. *)
Theorem stock_lost_update (t : ProductTable) (id : N) (p : Product) (q1 q2 : Z) :
  t !! id = Some p → 0 < q1 → 0 < q2 → q1 + q2 ≤ p_stockQuantity p →
  let ths := [StReady id (Some q1); StReady id (Some q2)] in
  fmap p_stockQuantity (fst (run_schedule t ths [0; 1; 0; 1]%nat) !! id) =
    Some (p_stockQuantity p - q2) ∧
  fmap p_stockQuantity (fst (run_schedule t ths [0; 0; 1; 1]%nat) !! id) =
    Some (p_stockQuantity p - q1 - q2).
Proof.
  intros Hp Hq1 Hq2 Hs.
  destruct q1 as [|q1|q1]; try lia; destruct q2 as [|q2|q2]; try lia. simpl.
  unfold findByPk. rewrite Hp. simpl. rewrite lookup_alter_eq, Hp. simpl.
  rewrite !lookup_alter_eq, Hp. simpl. unfold save_changed. cbn [p_stockQuantity].
  split; f_equal; repeat case_bool_decide; lia.
Qed.

(** ** Witnesses *)

Lemma update_stock_ok_witness :
  ∃ p, seeded_catalog !! 1%N = Some p ∧
       snd (update_stock seeded_catalog 1 (Some 5)) = Ok (mkStockUpdate 1 20 true).
Proof.
  destruct (seeded_catalog !! 1%N) as [p|] eqn:Hp; [|vm_compute in Hp; discriminate].
  exists p. split; [done|].
  assert (p_stockQuantity p = 25) as Hs.
  { vm_compute in Hp. injection Hp as <-. reflexivity. }
  destruct (update_stock_ok seeded_catalog 1 5 p ltac:(lia) Hp) as [-> _].
  simpl. rewrite Hs. reflexivity.
Defined.

Lemma update_stock_errors_witness :
  update_stock seeded_catalog 1 (Some 0) = (seeded_catalog, Err 400 "Invalid quantity") ∧
  update_stock seeded_catalog 99 (Some 3) = (seeded_catalog, Err 404 "Product not found").
Proof.
  split.
  - apply (proj1 (update_stock_errors seeded_catalog 1 (Some 0))). by right.
  - apply (proj2 (update_stock_errors seeded_catalog 99 (Some 3)) 3); [done|lia|].
    vm_compute. reflexivity.
Defined.

Lemma list_products_sound_witness :
  list_products seeded_catalog sample_query = Ok sample_page ∧
  (pp_count sample_page ≤ 1)%nat ∧ pp_total sample_page = 2%nat.
Proof.
  assert (list_products seeded_catalog sample_query = Ok sample_page) as H
    by (vm_compute; reflexivity).
  split; [done|].
  destruct (list_products_sound _ _ _ H) as ((limit & Hl & Hc) & _ & Ht & _).
  vm_compute in Hl. injection Hl as <-.
  split; [exact Hc|]. rewrite Ht. vm_compute. reflexivity.
Defined.

Lemma get_product_returns_inactive_witness :
  catalog_with_retired !! 7%N = Some retired_product ∧ p_isActive retired_product = false ∧
  get_product catalog_with_retired 7 = Ok retired_product.
Proof.
  assert (catalog_with_retired !! 7%N = Some retired_product) as H by (vm_compute; reflexivity).
  split_and!; [done|done|]. by apply get_product_returns_inactive.
Defined.

Lemma stock_lost_update_witness :
  let ths := [StReady 1 (Some 5); StReady 1 (Some 3)] in
  fmap p_stockQuantity (fst (run_schedule seeded_catalog ths [0; 1; 0; 1]%nat) !! 1%N) = Some 22 ∧
  fmap p_stockQuantity (fst (run_schedule seeded_catalog ths [0; 0; 1; 1]%nat) !! 1%N) = Some 17.
Proof.
  destruct (seeded_catalog !! 1%N) as [p|] eqn:Hp; [|vm_compute in Hp; discriminate].
  assert (p_stockQuantity p = 25) as Hs.
  { vm_compute in Hp. injection Hp as <-. reflexivity. }
  destruct (stock_lost_update seeded_catalog 1 p 5 3 Hp ltac:(lia) ltac:(lia) ltac:(lia))
    as [H1 H2].
  rewrite Hs in H1, H2. split; [exact H1|exact H2].
Defined.

