(* ===== verification/Crypto.v ===== *)
(** * Password hashing and signed tokens: interfaces

    The auth routes call two libraries, [bcryptjs] and [jsonwebtoken],
    whose mechanics the sources do not contain.  Each is an interface
    (a [Class]) stating what the routes rely on: a password matches its
    own hash and no other password's, and a token verifies under the secret
    it was signed with and under no other.  The handlers of [Auth] and
    [Users] are proved against these classes.  A reference instance of each
    class shows the laws can be met together and lets the witnesses run;
    it makes no claim to be secure. *)

From S2P Require Import Prelude JsString.
From stdpp Require Import countable.
From Stdlib Require Import Ascii.
Local Open Scope Z_scope.

(** ** Token payload *)

(** The payload of [jwt.sign({userId, email, role}, secret, {expiresIn:
    '24h'})]: [iat] is [Math.floor(Date.now() / 1000)] and [exp] is
    [iat + 86400], both in seconds. *)
Record Claims := mkClaims {
  c_userId : Z;
  c_email : string;
  c_role : string;
  c_iat : Z;
  c_exp : Z
}.

#[export] Instance Claims_eq_dec : EqDecision Claims.
Proof. solve_decision. Defined.

#[export] Program Instance Claims_countable : Countable Claims :=
  inj_countable' (λ c, (c_userId c, c_email c, c_role c, c_iat c, c_exp c))
    (λ '(a, b, c, d, e), mkClaims a b c d e) _.
Next Obligation. by intros []. Qed.

(** The [name] of the error [jwt.verify] throws. *)
Inductive VerifyError := JsonWebTokenError | TokenExpiredError.

Inductive Verified := VerifiedOk (c : Claims) | VerifyFailed (e : VerifyError).

(** ** [bcryptjs] *)

(** [bcrypt.hash(password, 10)] draws a random salt; the salt is an
    argument here, supplied by the caller. *)
Class PasswordHasher := {
  bcrypt_hash : string → N → string;
  bcrypt_compare : string → string → bool;
  bcrypt_compare_hash pw salt : bcrypt_compare pw (bcrypt_hash pw salt) = true;
  bcrypt_compare_other pw pw' salt :
    bcrypt_compare pw (bcrypt_hash pw' salt) = true → pw = pw'
}.

(** ** [jsonwebtoken] *)

(** [jwt_verify_sig secret tok] is the signature check of [jwt.verify]:
    the payload when [tok] is well formed and signed with [secret].
    [jwt_decode] is [jwt.decode]: the payload of a well-formed token,
    without checking the signature. *)
Class TokenSigner := {
  jwt_sign : string → Claims → string;
  jwt_verify_sig : string → string → option Claims;
  jwt_decode : string → option Claims;
  jwt_verify_sign sec c : jwt_verify_sig sec (jwt_sign sec c) = Some c;
  jwt_verify_other sec sec' c : sec ≠ sec' → jwt_verify_sig sec' (jwt_sign sec c) = None;
  jwt_decode_sign sec c : jwt_decode (jwt_sign sec c) = Some c;
  jwt_sign_nonempty sec c : jwt_sign sec c ≠ "";
  jwt_sign_no_space sec c : str_forallb (λ ch, negb (Ascii.eqb ch " "%char)) (jwt_sign sec c) = true
}.

(** [jwt.verify(token, secret)] at clock [clock] (seconds): a bad
    signature throws [JsonWebTokenError]; a good one whose [exp] is not
    after the clock throws [TokenExpiredError]. *)
Definition jwt_verify `{TokenSigner} (tok secret : string) (clock : Z) : Verified :=
  match jwt_verify_sig secret tok with
  | None => VerifyFailed JsonWebTokenError
  | Some c => if c_exp c <=? clock then VerifyFailed TokenExpiredError else VerifiedOk c
  end.

(** ** Reference instances

    A value is carried as the decimal digits of its [Countable] code; the
    "signature" is the code of the secret, paired with the payload. *)
Definition encode_str `{Countable A} (a : A) : string := n_to_string (Npos (encode a)).

Definition decode_str `{Countable A} (s : string) : option A :=
  match parse_N s with Some (Npos p) => decode p | _ => None end.

Definition ref_hash (pw : string) (salt : N) : string := "$2a$10$" +:+ encode_str (salt, pw).

(** [s] without the prefix [pre], when [pre] is a prefix of [s]. *)
Fixpoint strip_prefix (pre s : string) : option string :=
  match pre, s with
  | "", _ => Some s
  | String c pre', String c' s' => if bool_decide (c = c') then strip_prefix pre' s' else None
  | _, _ => None
  end.

Definition ref_compare (pw h : string) : bool :=
  match strip_prefix "$2a$10$" h ≫= decode_str (A := N * string) with
  | Some (_, pw') => bool_decide (pw = pw')
  | None => false
  end.

Definition ref_sign (sec : string) (c : Claims) : string := encode_str (sec, c).

Definition ref_verify_sig (sec tok : string) : option Claims :=
  match decode_str (A := string * Claims) tok with
  | Some (s, c) => if bool_decide (s = sec) then Some c else None
  | None => None
  end.

Definition ref_decode (tok : string) : option Claims :=
  snd <$> decode_str (A := string * Claims) tok.

Lemma strip_prefix_app pre s : strip_prefix pre (pre +:+ s) = Some s.
Proof. induction pre as [|c pre IH]; [done|]. simpl. by rewrite bool_decide_eq_true_2. Qed.

Lemma decode_encode_str `{Countable A} (a : A) : decode_str (encode_str a) = Some a.
Proof. unfold decode_str, encode_str. rewrite parse_N_n_to_string. apply decode_encode. Qed.

#[export] Program Instance ref_hasher : PasswordHasher :=
  {| bcrypt_hash := ref_hash; bcrypt_compare := ref_compare |}.
Next Obligation.
  intros pw salt. unfold ref_compare, ref_hash.
  rewrite strip_prefix_app. simpl. rewrite decode_encode_str. by apply bool_decide_eq_true.
Qed.
Next Obligation.
  intros pw pw' salt. unfold ref_compare, ref_hash.
  rewrite strip_prefix_app. simpl. rewrite decode_encode_str. by intros ?%bool_decide_eq_true.
Qed.

#[export] Program Instance ref_signer : TokenSigner :=
  {| jwt_sign := ref_sign; jwt_verify_sig := ref_verify_sig; jwt_decode := ref_decode |}.
Next Obligation.
  intros sec c. unfold ref_verify_sig, ref_sign. rewrite decode_encode_str.
  by rewrite bool_decide_eq_true_2.
Qed.
Next Obligation.
  intros sec sec' c Hne. unfold ref_verify_sig, ref_sign. rewrite decode_encode_str.
  by rewrite bool_decide_eq_false_2.
Qed.
Next Obligation. intros sec c. unfold ref_decode, ref_sign. by rewrite decode_encode_str. Qed.
Next Obligation. intros sec c. apply n_to_string_nonempty. Qed.
Next Obligation.
  intros sec c. eapply str_forallb_impl; [|apply n_to_string_digits].
  intros ch. by destruct ch as [[] [] [] [] [] [] [] []].
Qed.

(** ** Lemmas on [jwt_verify] *)

Section Verify.
Context `{TokenSigner}.

Lemma jwt_verify_fresh sec c clock :
  clock < c_exp c → jwt_verify (jwt_sign sec c) sec clock = VerifiedOk c.
Proof.
  intros Hc. unfold jwt_verify. rewrite jwt_verify_sign.
  by rewrite (proj2 (Z.leb_gt _ _) Hc).
Qed.

Lemma jwt_verify_expired sec c clock :
  c_exp c ≤ clock → jwt_verify (jwt_sign sec c) sec clock = VerifyFailed TokenExpiredError.
Proof.
  intros Hc. unfold jwt_verify. rewrite jwt_verify_sign.
  by rewrite (proj2 (Z.leb_le _ _) Hc).
Qed.

Lemma jwt_verify_wrong_secret sec sec' c clock :
  sec ≠ sec' → jwt_verify (jwt_sign sec c) sec' clock = VerifyFailed JsonWebTokenError.
Proof. intros Hne. unfold jwt_verify. by rewrite jwt_verify_other. Qed.
End Verify.

#[export] Hint Rewrite @jwt_verify_sign @jwt_decode_sign @bcrypt_compare_hash : hedeya_rw.
