(* ===== verification/Auth.v ===== *)
(** * Auth token service

    The routes of [src/backend/routes/auth.js]: the module-level [users]
    array, seeded with one admin, and [userIdCounter]; [register],
    [login], [verify-token], [refresh-token] and [logout].  The handlers
    are written against the [PasswordHasher] and [TokenSigner] interfaces
    of [Crypto].  The clock [now] is [Date.now()] in milliseconds; tokens
    carry seconds.  [register] awaits [bcrypt.hash] between its checks and
    its push, so it is two steps, [register_begin] and [register_finish];
    the server ([AuthServer], [server_step]) keeps the registrations
    suspended there and lets any request run in between.
    [String.prototype.toLowerCase] is modelled on ASCII letters only: an
    email is a string of bytes here, and a non-ASCII letter, which
    JavaScript would lower, is left as it is. *)

From S2P Require Import Prelude JsString Crypto.
From Stdlib Require Import Ascii.
Local Open Scope Z_scope.

(** ** [isValidEmail]: [/^[^\s@]+@[^\s@]+\.[^\s@]+$/] *)

(** The class [[^\s@]]. *)
Definition email_char (c : ascii) : bool := negb (is_js_space c) && negb (Ascii.eqb c "@"%char).

(** A one-pass automaton for the expression: before any character, in
    the local part, just after ["@"], in the domain before a usable ["."],
    just after it, and in an accepted suffix. *)
Inductive EmailState := ELocal0 | ELocal | EDomain0 | EDomain | EDot | EAccept.

#[export] Instance EmailState_eq_dec : EqDecision EmailState.
Proof. solve_decision. Defined.

Definition email_next (st : EmailState) (c : ascii) : option EmailState :=
  if Ascii.eqb c "@"%char then match st with ELocal => Some EDomain0 | _ => None end
  else if is_js_space c then None
  else match st with
  | ELocal0 | ELocal => Some ELocal
  | EDomain0 => Some EDomain
  | EDomain => if Ascii.eqb c "."%char then Some EDot else Some EDomain
  | EDot | EAccept => Some EAccept
  end.

Fixpoint email_run (st : EmailState) (s : string) : bool :=
  match s with
  | "" => bool_decide (st = EAccept)
  | String c s' => match email_next st c with Some st' => email_run st' s' | None => false end
  end.

Definition isValidEmail (s : string) : bool := email_run ELocal0 s.

(** ** Data *)

Inductive Role := Admin | Customer.

#[export] Instance Role_eq_dec : EqDecision Role.
Proof. solve_decision. Defined.

Definition role_name (r : Role) : string :=
  match r with Admin => "admin" | Customer => "customer" end.

(** An element of [users].  [isActive] is [None] where the object has no
    such property ([undefined]), as in the seeded admin. *)
Record User := mkUser {
  u_id : Z;
  u_email : string;
  u_password : string;
  u_firstName : string;
  u_lastName : string;
  u_phone : option string;
  u_role : Role;
  u_createdAt : Z;
  u_lastLogin : option Z;
  u_isActive : option bool
}.

(** [!user.isActive]: only [true] is truthy. *)
Definition user_active (u : User) : bool :=
  match u_isActive u with Some true => true | _ => false end.

(** [const { password: _, ...userWithoutPassword } = user]. *)
Record UserView := mkUserView {
  uv_id : Z; uv_email : string; uv_firstName : string; uv_lastName : string;
  uv_phone : option string; uv_role : Role; uv_createdAt : Z;
  uv_lastLogin : option Z; uv_isActive : option bool
}.

Definition without_password (u : User) : UserView :=
  mkUserView (u_id u) (u_email u) (u_firstName u) (u_lastName u) (u_phone u) (u_role u)
    (u_createdAt u) (u_lastLogin u) (u_isActive u).

Record AuthStore := mkAuthStore { users : list User; userIdCounter : Z }.

(** The seeded admin, created when the module loads at [boot]: its
    [password] is a fixed string, and it has no [phone], [lastLogin] or
    [isActive]. *)
Definition ADMIN_HASH : string :=
  "$2a$10$rQX.n7.X7QJ7X9X7X7X7X.X7X7X7X7X7X7X7X7X7X7X7X7X7X7X7X7X".

Definition seed_admin (boot : Z) : User :=
  mkUser 1 "admin@kidoland.com" ADMIN_HASH "Admin" "User" None Admin boot None None.

Definition initial_auth (boot : Z) : AuthStore := mkAuthStore [seed_admin boot] 2.

(** [process.env.JWT_SECRET || 'kido_land_secret_key_2024']. *)
Definition auth_secret (env : option string) : string := js_or env "kido_land_secret_key_2024".

Definition TOKEN_TTL : Z := 86400.

Definition clock_of (now : Z) : Z := now `div` 1000.

Section Handlers.
Context `{PasswordHasher} `{TokenSigner}.

(** [generateToken(user)]. *)
Definition generateToken (secret : string) (now : Z) (u : User) : string :=
  jwt_sign secret (mkClaims (u_id u) (u_email u) (role_name (u_role u))
                     (clock_of now) (clock_of now + TOKEN_TTL)).

Definition find_by_email (email : string) (l : list User) : option (nat * User) :=
  list_find (λ u, to_lower (u_email u) = to_lower email) l.

Definition find_by_id (id : Z) (l : list User) : option User :=
  snd <$> list_find (λ u, u_id u = id) l.

(** The [data] of a register or login response. *)
Record AuthData := mkAuthData { ad_user : UserView; ad_token : string }.

Record RegisterBody := mkRegisterBody {
  rb_email : option string; rb_password : option string; rb_firstName : option string;
  rb_lastName : option string; rb_phone : option string
}.

Record LoginBody := mkLoginBody { lb_email : option string; lb_password : option string }.

(** What a registration carries across [await bcrypt.hash]: the request's
    fields, checked. *)
Record RegPending := mkRegPending {
  rp_email : string; rp_password : string; rp_firstName : string;
  rp_lastName : string; rp_phone : option string
}.

(** [POST /api/auth/register] up to [await bcrypt.hash(password, 10)]
    (lines 48-84): the validations and the duplicate check against the
    store as it is when the request arrives. *)
Definition register_begin (s : AuthStore) (b : RegisterBody) : result RegPending :=
  if negb (js_truthy (rb_email b) && js_truthy (rb_password b) &&
           js_truthy (rb_firstName b) && js_truthy (rb_lastName b))
  then Err 400 "Missing required fields" else
  let email := default "" (rb_email b) in
  let password := default "" (rb_password b) in
  if negb (isValidEmail email) then Err 400 "Invalid email format" else
  if (String.length password <? 6)%nat then Err 400 "Weak password" else
  match find_by_email email (users s) with
  | Some _ => Err 409 "User already exists"
  | None => Ok (mkRegPending email password (default "" (rb_firstName b))
                  (default "" (rb_lastName b)) (rb_phone b))
  end.

(** The [newUser] object literal, built after the hash resolves:
    [id: userIdCounter++] reads the counter as it is then; [salt] is the
    salt [bcrypt.hash] drew and [now] the time of [new Date()]. *)
Definition newUser (now : Z) (salt : N) (s : AuthStore) (p : RegPending) : User :=
  mkUser (userIdCounter s) (to_lower (rp_email p)) (bcrypt_hash (rp_password p) salt)
    (rp_firstName p) (rp_lastName p) (js_or_null (rp_phone p)) Customer now None (Some true).

(** The rest of the handler (lines 87-114): the counter's increment and
    [users.push] act on the store as it is when the hash resolves, with
    no second duplicate check. *)
Definition register_finish (secret : string) (now : Z) (salt : N) (s : AuthStore) (p : RegPending)
    : AuthStore * AuthData :=
  let u := newUser now salt s p in
  (mkAuthStore (users s ++ [u]) (userIdCounter s + 1),
   mkAuthData (without_password u) (generateToken secret now u)).

(** The handler run with nothing else interleaved at its [await]. *)
Definition register (secret : string) (now : Z) (salt : N) (s : AuthStore) (b : RegisterBody)
    : AuthStore * result AuthData :=
  match register_begin s b with
  | Err c e => (s, Err c e)
  | Ok p => let r := register_finish secret now salt s p in (r.1, Ok r.2)
  end.

(** [user.lastLogin = new Date().toISOString()]. *)
Definition set_lastLogin (now : Z) (u : User) : User :=
  mkUser (u_id u) (u_email u) (u_password u) (u_firstName u) (u_lastName u) (u_phone u)
    (u_role u) (u_createdAt u) (Some now) (u_isActive u).

(** [POST /api/auth/login]: the found user object is updated in place,
    at its index in [users]. *)
Definition login (secret : string) (now : Z) (s : AuthStore) (b : LoginBody)
    : AuthStore * result AuthData :=
  if negb (js_truthy (lb_email b) && js_truthy (lb_password b))
  then (s, Err 400 "Missing credentials") else
  let email := default "" (lb_email b) in
  let password := default "" (lb_password b) in
  match find_by_email email (users s) with
  | None => (s, Err 401 "Invalid credentials")
  | Some (i, u) =>
      if negb (user_active u) then (s, Err 401 "Account disabled") else
      if negb (bcrypt_compare password (u_password u)) then (s, Err 401 "Invalid credentials")
      else
        let u' := set_lastLogin now u in
        (mkAuthStore (<[i := u']> (users s)) (userIdCounter s),
         Ok (mkAuthData (without_password u') (generateToken secret now u')))
  end.

(** [POST /api/auth/verify-token]. *)
Definition verify_token (secret : string) (now : Z) (s : AuthStore) (token : option string)
    : result UserView :=
  if negb (js_truthy token) then Err 400 "Missing token" else
  match jwt_verify (default "" token) secret (clock_of now) with
  | VerifyFailed JsonWebTokenError => Err 401 "Invalid token"
  | VerifyFailed TokenExpiredError => Err 401 "Token expired"
  | VerifiedOk c =>
      match find_by_id (c_userId c) (users s) with
      | Some u => if user_active u then Ok (without_password u) else Err 401 "Invalid token"
      | None => Err 401 "Invalid token"
      end
  end.

(** [POST /api/auth/refresh-token]: an expired token is decoded without
    its expiry; any other verification error is rethrown to the outer
    [catch], which answers 500. *)
Definition refresh_token (secret : string) (now : Z) (s : AuthStore) (token : option string)
    : result string :=
  if negb (js_truthy token) then Err 400 "Missing token" else
  let tok := default "" token in
  decoded ← match jwt_verify tok secret (clock_of now) with
            | VerifiedOk c => Ok (Some c)
            | VerifyFailed TokenExpiredError => Ok (jwt_decode tok)
            | VerifyFailed JsonWebTokenError => Err 500 "Token refresh failed"
            end;
  match decoded with
  | None => Err 401 "Invalid token"
  | Some c =>
      if c_userId c =? 0 then Err 401 "Invalid token" else
      match find_by_id (c_userId c) (users s) with
      | Some u => if user_active u then Ok (generateToken secret now u) else Err 401 "Invalid user"
      | None => Err 401 "Invalid user"
      end
  end.

(** [POST /api/auth/logout]: nothing is recorded. *)
Definition logout (s : AuthStore) : AuthStore * result string :=
  (s, Ok "Please remove the token from client storage").

(** The server between requests: the store and the registrations
    suspended at [await bcrypt.hash], in the order they reached it.
    Node runs one handler at a time up to its next [await], so the
    other requests interleave there. *)
Record AuthServer := mkAuthServer { srv_store : AuthStore; srv_hashing : list RegPending }.

(** A registration reaches its [await] (one that fails a check answers
    and leaves the state alone); any suspended one resumes; a login runs.
    [login]'s own [await bcrypt.compare] is not split: before it the
    handler only reads fields no handler writes, and after it writes
    [lastLogin] on the object it found, which stays at its index since
    [users] only grows, so its result does not depend on what ran in
    between. *)
Inductive server_step : AuthServer → AuthServer → Prop :=
| srv_register_begin s hs b p :
    register_begin s b = Ok p → server_step (mkAuthServer s hs) (mkAuthServer s (hs ++ [p]))
| srv_register_finish secret now salt s hs1 p hs2 :
    server_step (mkAuthServer s (hs1 ++ p :: hs2))
                (mkAuthServer (register_finish secret now salt s p).1 (hs1 ++ hs2))
| srv_login secret now s hs b :
    server_step (mkAuthServer s hs) (mkAuthServer (fst (login secret now s b)) hs).

Definition initial_server (boot : Z) : AuthServer := mkAuthServer (initial_auth boot) [].

Definition server_reachable (boot : Z) : AuthServer → Prop := rtc server_step (initial_server boot).

(** A store the server reaches, whatever is still suspended. *)
Definition auth_reachable (boot : Z) (s : AuthStore) : Prop :=
  ∃ hs, server_reachable boot (mkAuthServer s hs).
End Handlers.

(** ** The store invariant *)

(** The seeded admin stays first, and ids are unique, positive and below
    the counter.  Emails are not unique: see [register_race_duplicates]. *)
Definition auth_wf (boot : Z) (s : AuthStore) : Prop :=
  users s !! 0%nat = Some (seed_admin boot) ∧
  Forall (λ u, 0 < u_id u < userIdCounter s) (users s) ∧
  NoDup (u_id <$> users s).

Section Invariant.
Context `{PasswordHasher} `{TokenSigner}.

Lemma login_cases secret now s b :
  fst (login secret now s b) = s ∨
  ∃ i u, find_by_email (default "" (lb_email b)) (users s) = Some (i, u) ∧
    user_active u = true ∧
    fst (login secret now s b) = mkAuthStore (<[i := set_lastLogin now u]> (users s)) (userIdCounter s).
Proof.
  unfold login. case_ifs; try by left.
  destruct (find_by_email _ _) as [[i u]|] eqn:Hf; [|by left].
  case_ifs; try by left. right. exists i, u. split_and!; [done| |done].
  by apply negb_false_iff.
Qed.

(** Updating [lastLogin] in place changes no email and no id. *)
Lemma fmap_set_lastLogin {B} (f : User → B) (l : list User) i u now :
  (∀ u, f (set_lastLogin now u) = f u) → l !! i = Some u →
  f <$> <[i := set_lastLogin now u]> l = f <$> l.
Proof.
  intros Hf Hl. rewrite list_fmap_insert, Hf. apply list_insert_id.
  by rewrite list_lookup_fmap, Hl.
Qed.

Lemma seed_admin_inactive boot : user_active (seed_admin boot) = false.
Proof. done. Qed.

(** Whatever the store looks like when the hash resolves, the pushed user
    takes the counter's id, which no stored user has. *)
Lemma register_finish_wf boot secret now salt s p :
  auth_wf boot s → auth_wf boot (register_finish secret now salt s p).1.
Proof.
  intros (Hhd & Hid & Hnd).
  assert (1 < userIdCounter s) as Hc.
  { eapply (Forall_lookup_1 _ _ 0%nat) in Hid; [|done]. simpl in Hid. lia. }
  split_and!; cbn [users userIdCounter fst register_finish].
  - by rewrite lookup_app_l by (apply lookup_lt_is_Some; eauto).
  - apply Forall_app. split; [|apply Forall_singleton; simpl; lia].
    eapply Forall_impl; [exact Hid|]. intros x Hx. simpl in *. lia.
  - rewrite fmap_app. apply NoDup_app. split_and!; [done| |apply NoDup_singleton].
    intros x Hx ->%list_elem_of_singleton. apply list_elem_of_fmap in Hx as (v & Hv & Hin).
    apply (proj1 (Forall_forall _ _) Hid v) in Hin. simpl in Hv. lia.
Qed.

Lemma register_wf boot secret now salt s b :
  auth_wf boot s → auth_wf boot (fst (register secret now salt s b)).
Proof.
  intros Hwf. unfold register. destruct (register_begin s b); [|done].
  by apply register_finish_wf.
Qed.

Lemma login_wf boot secret now s b :
  auth_wf boot s → auth_wf boot (fst (login secret now s b)).
Proof.
  intros (Hhd & Hid & Hnd).
  destruct (login_cases secret now s b) as [->|(i & u & Hf & Ha & ->)]; [done|].
  apply list_find_Some in Hf as (Hi & _ & _).
  assert (i ≠ 0%nat) as Hi0.
  { intros ->. rewrite Hhd in Hi. injection Hi as <-. by rewrite seed_admin_inactive in Ha. }
  split_and!; cbn [users userIdCounter].
  - by rewrite list_lookup_insert_ne by done.
  - apply Forall_insert; [done|]. by apply (Forall_lookup_1 _ _ _ _ Hid Hi).
  - by rewrite (fmap_set_lastLogin u_id).
Qed.

Lemma server_step_wf boot t t' :
  server_step t t' → auth_wf boot (srv_store t) → auth_wf boot (srv_store t').
Proof. destruct 1; simpl; [done|apply (register_finish_wf _ secret now salt)|apply (login_wf _ secret now)]. Qed.

Lemma initial_auth_wf boot : auth_wf boot (initial_auth boot).
Proof. split_and!; [done|by repeat constructor|apply NoDup_singleton]. Qed.
End Invariant.

(** ** Lookup lemmas *)

(** Reduce the record projections of requests and stores, leaving the
    handlers' tests for the lemmas. *)
Ltac auth_simpl :=
  cbn [lb_email lb_password rb_email rb_password rb_firstName rb_lastName rb_phone
       users userIdCounter default from_option id fst snd negb andb] in *.

Lemma js_truthy_some (x : string) : x ≠ "" → js_truthy (Some x) = true.
Proof. intros Hx. apply js_truthy_true. eauto. Qed.

Lemma find_by_id_elem (l : list User) (u : User) :
  NoDup (u_id <$> l) → u ∈ l → find_by_id (u_id u) l = Some u.
Proof.
  intros Hnd Hu. unfold find_by_id.
  destruct (list_find_elem_of (λ v, u_id v = u_id u) l u Hu eq_refl) as [[i v] Hf].
  rewrite Hf. apply list_find_Some in Hf as (Hi & Hv & _). simpl. f_equal.
  apply (NoDup_map_inj_on u_id l); [done| |done|done]. by eapply list_elem_of_lookup_2.
Qed.

(** A user pushed behind no user of the same email, up to case, is the
    one [find_by_email] finds. *)
Lemma find_by_email_last (l : list User) (u : User) (e e' : string) :
  to_lower e = to_lower e' → find_by_email e' l = None → to_lower (u_email u) = to_lower e →
  find_by_email e (l ++ [u]) = Some (length l, u).
Proof.
  intros Hee Hn Hu. unfold find_by_email in *. rewrite Hee in *.
  rewrite list_find_app_r by done. simpl. by rewrite decide_True.
Qed.

Section Reachable.
Context `{PasswordHasher} `{TokenSigner}.

Lemma reachable_auth_wf boot s : auth_reachable boot s → auth_wf boot s.
Proof.
  intros [hs Hr]. change s with (srv_store (mkAuthServer s hs)).
  assert (∀ t1 t2, rtc server_step t1 t2 → auth_wf boot (srv_store t1) → auth_wf boot (srv_store t2))
    as Hgen by (induction 1; eauto using server_step_wf).
  exact (Hgen _ _ Hr (initial_auth_wf boot)).
Qed.

(** The serial handler is its two halves run back to back. *)
Lemma register_steps boot secret now salt s hs b :
  server_reachable boot (mkAuthServer s hs) →
  server_reachable boot (mkAuthServer (fst (register secret now salt s b)) hs).
Proof.
  intros Hr. unfold register. destruct (register_begin s b) as [p|] eqn:Hb; [|done].
  eapply rtc_r; [eapply rtc_r; [exact Hr|by apply (srv_register_begin _ _ b)]|].
  rewrite <-(app_nil_r hs) at 2. apply srv_register_finish.
Qed.

Lemma initial_auth_reachable boot : auth_reachable boot (initial_auth boot).
Proof. exists []. apply rtc_refl. Qed.

Lemma register_ok_inv secret now salt s b s' d :
  register secret now salt s b = (s', Ok d) →
  ∃ email password, rb_email b = Some email ∧ rb_password b = Some password ∧
    isValidEmail email = true ∧ (6 ≤ String.length password)%nat ∧
    find_by_email email (users s) = None ∧
    let u := mkUser (userIdCounter s) (to_lower email) (bcrypt_hash password salt)
               (default "" (rb_firstName b)) (default "" (rb_lastName b))
               (js_or_null (rb_phone b)) Customer now None (Some true) in
    s' = mkAuthStore (users s ++ [u]) (userIdCounter s + 1) ∧
    d = mkAuthData (without_password u) (generateToken secret now u).
Proof.
  unfold register, register_begin. destruct (rb_email b) as [e|], (rb_password b) as [pw|];
    simpl; rewrite ?andb_false_r; try done.
  case_ifs; try done. destruct (find_by_email _ _) eqn:Hf; [done|].
  intros [= <- <-]. exists e, pw. split_and!; try done.
  - by apply negb_false_iff.
  - by apply Nat.ltb_ge.
Qed.

(** A request that passes the checks passes them against any store but
    for the duplicate test, which it fails on a store holding its email. *)
Lemma register_begin_ok s b p :
  register_begin s b = Ok p →
  find_by_email (rp_email p) (users s) = None ∧
  ∀ s', register_begin s' b =
    match find_by_email (rp_email p) (users s') with
    | Some _ => Err 409 "User already exists"
    | None => Ok p
    end.
Proof.
  unfold register_begin. case_ifs; try discriminate.
  destruct (find_by_email _ (users s)) eqn:Hf; [discriminate|]. intros [= <-]. by split.
Qed.

(** After [register_finish], the store holds the new user's email. *)
Lemma register_finish_found secret now salt s p :
  find_by_email (rp_email p) (users s) = None →
  find_by_email (rp_email p) (users (register_finish secret now salt s p).1) =
    Some (length (users s), newUser now salt s p).
Proof. intros Hf. apply (find_by_email_last _ _ _ _ eq_refl Hf), to_lower_idem. Qed.

Lemma generateToken_nonempty secret now u : js_truthy (Some (generateToken secret now u)) = true.
Proof. apply js_truthy_some, jwt_sign_nonempty. Qed.

Definition token_claims (now : Z) (u : User) : Claims :=
  mkClaims (u_id u) (u_email u) (role_name (u_role u)) (clock_of now) (clock_of now + TOKEN_TTL).

(** A token of [generateToken] verifies under its secret until 24 hours
    after issue and is expired from then on. *)
Lemma generateToken_verify secret now u clock :
  jwt_verify (generateToken secret now u) secret clock =
    if clock <? clock_of now + TOKEN_TTL then VerifiedOk (token_claims now u)
    else VerifyFailed TokenExpiredError.
Proof.
  destruct (Z.ltb_spec clock (clock_of now + TOKEN_TTL)).
  - by apply jwt_verify_fresh.
  - by apply jwt_verify_expired.
Qed.

Lemma generateToken_decode secret now u :
  jwt_decode (generateToken secret now u) = Some (token_claims now u).
Proof. apply jwt_decode_sign. Qed.
End Reachable.

(** ** Samples *)

Definition sample_boot : Z := 1700000000000.
Definition sample_secret : string := auth_secret None.

Definition sample_register : RegisterBody :=
  mkRegisterBody (Some "Mona@Example.com") (Some "secret1") (Some "Mona") (Some "Adel") None.

Definition sample_reg := register sample_secret (sample_boot + 5000) 7 (initial_auth sample_boot)
                           sample_register.

Definition sample_store1 : AuthStore := fst sample_reg.

Definition sample_data : AuthData :=
  match snd sample_reg with
  | Ok d => d
  | Err _ _ => mkAuthData (without_password (seed_admin 0)) ""
  end.

Definition sample_user : User :=
  mkUser 2 "mona@example.com" (bcrypt_hash "secret1" 7) "Mona" "Adel" None Customer
    (sample_boot + 5000) None (Some true).

Lemma sample_reg_ok : sample_reg = (sample_store1, Ok sample_data).
Proof. vm_compute. reflexivity. Qed.

Lemma sample_store1_reachable : auth_reachable sample_boot sample_store1.
Proof. exists []. apply register_steps, rtc_refl. Qed.

Lemma sample_user_elem : sample_user ∈ users sample_store1.
Proof. apply (list_elem_of_lookup_2 _ 1). vm_compute. reflexivity. Qed.

(** ** Theorems *)

Section Claims.
Context `{PasswordHasher} `{TokenSigner}.

(** C29: in every state the server reaches, with registrations suspended
    at their [await] and resumed in any order, the seeded admin stays the
    first user and user ids stay unique, positive and below
    [userIdCounter]: the id is read from the counter when the hash
    resolves, not when the request arrives. *)
Theorem auth_ids_unique boot s :
  auth_reachable boot s →
  users s !! 0%nat = Some (seed_admin boot) ∧ NoDup (u_id <$> users s) ∧
  Forall (λ u, 0 < u_id u < userIdCounter s) (users s).
Proof. by intros (? & ? & ?)%reachable_auth_wf. Qed.

(** C30: two registrations of the same new email that both reach
    [await bcrypt.hash] before either resumes are both answered 201,
    each with its own id, and leave two users with that email: the
    duplicate check runs before the [await] and nothing checks again
    after it.  Run one after the other, the second is answered 409. *)
Theorem register_race_duplicates boot secret now1 now2 salt1 salt2 s hs b p :
  server_reachable boot (mkAuthServer s hs) → register_begin s b = Ok p →
  let r1 := register_finish secret now1 salt1 s p in
  let r2 := register_finish secret now2 salt2 r1.1 p in
  server_reachable boot (mkAuthServer r2.1 hs) ∧
  ¬ NoDup ((λ u, to_lower (u_email u)) <$> users r2.1) ∧
  uv_email (ad_user r1.2) = uv_email (ad_user r2.2) ∧
  uv_id (ad_user r1.2) ≠ uv_id (ad_user r2.2) ∧
  register secret now2 salt2 (fst (register secret now1 salt1 s b)) b =
    (fst (register secret now1 salt1 s b), Err 409 "User already exists").
Proof.
  intros Hr Hb r1 r2. destruct (register_begin_ok s b p Hb) as [Hf Hre].
  split_and!.
  - assert (server_reachable boot (mkAuthServer s (hs ++ [p; p]))) as H2.
    { replace (hs ++ [p; p]) with ((hs ++ [p]) ++ [p]) by by rewrite <-app_assoc.
      eapply rtc_r; [eapply rtc_r; [exact Hr|]|]; by apply (srv_register_begin _ _ b). }
    eapply rtc_r; [eapply rtc_r; [exact H2|apply (srv_register_finish secret now1 salt1 s hs p [p])]|].
    rewrite <-(app_nil_r hs) at 2. apply (srv_register_finish secret now2 salt2 _ hs p []).
  - cbn [r2 r1 register_finish fst users]. rewrite (fmap_app _ (users s ++ _) [_]).
    rewrite NoDup_app. intros (_ & Hdis & _). apply (Hdis (to_lower (to_lower (rp_email p)))).
    + apply list_elem_of_fmap. exists (newUser now1 salt1 s p). split; [done|].
      apply elem_of_app. right. by left.
    + simpl. by left.
  - done.
  - cbn. lia.
  - unfold register. rewrite Hb. cbn [fst]. rewrite (Hre _), register_finish_found by done. done.
Qed.

(** C26: the seeded admin can never log in: in every reachable store a
    login with its email, in any case, and any password is answered 401
    "Account disabled", because the admin object has no [isActive]. *)
Theorem admin_login_disabled boot secret now s (e pw : string) :
  auth_reachable boot s → to_lower e = "admin@kidoland.com" → pw ≠ "" →
  login secret now s (mkLoginBody (Some e) (Some pw)) = (s, Err 401 "Account disabled").
Proof.
  intros (Hhd & _)%reachable_auth_wf He Hpw.
  assert (e ≠ "") as He0 by (intros ->; discriminate He).
  unfold login. auth_simpl. rewrite !js_truthy_some by done. auth_simpl.
  unfold find_by_email. rewrite (list_find_head _ _ _ Hhd) by (simpl; rewrite He; reflexivity).
  done.
Qed.

(** C28: a token issued by [register] is accepted by [verify-token],
    which returns the new user, until 24 hours after issue, and from then
    on is answered 401 "Token expired". *)
Theorem register_then_verify boot secret now salt s b s' d :
  auth_reachable boot s → register secret now salt s b = (s', Ok d) →
  ∀ now', verify_token secret now' s' (Some (ad_token d)) =
    if clock_of now' <? clock_of now + TOKEN_TTL then Ok (ad_user d)
    else Err 401 "Token expired".
Proof.
  intros Hr Hreg now'.
  pose proof (register_wf boot secret now salt s b (reachable_auth_wf boot s Hr)) as Hwf.
  rewrite Hreg in Hwf. destruct Hwf as (_ & _ & Hnd).
  apply register_ok_inv in Hreg as (e & pw & _ & _ & _ & _ & _ & -> & ->). simpl in *.
  unfold verify_token. rewrite generateToken_nonempty.
  cbn [default from_option id negb]. rewrite generateToken_verify.
  destruct (clock_of now' <? clock_of now + TOKEN_TTL); [|done].
  - simpl.
    lazymatch goal with
    | |- context [users s ++ [?u]] =>
        pose proof (find_by_id_elem (users s ++ [u]) u Hnd) as Hfind
    end.
    cbn [u_id] in Hfind. rewrite Hfind; [done|]. apply elem_of_app. right. by apply list_elem_of_singleton.
Qed.


(** C34: [refresh-token] mints a fresh token from a correctly signed token
    of an active user however long ago it expired, while [verify-token]
    rejects the same token as expired. *)
Theorem refresh_accepts_expired boot secret now issued s u :
  auth_reachable boot s → u ∈ users s → user_active u = true →
  clock_of issued + TOKEN_TTL ≤ clock_of now →
  verify_token secret now s (Some (generateToken secret issued u)) = Err 401 "Token expired" ∧
  refresh_token secret now s (Some (generateToken secret issued u)) = Ok (generateToken secret now u).
Proof.
  intros (_ & Hid & Hnd)%reachable_auth_wf Hu Ha Hexp.
  unfold verify_token, refresh_token. rewrite generateToken_nonempty.
  cbn [default from_option id negb]. rewrite generateToken_verify.
  rewrite (proj2 (Z.ltb_ge _ _)) by lia.
  split; [done|]. simpl. rewrite generateToken_decode. simpl.
  rewrite (proj2 (Z.eqb_neq _ 0)) by (apply (proj1 (Forall_forall _ _) Hid) in Hu; lia).
  by rewrite (find_by_id_elem _ _ Hnd Hu), Ha.
Qed.

(** a token signed with another secret is answered 401 "Invalid
    token" by [verify-token] but 500 "Token refresh failed" by
    [refresh-token], which rethrows the signature error. *)
Theorem refresh_foreign_secret secret secret' now issued s u :
  secret ≠ secret' →
  verify_token secret' now s (Some (generateToken secret issued u)) = Err 401 "Invalid token" ∧
  refresh_token secret' now s (Some (generateToken secret issued u)) = Err 500 "Token refresh failed".
Proof.
  intros Hne. unfold verify_token, refresh_token. rewrite generateToken_nonempty. simpl.
  unfold generateToken. by rewrite jwt_verify_wrong_secret.
Qed.

(** registering an email that a stored user has, up to case, is
    answered 409 "User already exists" and changes nothing. *)
Theorem register_conflict secret now salt s v (e pw fn ln : string) ph :
  v ∈ users s → to_lower (u_email v) = to_lower e → isValidEmail e = true →
  (6 ≤ String.length pw)%nat → fn ≠ "" → ln ≠ "" →
  register secret now salt s (mkRegisterBody (Some e) (Some pw) (Some fn) (Some ln) ph) =
    (s, Err 409 "User already exists").
Proof.
  intros Hv He Hval Hlen Hfn Hln.
  assert (e ≠ "") as He0 by (intros ->; discriminate Hval).
  assert (pw ≠ "") as Hpw0 by (intros ->; simpl in Hlen; lia).
  unfold register, register_begin. auth_simpl. rewrite !js_truthy_some by done. auth_simpl.
  rewrite Hval, (proj2 (Nat.ltb_ge _ _) Hlen). auth_simpl.
  unfold find_by_email.
  by destruct (list_find_elem_of (λ u, to_lower (u_email u) = to_lower e) (users s) v Hv He) as [? ->].
Qed.
End Claims.

Lemma auth_ids_unique_witness :
  NoDup (u_id <$> users sample_store1) ∧ users sample_store1 !! 1%nat = Some sample_user.
Proof.
  destruct (auth_ids_unique sample_boot sample_store1 sample_store1_reachable) as (_ & Hnd & _).
  split; [exact Hnd|vm_compute; reflexivity].
Defined.

Definition sample_pending : RegPending :=
  mkRegPending "Mona@Example.com" "secret1" "Mona" "Adel" None.

Lemma register_race_duplicates_witness :
  register_begin (initial_auth sample_boot) sample_register = Ok sample_pending ∧
  ¬ NoDup ((λ u, to_lower (u_email u)) <$>
             users (register_finish sample_secret (sample_boot + 6000) 9
                      sample_store1 sample_pending).1).
Proof.
  assert (register_begin (initial_auth sample_boot) sample_register = Ok sample_pending) as Hb
    by (vm_compute; reflexivity).
  split; [exact Hb|].
  destruct (register_race_duplicates sample_boot sample_secret (sample_boot + 5000) (sample_boot + 6000)
              7 9 _ [] _ _ (rtc_refl _ _) Hb) as (_ & Hnd & _).
  exact Hnd.
Defined.

Lemma admin_login_disabled_witness :
  login sample_secret (sample_boot + 9000) sample_store1 (mkLoginBody (Some "ADMIN@KidoLand.com") (Some "admin123"))
    = (sample_store1, Err 401 "Account disabled").
Proof.
  apply (admin_login_disabled sample_boot); [exact sample_store1_reachable|reflexivity|done].
Defined.

Lemma register_then_verify_witness :
  verify_token sample_secret (sample_boot + 60000) sample_store1 (Some (ad_token sample_data))
    = Ok (ad_user sample_data) ∧
  verify_token sample_secret (sample_boot + 86400000 + 5000) sample_store1 (Some (ad_token sample_data))
    = Err 401 "Token expired".
Proof.
  pose proof (register_then_verify sample_boot sample_secret (sample_boot + 5000) 7
                (initial_auth sample_boot) sample_register sample_store1 sample_data
                (initial_auth_reachable _) sample_reg_ok) as H.
  rewrite !H. split; reflexivity.
Defined.


Lemma refresh_accepts_expired_witness :
  refresh_token sample_secret (sample_boot + 365 * 86400000) sample_store1
    (Some (generateToken sample_secret (sample_boot + 5000) sample_user))
  = Ok (generateToken sample_secret (sample_boot + 365 * 86400000) sample_user).
Proof.
  apply (refresh_accepts_expired sample_boot); [exact sample_store1_reachable|exact sample_user_elem|
    reflexivity|vm_compute; discriminate].
Defined.

Lemma refresh_foreign_secret_witness :
  refresh_token "hedeya_secret_key_2024" sample_boot sample_store1
    (Some (generateToken sample_secret sample_boot sample_user)) = Err 500 "Token refresh failed".
Proof. apply refresh_foreign_secret. unfold sample_secret, auth_secret. simpl. discriminate. Defined.

Lemma register_conflict_witness :
  register sample_secret sample_boot 3 sample_store1
    (mkRegisterBody (Some "mona@EXAMPLE.com") (Some "another1") (Some "M") (Some "A") None)
  = (sample_store1, Err 409 "User already exists").
Proof.
  apply (register_conflict _ _ _ _ sample_user); [exact sample_user_elem|reflexivity|reflexivity|
    simpl; lia|done|done].
Defined.
