(* ===== verification/Users.v ===== *)
(** * User routes

    The routes of [src/backend/routes/users.js]: the [verifyToken]
    middleware, which reads a bearer token from the [Authorization] header
    and checks it under its own default secret, and the handlers behind
    it.  The handlers keep no state: each validates its body and echoes a
    response built from the token's payload.  They are written against the
    [TokenSigner] interface of [Crypto]. *)

From S2P Require Import Prelude JsString Crypto Auth.
From Stdlib Require Import Ascii.
Local Open Scope Z_scope.

(** ** The middleware *)

(** [process.env.JWT_SECRET || 'hedeya_secret_key_2024']. *)
Definition users_secret (env : option string) : string := js_or env "hedeya_secret_key_2024".

(** [req.headers.authorization?.split(' ')[1]]. *)
Definition bearer_token (header : option string) : option string :=
  header ≫= λ h, split_on " "%char h !! 1%nat.

Section Routes.
Context `{TokenSigner}.

(** [verifyToken]: [Ok] carries the decoded payload the middleware
    stores in [req.user] before calling [next()]. *)
Definition verifyToken (env : option string) (now : Z) (header : option string) : result Claims :=
  let token := bearer_token header in
  if negb (js_truthy token) then Err 401 "Access denied" else
  match jwt_verify (default "" token) (users_secret env) (clock_of now) with
  | VerifiedOk c => Ok c
  | VerifyFailed _ => Err 401 "Invalid token"
  end.

(** ** Handlers *)

Record ProfileView := mkProfileView { pv_userId : Z; pv_email : string; pv_role : string }.

(** [GET /api/users/profile]. *)
Definition get_profile (env : option string) (now : Z) (header : option string)
    : result ProfileView :=
  c ← verifyToken env now header; mret (mkProfileView (c_userId c) (c_email c) (c_role c)).

Record ProfileUpdate := mkProfileUpdate {
  pu_userId : Z; pu_firstName : string; pu_lastName : string; pu_phone : option string;
  pu_updatedAt : Z
}.

(** [PUT /api/users/profile]. *)
Definition update_profile (env : option string) (now : Z) (header : option string)
    (firstName lastName phone : option string) : result ProfileUpdate :=
  c ← verifyToken env now header;
  if negb (js_truthy firstName && js_truthy lastName) then Err 400 "Missing required fields"
  else mret (mkProfileUpdate (c_userId c) (default "" firstName) (default "" lastName) phone now).

Record PasswordChange := mkPasswordChange { pc_userId : Z; pc_passwordChanged : bool; pc_updatedAt : Z }.

(** [PUT /api/users/change-password]: the new password is hashed and
    the hash dropped; the current password is never checked. *)
Definition change_password (env : option string) (now : Z) (header : option string)
    (currentPassword newPassword : option string) : result PasswordChange :=
  c ← verifyToken env now header;
  if negb (js_truthy currentPassword && js_truthy newPassword)
  then Err 400 "Missing required fields"
  else if (String.length (default "" newPassword) <? 6)%nat then Err 400 "Weak password"
  else mret (mkPasswordChange (c_userId c) true now).

(** A query value that is the raw string when given and the default
    number otherwise ([limit = 10, offset = 0]). *)
Inductive QueryValue := QStr (s : string) | QNum (n : Z).

Record UserOrders := mkUserOrders {
  uo_userId : Z; uo_count : Z; uo_status : option string; uo_limit : QueryValue;
  uo_offset : QueryValue
}.

(** [GET /api/users/orders]: always an empty list. *)
Definition get_user_orders (env : option string) (now : Z) (header : option string)
    (status limit offset : option string) : result UserOrders :=
  c ← verifyToken env now header;
  mret (mkUserOrders (c_userId c) 0 status (default (QNum 10) (QStr <$> limit))
          (default (QNum 0) (QStr <$> offset))).

Record Address := mkAddress {
  a_id : Z; a_type : string; a_address : string; a_city : string; a_state : option string;
  a_postalCode : string; a_country : string; a_isDefault : bool
}.

Definition demo_address : Address :=
  mkAddress 1 "home" "123 Main St" "Cairo" (Some "Cairo Governorate") "12345" "Egypt" true.

(** [GET /api/users/addresses]: a fixed address. *)
Definition get_addresses (env : option string) (now : Z) (header : option string)
    : result (Z * list Address) :=
  c ← verifyToken env now header; mret (c_userId c, [demo_address]).

Record AddressBody := mkAddressBody {
  ab_type : option string; ab_address : option string; ab_city : option string;
  ab_state : option string; ab_postalCode : option string; ab_country : option string;
  ab_isDefault : option bool
}.

Record NewAddress := mkNewAddress {
  na_addressId : Z; na_userId : Z; na_address : Address; na_createdAt : Z
}.

(** [POST /api/users/addresses]: the id is [Date.now()]; [type],
    [country] and [isDefault] default to ['other'], ['Egypt'] and
    [false]. *)
Definition add_address (env : option string) (now : Z) (header : option string)
    (b : AddressBody) : result NewAddress :=
  c ← verifyToken env now header;
  if negb (js_truthy (ab_address b) && js_truthy (ab_city b) && js_truthy (ab_postalCode b))
  then Err 400 "Missing required fields"
  else mret (mkNewAddress now (c_userId c)
               (mkAddress now (js_or (ab_type b) "other") (default "" (ab_address b))
                  (default "" (ab_city b)) (ab_state b) (default "" (ab_postalCode b))
                  (js_or (ab_country b) "Egypt")
                  (match ab_isDefault b with Some true => true | _ => false end))
               now).

(** The answer of the routes keyed by a path parameter:
    [parseInt(param)], [None] standing for [NaN], the user and the
    time. *)
Record KeyedEcho := mkKeyedEcho { ke_key : option Z; ke_userId : Z; ke_at : Z }.

(** The common body of the delete and wishlist routes. *)
Definition keyed_echo (env : option string) (now : Z) (header : option string) (param : string)
    : result KeyedEcho :=
  c ← verifyToken env now header; mret (mkKeyedEcho (js_parseInt param) (c_userId c) now).

Record AddressUpdate := mkAddressUpdate {
  au_addressId : option Z; au_userId : Z; au_updatedFields : AddressBody; au_updatedAt : Z
}.

(** [PUT /api/users/addresses/:addressId]: the body is echoed as
    [updatedFields], unvalidated. *)
Definition update_address (env : option string) (now : Z) (header : option string)
    (addressId : string) (b : AddressBody) : result AddressUpdate :=
  c ← verifyToken env now header;
  mret (mkAddressUpdate (js_parseInt addressId) (c_userId c) b now).

(** [DELETE /api/users/addresses/:addressId]. *)
Definition delete_address := keyed_echo.

(** [POST /api/users/wishlist/:productId] (answered 201). *)
Definition add_to_wishlist := keyed_echo.

(** [DELETE /api/users/wishlist/:productId]. *)
Definition remove_from_wishlist := keyed_echo.

(** [GET /api/users/wishlist]: always empty. *)
Definition get_wishlist (env : option string) (now : Z) (header : option string)
    : result (Z * Z) :=
  c ← verifyToken env now header; mret (c_userId c, 0).
End Routes.

(** ** Lemmas *)

Lemma bearer_token_app (tok : string) :
  str_forallb (λ c, negb (Ascii.eqb c " "%char)) tok = true →
  bearer_token (Some ("Bearer " +:+ tok)) = Some tok.
Proof.
  intros Htok. unfold bearer_token.
  transitivity (split_on " "%char ("Bearer" +:+ String " " tok) !! 1%nat); [reflexivity|].
  rewrite split_on_app by done. by rewrite split_on_none.
Qed.

Lemma users_secret_truthy env : js_truthy env = true → users_secret env = auth_secret env.
Proof.
  unfold users_secret, auth_secret. destruct env as [s|]; [|done]. simpl.
  by destruct (String.eqb s "").
Qed.

Lemma users_secret_default env : js_truthy env = false → users_secret env ≠ auth_secret env.
Proof.
  destruct env as [s|]; simpl; [|done]. intros Hs.
  apply negb_false_iff, String.eqb_eq in Hs as ->. done.
Qed.

(** ** Theorems *)

Section Claims.
Context `{PasswordHasher} `{TokenSigner}.

(** a token issued by the auth routes and still fresh, sent as
    [Authorization: Bearer <token>], passes the users middleware exactly
    when [JWT_SECRET] is set; with the variable unset the two modules'
    default secrets differ and every such token is answered 401 "Invalid
    token". *)
Theorem auth_token_at_users env now issued u :
  clock_of now < clock_of issued + TOKEN_TTL →
  verifyToken env now (Some ("Bearer " +:+ generateToken (auth_secret env) issued u)) =
    if js_truthy env then Ok (token_claims issued u) else Err 401 "Invalid token".
Proof.
  intros Hfresh. unfold verifyToken.
  rewrite bearer_token_app by apply jwt_sign_no_space.
  rewrite generateToken_nonempty. cbn [default from_option id negb].
  destruct (js_truthy env) eqn:Henv.
  - rewrite users_secret_truthy, generateToken_verify by done.
    by rewrite (proj2 (Z.ltb_lt _ _) Hfresh).
  - unfold generateToken. rewrite jwt_verify_wrong_secret; [done|].
    apply not_eq_sym, users_secret_default, Henv.
Qed.

(** C40: no user route answers without a valid token: whenever the
    middleware rejects the request, every handler returns the
    middleware's answer. *)
Theorem handlers_require_token env now header status error :
  verifyToken env now header = Err status error →
  (∀ fn ln ph, update_profile env now header fn ln ph = Err status error) ∧
  (∀ cur nw, change_password env now header cur nw = Err status error) ∧
  (∀ st lim off, get_user_orders env now header st lim off = Err status error) ∧
  (∀ b, add_address env now header b = Err status error) ∧
  (∀ p, keyed_echo env now header p = Err status error) ∧
  (∀ p b, update_address env now header p b = Err status error) ∧
  get_profile env now header = Err status error ∧
  get_addresses env now header = Err status error ∧
  get_wishlist env now header = Err status error.
Proof.
  intros Hv. unfold update_profile, change_password, get_user_orders, add_address,
    keyed_echo, update_address, get_profile, get_addresses, get_wishlist.
  rewrite Hv. split_and!; done.
Qed.

(** [change-password] reports success for any current password: it
    never checks it, and the new hash is dropped. *)
Theorem change_password_unchecked env now header c (cur nw : string) :
  verifyToken env now header = Ok c → cur ≠ "" → (6 ≤ String.length nw)%nat →
  change_password env now header (Some cur) (Some nw) = Ok (mkPasswordChange (c_userId c) true now).
Proof.
  intros Hv Hc Hn. assert (nw ≠ "") as Hn0 by (intros ->; simpl in Hn; lia).
  unfold change_password. rewrite Hv. unfold mbind, result_bind.
  rewrite !js_truthy_some by done. cbn [default from_option id negb andb].
  by rewrite (proj2 (Nat.ltb_ge _ _) Hn).
Qed.
End Claims.

(** ** Witnesses *)

Definition sample_header (secret : string) : option string :=
  Some ("Bearer " +:+ generateToken secret sample_boot sample_user).

Lemma handlers_require_token_witness :
  get_profile None sample_boot None = Err 401 "Access denied" ∧
  add_address None sample_boot (Some "Basic abc")
    (mkAddressBody None (Some "1 Nile St") (Some "Giza") None (Some "12611") None None)
    = Err 401 "Invalid token".
Proof.
  split.
  - apply (handlers_require_token None sample_boot None). reflexivity.
  - apply (handlers_require_token None sample_boot (Some "Basic abc")). vm_compute. reflexivity.
Defined.

Lemma change_password_unchecked_witness :
  change_password None (sample_boot + 60000) (sample_header (users_secret None))
    (Some "not-my-password") (Some "newpass1") = Ok (mkPasswordChange 2 true (sample_boot + 60000)).
Proof.
  apply (change_password_unchecked None (sample_boot + 60000) _ (token_claims sample_boot sample_user)).
  - vm_compute. reflexivity.
  - done.
  - simpl. lia.
Defined.
