(* ===== verification/Client.v ===== *)
(** * Frontend API client

    The session logic of [src/src/api/index.js]: the token and user kept
    in [localStorage] under [hedeya_token] and [hedeya_user], the
    [Authorization] header [api.request] adds from it, and the [authApi]
    functions that update it from the answers of the auth routes.  The
    network is not modelled: a call of the client is the backend handler
    it reaches, composed with the client's bookkeeping.  [JSON.stringify]
    of the stored user is kept abstract as the user view itself. *)

From S2P Require Import Prelude JsString Crypto Auth Users.
Local Open Scope Z_scope.

(** ** [localStorage] *)

Record LocalStorage := mkLocalStorage {
  hedeya_token : option string;
  hedeya_user : option UserView
}.

Definition empty_storage : LocalStorage := mkLocalStorage None None.

(** [const token = localStorage.getItem('hedeya_token'); if (token)
    config.headers.Authorization = `Bearer ${token}`]. *)
Definition auth_header (ls : LocalStorage) : option string :=
  if js_truthy (hedeya_token ls) then Some ("Bearer " +:+ default "" (hedeya_token ls)) else None.

(** [if (response.success && response.data.token)]: store the token and
    the user. *)
Definition store_session (ls : LocalStorage) (r : result AuthData) : LocalStorage :=
  match r with
  | Ok d => if js_truthy (Some (ad_token d)) then mkLocalStorage (Some (ad_token d)) (Some (ad_user d)) else ls
  | Err _ _ => ls
  end.

(** [authApi.isLoggedIn()]: [!!localStorage.getItem('hedeya_token')]. *)
Definition isLoggedIn (ls : LocalStorage) : bool := js_truthy (hedeya_token ls).

(** [authApi.getCurrentUser()]. *)
Definition getCurrentUser (ls : LocalStorage) : option UserView := hedeya_user ls.

Section Client.
Context `{PasswordHasher} `{TokenSigner}.

(** [authApi.register(userData)]: the auth route, then the session. *)
Definition client_register (secret : string) (now : Z) (salt : N) (s : AuthStore)
    (ls : LocalStorage) (b : RegisterBody) : AuthStore * LocalStorage * result AuthData :=
  let '(s', r) := register secret now salt s b in (s', store_session ls r, r).

(** [authApi.login(credentials)]. *)
Definition client_login (secret : string) (now : Z) (s : AuthStore) (ls : LocalStorage)
    (b : LoginBody) : AuthStore * LocalStorage * result AuthData :=
  let '(s', r) := login secret now s b in (s', store_session ls r, r).

(** [authApi.refreshToken(token)]: only the token is replaced. *)
Definition client_refresh (secret : string) (now : Z) (s : AuthStore) (ls : LocalStorage)
    (token : option string) : LocalStorage * result string :=
  let r := refresh_token secret now s token in
  match r with
  | Ok t => (if js_truthy (Some t) then mkLocalStorage (Some t) (hedeya_user ls) else ls, r)
  | Err _ _ => (ls, r)
  end.

(** [authApi.logout()]: the route answers, and in [finally] both keys are
    removed whatever it answered. *)
Definition client_logout (s : AuthStore) (ls : LocalStorage) : LocalStorage * result string :=
  (empty_storage, snd (logout s)).

(** [userApi.getProfile()]: [GET /users/profile] with the stored token. *)
Definition client_get_profile (env : option string) (now : Z) (ls : LocalStorage)
    : result ProfileView :=
  get_profile env now (auth_header ls).
End Client.

Lemma store_session_ok ls d :
  ad_token d ≠ "" → store_session ls (Ok d) = mkLocalStorage (Some (ad_token d)) (Some (ad_user d)).
Proof. intros Hd. unfold store_session. by rewrite js_truthy_some. Qed.

(** ** Theorems *)

Section Claims.
Context `{PasswordHasher} `{TokenSigner}.

(** C27: end to end, after a successful [authApi.login] the client is
    logged in, and within the token's 24 hours [userApi.getProfile()]
    returns the user's id, email and role exactly when [JWT_SECRET] is
    set; otherwise the users middleware answers 401 "Invalid token" to
    the token the auth routes just issued. *)
Theorem login_then_profile env now now' s ls (e pw : string) i u :
  find_by_email e (users s) = Some (i, u) → user_active u = true →
  bcrypt_compare pw (u_password u) = true → e ≠ "" → pw ≠ "" →
  clock_of now' < clock_of now + TOKEN_TTL →
  let '(s', ls', r) := client_login (auth_secret env) now s ls (mkLoginBody (Some e) (Some pw)) in
  is_ok r = true ∧ isLoggedIn ls' = true ∧
  client_get_profile env now' ls' =
    if js_truthy env then Ok (mkProfileView (u_id u) (u_email u) (role_name (u_role u)))
    else Err 401 "Invalid token".
Proof.
  intros Hf Ha Hc He Hp Hfresh.
  unfold client_login, login. cbn [lb_email lb_password default from_option id].
  rewrite !js_truthy_some by done. cbn [negb andb]. rewrite Hf, Ha, Hc. cbn [negb].
  rewrite store_session_ok by (cbn [ad_token]; apply jwt_sign_nonempty).
  split_and!; [done| |].
  - unfold isLoggedIn. cbn [hedeya_token ad_token]. apply generateToken_nonempty.
  - unfold client_get_profile, auth_header. cbn [hedeya_token ad_token].
    rewrite generateToken_nonempty. cbn [default from_option id]. unfold get_profile.
    rewrite auth_token_at_users by done. by destruct (js_truthy env).
Qed.
End Claims.

(** ** Witnesses *)

Lemma login_then_profile_witness :
  let '(s', ls', r) := client_login (auth_secret None) (sample_boot + 9000) sample_store1
                         empty_storage (mkLoginBody (Some "mona@example.com") (Some "secret1")) in
  is_ok r = true ∧ isLoggedIn ls' = true ∧
  client_get_profile None (sample_boot + 60000) ls' = Err 401 "Invalid token".
Proof.
  apply (login_then_profile None (sample_boot + 9000) (sample_boot + 60000) sample_store1
           empty_storage "mona@example.com" "secret1" 1 sample_user).
  all: vm_compute; try reflexivity; discriminate.
Defined.
