(* ===== verification/Checkout.v ===== *)
(** * Checkout page

    The state machine of [src/src/components/CheckoutPage.jsx]: the
    [step] (1 details, 2 payment, 3 confirmation), [isProcessing], the two
    forms and the cart of the cart context.  A user event is accepted only
    when the page renders the element it targets and the element is not
    disabled; the two [setTimeout] continuations of [handleSubmitOrder] are
    pending timers that fire later, in order.  The card number input goes
    through [formatCardNumber]. *)

From S2P Require Import Prelude JsString Pricing.
From Stdlib Require Import Ascii QArith.
Local Open Scope Z_scope.

(** ** [formatCardNumber] *)

(** [s.replace(re, '')] for a one-character class [re]. *)
Fixpoint str_remove (p : ascii → bool) (s : string) : string :=
  match s with
  | "" => ""
  | String c s' => if p c then str_remove p s' else String c (str_remove p s')
  end.

(** The run of digits at the head of a string. *)
Fixpoint digit_run (s : string) : string :=
  match s with
  | String c s' => if is_digit c then String c (digit_run s') else ""
  | "" => ""
  end.

(** [s.match(/\d{lo,hi}/g)[0]]: at the leftmost position where at least
    [lo] digits follow, the longest run of at most [hi] of them. *)
Fixpoint match_digits (lo hi : nat) (s : string) : option string :=
  match s with
  | "" => None
  | String _ s' =>
      let r := digit_run s in
      if (lo <=? String.length r)%nat then Some (Stdlib.Strings.String.substring 0 hi r) else match_digits lo hi s'
  end.

(** [for (i = 0; i < len; i += 4) parts.push(match.substring(i, i + 4))]. *)
Fixpoint group4 (s : string) : list string :=
  match s with
  | String a (String b (String c (String d rest))) =>
      String a (String b (String c (String d ""))) :: group4 rest
  | "" => []
  | _ => [s]
  end.

Definition formatCardNumber (value : string) : string :=
  let v := str_remove (λ c, negb (is_digit c)) (str_remove is_js_space value) in
  let m := default "" (match_digits 4 16 v) in
  match group4 m with
  | [] => v
  | parts => str_join " " parts
  end.

(** ** State *)

Record CustomerForm := mkCustomerForm {
  cf_firstName : string; cf_lastName : string; cf_email : string; cf_phone : string;
  cf_address : string; cf_city : string; cf_zipCode : string; cf_country : string
}.

Inductive CustomerField := FirstName | LastName | Email | Phone | Address | City | ZipCode | Country.

(** [setCustomerInfo({...customerInfo, [e.target.name]: e.target.value})]. *)
Definition set_customer (f : CustomerField) (v : string) (c : CustomerForm) : CustomerForm :=
  let '(mkCustomerForm fn ln em ph ad ci zi co) := c in
  match f with
  | FirstName => mkCustomerForm v ln em ph ad ci zi co
  | LastName => mkCustomerForm fn v em ph ad ci zi co
  | Email => mkCustomerForm fn ln v ph ad ci zi co
  | Phone => mkCustomerForm fn ln em v ad ci zi co
  | Address => mkCustomerForm fn ln em ph v ci zi co
  | City => mkCustomerForm fn ln em ph ad v zi co
  | ZipCode => mkCustomerForm fn ln em ph ad ci v co
  | Country => mkCustomerForm fn ln em ph ad ci zi v
  end.

Record PaymentForm := mkPaymentForm {
  pf_cardNumber : string; pf_expiryDate : string; pf_cvv : string;
  pf_cardholderName : string; pf_paymentMethod : string
}.

(** The payment inputs wired to [handlePaymentInfoChange]; the card number
    has its own handler. *)
Inductive PaymentField := ExpiryDate | Cvv | CardholderName | PaymentMethod.

Definition set_payment (f : PaymentField) (v : string) (p : PaymentForm) : PaymentForm :=
  let '(mkPaymentForm cn ex cv ch pm) := p in
  match f with
  | ExpiryDate => mkPaymentForm cn v cv ch pm
  | Cvv => mkPaymentForm cn ex v ch pm
  | CardholderName => mkPaymentForm cn ex cv v pm
  | PaymentMethod => mkPaymentForm cn ex cv ch v
  end.

(** The continuations [handleSubmitOrder] schedules: the end of the
    simulated payment (after 2 s) and [clearCart()] (3 s later). *)
Inductive Timer := PaymentDone | ClearCart.

Record Checkout := mkCheckout {
  step : Z;
  isProcessing : bool;
  customerInfo : CustomerForm;
  paymentInfo : PaymentForm;
  cartItems : list CartItem;
  pending : list Timer
}.

Definition initial_customer : CustomerForm := mkCustomerForm "" "" "" "" "" "" "" "United States".
Definition initial_payment : PaymentForm := mkPaymentForm "" "" "" "" "card".

Definition initial_checkout (cart : list CartItem) : Checkout :=
  mkCheckout 1 false initial_customer initial_payment cart [].

#[export] Instance Timer_eq_dec : EqDecision Timer.
Proof. solve_decision. Defined.

(** ** Events *)

Inductive Event :=
| ChangeCustomer (f : CustomerField) (v : string)
| ChangePayment (f : PaymentField) (v : string)
| InputCardNumber (raw : string)
| ClickNext
| ClickBack
| ClickSubmit
| CartChanged (items : list CartItem)
| Fire.

(** [if (cartItems.length === 0 && step < 3)]: the empty-cart page
    replaces the checkout. *)
Definition shows_empty_cart (s : Checkout) : bool :=
  bool_decide (length (cartItems s) = 0%nat) && (step s <? 3).

(** The form of step [n] is on screen. *)
Definition form_shown (s : Checkout) (n : Z) : bool :=
  negb (shows_empty_cart s) && (step s =? n).

(** [disabled={!customerInfo.firstName || !customerInfo.lastName || !customerInfo.email}]. *)
Definition next_disabled (s : Checkout) : bool :=
  String.eqb (cf_firstName (customerInfo s)) "" || String.eqb (cf_lastName (customerInfo s)) "" ||
  String.eqb (cf_email (customerInfo s)) "".

(** [disabled={isProcessing || !paymentInfo.cardNumber || !paymentInfo.cvv}]. *)
Definition submit_disabled (s : Checkout) : bool :=
  isProcessing s || String.eqb (pf_cardNumber (paymentInfo s)) "" ||
  String.eqb (pf_cvv (paymentInfo s)) "".

Definition with_step (n : Z) (s : Checkout) : Checkout :=
  mkCheckout n (isProcessing s) (customerInfo s) (paymentInfo s) (cartItems s) (pending s).

Definition handleNextStep (s : Checkout) : Checkout :=
  if step s <? 3 then with_step (step s + 1) s else s.

Definition handlePrevStep (s : Checkout) : Checkout :=
  if 1 <? step s then with_step (step s - 1) s else s.

(** [setIsProcessing(true)], then the payment continuation is pending. *)
Definition handleSubmitOrder (s : Checkout) : Checkout :=
  mkCheckout (step s) true (customerInfo s) (paymentInfo s) (cartItems s) (pending s ++ [PaymentDone]).

(** A continuation of [handleSubmitOrder]: [setIsProcessing(false);
    setStep(3)] and the [clearCart] timer, or [clearCart()]. *)
Definition run_timer (t : Timer) (s : Checkout) : Checkout :=
  match t with
  | PaymentDone => mkCheckout 3 false (customerInfo s) (paymentInfo s) (cartItems s) (pending s ++ [ClearCart])
  | ClearCart => mkCheckout (step s) (isProcessing s) (customerInfo s) (paymentInfo s) [] (pending s)
  end.

(** One event; [None] when the page does not offer it. *)
Definition checkout_step (s : Checkout) (e : Event) : option Checkout :=
  match e with
  | ChangeCustomer f v =>
      if form_shown s 1 then
        Some (mkCheckout (step s) (isProcessing s) (set_customer f v (customerInfo s))
                (paymentInfo s) (cartItems s) (pending s))
      else None
  | ChangePayment f v =>
      if form_shown s 2 then
        Some (mkCheckout (step s) (isProcessing s) (customerInfo s)
                (set_payment f v (paymentInfo s)) (cartItems s) (pending s))
      else None
  | InputCardNumber raw =>
      if form_shown s 2 then
        let p := paymentInfo s in
        Some (mkCheckout (step s) (isProcessing s) (customerInfo s)
                (mkPaymentForm (formatCardNumber raw) (pf_expiryDate p) (pf_cvv p)
                   (pf_cardholderName p) (pf_paymentMethod p)) (cartItems s) (pending s))
      else None
  | ClickNext => if form_shown s 1 && negb (next_disabled s) then Some (handleNextStep s) else None
  | ClickBack => if form_shown s 2 then Some (handlePrevStep s) else None
  | ClickSubmit =>
      if form_shown s 2 && negb (submit_disabled s) then Some (handleSubmitOrder s) else None
  | CartChanged items =>
      Some (mkCheckout (step s) (isProcessing s) (customerInfo s) (paymentInfo s) items (pending s))
  | Fire =>
      match pending s with
      | t :: rest =>
          Some (run_timer t (mkCheckout (step s) (isProcessing s) (customerInfo s) (paymentInfo s)
                               (cartItems s) rest))
      | [] => None
      end
  end.

Fixpoint run_events (s : Checkout) (es : list Event) : option Checkout :=
  match es with
  | [] => Some s
  | e :: es' => checkout_step s e ≫= λ s', run_events s' es'
  end.

Inductive checkout_reach (cart : list CartItem) : Checkout → Prop :=
| reach_init : checkout_reach cart (initial_checkout cart)
| reach_step s e s' : checkout_reach cart s → checkout_step s e = Some s' → checkout_reach cart s'.

(** ** Invariant *)

Definition payments_pending (l : list Timer) : nat := length (filter (λ t, t = PaymentDone) l).

(** The step stays in 1..3, [isProcessing] is set exactly while the payment
    continuation is pending, at most one payment is pending, the
    confirmation is never shown while processing, and [clearCart] is only
    pending once the confirmation is shown. *)
Definition checkout_wf (s : Checkout) : Prop :=
  1 ≤ step s ≤ 3 ∧
  isProcessing s = bool_decide (0 < payments_pending (pending s))%nat ∧
  (payments_pending (pending s) ≤ 1)%nat ∧
  (step s = 3 → isProcessing s = false) ∧
  (step s < 3 → ClearCart ∉ pending s).

Lemma payments_pending_app l l' : payments_pending (l ++ l') = (payments_pending l + payments_pending l')%nat.
Proof. unfold payments_pending. by rewrite filter_app, length_app. Qed.

Lemma payments_pending_cons t l :
  payments_pending (t :: l) = ((if t is PaymentDone then 1 else 0) + payments_pending l)%nat.
Proof. unfold payments_pending. rewrite filter_cons. by destruct t; case_decide. Qed.

Lemma payments_pending_PaymentDone : payments_pending [PaymentDone] = 1%nat.
Proof. reflexivity. Qed.

Lemma payments_pending_ClearCart : payments_pending [ClearCart] = 0%nat.
Proof. reflexivity. Qed.

Lemma form_shown_step s n : form_shown s n = true → step s = n.
Proof. unfold form_shown. intros [_ ?%Z.eqb_eq]%andb_prop. done. Qed.

Lemma checkout_step_wf s e s' : checkout_wf s → checkout_step s e = Some s' → checkout_wf s'.
Proof.
  intros (Hst & Hproc & Hone & H3 & Hcc) Hs. unfold checkout_wf.
  destruct e; simpl in Hs.
  - destruct (form_shown s 1); simplify_eq/=. done.
  - destruct (form_shown s 2); simplify_eq/=. done.
  - destruct (form_shown s 2); simplify_eq/=. done.
  - destruct (form_shown s 1) eqn:Hf; simpl in Hs; [|done].
    apply form_shown_step in Hf. destruct (negb _); simplify_eq/=.
    unfold handleNextStep. rewrite Hf. simpl.
    split_and!; try done; try lia. intros _. apply Hcc. lia.
  - destruct (form_shown s 2) eqn:Hf; simplify_eq/=.
    apply form_shown_step in Hf. unfold handlePrevStep. rewrite Hf. simpl.
    split_and!; try done; try lia. intros _. apply Hcc. lia.
  - destruct (form_shown s 2) eqn:Hf; simpl in Hs; [|done].
    apply form_shown_step in Hf. unfold submit_disabled in Hs.
    destruct (isProcessing s) eqn:Hp; simpl in Hs; [done|].
    destruct (negb _); simplify_eq/=.
    symmetry in Hproc. apply bool_decide_eq_false in Hproc.
    cbn [step isProcessing pending]. rewrite payments_pending_app, payments_pending_PaymentDone.
    split_and!; [lia|lia| |lia|intros; lia|].
    + symmetry. apply bool_decide_eq_true. lia.
    + intros _ [?|?%list_elem_of_singleton]%elem_of_app; [|done]. apply Hcc; [lia|done].
  - simplify_eq/=. done.
  - destruct (pending s) as [|t rest] eqn:Hpend; [done|]. simplify_eq/=.
    rewrite payments_pending_cons in Hproc, Hone.
    destruct t; cbn [step isProcessing pending run_timer].
    + rewrite payments_pending_app, payments_pending_ClearCart.
      split_and!; [lia|lia| |lia|done|lia].
      symmetry. apply bool_decide_eq_false. lia.
    + split_and!; [lia|lia|done|lia|done|].
      intros Hlt. destruct (Hcc Hlt). by left.
Qed.

Lemma checkout_reach_wf cart s : checkout_reach cart s → checkout_wf s.
Proof.
  induction 1 as [|s e s' _ IH Hs]; [|by eapply checkout_step_wf].
  unfold checkout_wf, payments_pending. simpl. split_and!; try done; [lia|].
  intros _. apply not_elem_of_nil.
Qed.

Lemma run_events_reach cart s es s' :
  checkout_reach cart s → run_events s es = Some s' → checkout_reach cart s'.
Proof.
  revert s. induction es as [|e es IH]; intros s Hr Hrun; simpl in Hrun; [by simplify_eq|].
  destruct (checkout_step s e) as [s1|] eqn:Hs; simpl in Hrun; [|done].
  apply (IH s1); [by eapply reach_step|done].
Qed.

Lemma idle_step2_pending s : checkout_wf s → step s < 3 → isProcessing s = false → pending s = [].
Proof.
  intros (_ & Hproc & _ & _ & Hcc) Hlt Hp. rewrite Hp in Hproc.
  symmetry in Hproc. apply bool_decide_eq_false in Hproc.
  destruct (pending s) as [|[] rest] eqn:Hpend; [done| |].
  - rewrite payments_pending_cons in Hproc. lia.
  - destruct (Hcc Hlt). by left.
Qed.

Lemma form2_cart s : form_shown s 2 = true → bool_decide (length (cartItems s) = 0%nat) = false.
Proof.
  unfold form_shown, shows_empty_cart. intros [Hn Hs]%andb_prop. apply Z.eqb_eq in Hs.
  rewrite Hs in Hn. by destruct (bool_decide _).
Qed.

(** Each [Fire] takes one timer off the queue, and a payment puts one
    [clearCart] back: the number of [Fire]s left to run. *)
Definition timers_left (l : list Timer) : nat := (length l + payments_pending l)%nat.

Lemma fire_step s t rest :
  pending s = t :: rest →
  checkout_step s Fire = Some (run_timer t (mkCheckout (step s) (isProcessing s) (customerInfo s)
                                              (paymentInfo s) (cartItems s) rest)).
Proof. intros Hp. simpl. by rewrite Hp. Qed.

(** Firing exactly [timers_left] timers empties the queue, from any state:
    the cart is cleared when a timer was queued, and a queued payment ends
    on the confirmation, no longer processing. *)
Lemma fire_all s :
  ∃ s', run_events s (repeat Fire (timers_left (pending s))) = Some s' ∧ pending s' = [] ∧
    (pending s ≠ [] → cartItems s' = []) ∧
    ((0 < payments_pending (pending s))%nat → step s' = 3 ∧ isProcessing s' = false) ∧
    (payments_pending (pending s) = 0%nat → step s' = step s ∧ isProcessing s' = isProcessing s).
Proof.
  remember (timers_left (pending s)) as n eqn:Hn. revert s Hn.
  induction n as [|n IH]; intros s Hn.
  { destruct (pending s) as [|t l] eqn:Hp; [|unfold timers_left in Hn; simpl in Hn; lia].
    exists s. unfold payments_pending. rewrite Hp. simpl. split_and!; done || lia. }
  destruct (pending s) as [|t rest] eqn:Hp; [unfold timers_left in Hn; done|].
  cbn [repeat run_events]. rewrite (fire_step s t rest Hp). cbn [mbind option_bind].
  unfold timers_left in Hn. rewrite payments_pending_cons in Hn. cbn [length] in Hn.
  rewrite payments_pending_cons.
  destruct t; cbn [run_timer pending step isProcessing cartItems].
  - destruct (IH (mkCheckout 3 false (customerInfo s) (paymentInfo s) (cartItems s) (rest ++ [ClearCart])))
      as (s' & Hrun & Hp' & Hc & H3 & H0).
    { unfold timers_left. cbn [pending]. rewrite length_app, payments_pending_app,
        payments_pending_ClearCart. simpl. lia. }
    cbn [pending] in *. rewrite !payments_pending_app, !payments_pending_ClearCart in H3. rewrite !payments_pending_app, !payments_pending_ClearCart in H0.
    exists s'. split_and!; try done.
    + intros _. apply Hc. by destruct rest.
    + intros _. destruct (decide (payments_pending rest = 0%nat)) as [Hz|Hz].
      * apply H0. lia.
      * apply H3. lia.
  - destruct (IH (mkCheckout (step s) (isProcessing s) (customerInfo s) (paymentInfo s) [] rest))
      as (s' & Hrun & Hp' & Hc & H3 & H0); [unfold timers_left; simpl; lia|].
    exists s'. split_and!; try done.
    + intros _. destruct rest as [|t' rest']; [|by apply Hc].
      assert (n = 0%nat) as -> by (unfold payments_pending in Hn; simpl in Hn; lia).
      simpl in Hrun. by simplify_eq.
Qed.

(** ** [formatCardNumber] lemmas *)

Lemma str_remove_app (p : ascii → bool) a b : str_remove p (a +:+ b) = str_remove p a +:+ str_remove p b.
Proof. induction a as [|c a IH]; simpl; [done|]. destruct (p c); by rewrite IH. Qed.

Lemma str_remove_id (p : ascii → bool) s : str_forallb (λ c, negb (p c)) s = true → str_remove p s = s.
Proof.
  induction s as [|c s IH]; simpl; [done|]. intros [Hc Hs]%andb_prop.
  apply negb_true_iff in Hc. by rewrite Hc, IH.
Qed.

Lemma str_remove_digits s : str_forallb is_digit (str_remove (λ c, negb (is_digit c)) s) = true.
Proof.
  induction s as [|c s IH]; simpl; [done|]. destruct (is_digit c) eqn:Hc; simpl; [|done].
  by rewrite Hc, IH.
Qed.

Lemma digit_run_all s : str_forallb is_digit s = true → digit_run s = s.
Proof. induction s as [|c s IH]; simpl; [done|]. intros [-> Hs]%andb_prop. by rewrite IH. Qed.

(** On a string of digits the expression matches its first 16 digits,
    when it has at least 4. *)
Lemma match_digits_all v :
  str_forallb is_digit v = true →
  match_digits 4 16 v =
    if (4 <=? String.length v)%nat then Some (Stdlib.Strings.String.substring 0 16 v) else None.
Proof.
  induction v as [|c v IH]; [done|]. intros Hv. cbn [match_digits].
  rewrite (digit_run_all _ Hv). destruct (4 <=? String.length (String c v))%nat eqn:Hl; [done|].
  simpl in Hv. apply andb_prop in Hv as [_ Hv]. rewrite IH by done.
  apply Nat.leb_gt in Hl. simpl in Hl. by rewrite (proj2 (Nat.leb_gt _ _)) by lia.
Qed.

Lemma substring_take_length n s :
  String.length (Stdlib.Strings.String.substring 0 n s) = Nat.min n (String.length s).
Proof. revert s. induction n as [|n IH]; intros [|c s]; simpl; auto. Qed.

Lemma substring_take_digits n s :
  str_forallb is_digit s = true → str_forallb is_digit (Stdlib.Strings.String.substring 0 n s) = true.
Proof.
  revert s. induction n as [|n IH]; intros [|c s]; simpl; auto.
  intros [-> Hs]%andb_prop. by apply IH.
Qed.

Lemma substring_take_idem n s :
  Stdlib.Strings.String.substring 0 n (Stdlib.Strings.String.substring 0 n s) =
  Stdlib.Strings.String.substring 0 n s.
Proof. revert s. induction n as [|n IH]; intros [|c s]; simpl; auto. by rewrite IH. Qed.

(** Induction following the groups of four of [group4]. *)
Lemma group4_ind (P : string → Prop) :
  P "" → (∀ s, (String.length s < 4)%nat → P s) →
  (∀ a b c d rest, P rest → P (String a (String b (String c (String d rest))))) → ∀ s, P s.
Proof.
  intros H0 Hshort H4 s. remember (String.length s) as n eqn:Hn. revert s Hn.
  induction n as [n IH] using lt_wf_ind. intros s ->.
  destruct s as [|a [|b [|c [|d rest]]]]; try (apply Hshort; simpl; lia).
  apply H4. apply (IH (String.length rest)); [simpl; lia|done].
Qed.

Lemma group4_short s : (String.length s < 4)%nat → s ≠ "" → group4 s = [s].
Proof. destruct s as [|a [|b [|c [|d rest]]]]; simpl; intros; try lia; done. Qed.

Lemma digit_not_space c : is_digit c = true → is_js_space c = false.
Proof. by destruct c as [[] [] [] [] [] [] [] []]. Qed.

Lemma str_remove_space_digits m : str_forallb is_digit m = true → str_remove is_js_space m = m.
Proof.
  intros Hd. apply str_remove_id. eapply str_forallb_impl; [|exact Hd].
  intros ch Hc. by rewrite digit_not_space.
Qed.

Lemma group4_nil s : group4 s = [] → s = "".
Proof. by destruct s as [|a [|b [|c [|d rest]]]]. Qed.

(** Removing the separators from the groups gives the digits back. *)
Lemma str_remove_group4 m :
  str_forallb is_digit m = true → str_remove is_js_space (str_join " " (group4 m)) = m.
Proof.
  induction m as [|m Hlen|a b c d rest IH] using group4_ind; [done| |].
  - destruct (decide (m = "")) as [->|Hne]; [done|]. rewrite group4_short by done.
    apply str_remove_space_digits.
  - intros Hd. simpl in Hd.
    apply andb_prop in Hd as [Ha Hd]. apply andb_prop in Hd as [Hb Hd].
    apply andb_prop in Hd as [Hc Hd]. apply andb_prop in Hd as [Hdd Hr].
    assert (str_forallb is_digit (String a (String b (String c (String d "")))) = true) as Hd4
      by (simpl; by rewrite Ha, Hb, Hc, Hdd).
    cbn [group4]. destruct (group4 rest) as [|g gs] eqn:Hg.
    + apply group4_nil in Hg as ->. by apply str_remove_space_digits.
    + rewrite str_join_cons2, !str_remove_app, IH, (str_remove_space_digits _ Hd4) by done.
      reflexivity.
Qed.

(** Each group of four adds at most one separator. *)
Lemma group4_join_length m :
  m ≠ "" → (4 * (String.length (str_join " " (group4 m)) + 1) ≤ 5 * String.length m + 3)%nat.
Proof.
  induction m as [|m Hlen|a b c d rest IH] using group4_ind; [done| |].
  - intros Hne. rewrite group4_short by done. simpl.
    destruct m; [done|]. simpl. lia.
  - intros _. cbn [group4]. destruct (group4 rest) as [|g gs] eqn:Hg.
    + simpl. lia.
    + rewrite str_join_cons2, !str_length_app.
      assert (rest ≠ "") as Hr by (intros ->; discriminate Hg).
      specialize (IH Hr). cbn [String.length]. lia.
Qed.

(** [formatCardNumber] on the digits [v] of its input. *)
Definition card_digits (value : string) : string :=
  str_remove (λ c, negb (is_digit c)) (str_remove is_js_space value).

Lemma formatCardNumber_spec value :
  formatCardNumber value =
    let v := card_digits value in
    if (4 <=? String.length v)%nat then str_join " " (group4 (Stdlib.Strings.String.substring 0 16 v))
    else v.
Proof.
  unfold formatCardNumber. fold (card_digits value). cbv zeta.
  rewrite match_digits_all by apply str_remove_digits.
  destruct (4 <=? String.length (card_digits value))%nat eqn:Hl;
    cbn [default from_option id]; [|done].
  apply Nat.leb_le in Hl.
  destruct (group4 _) as [|g [|g' gs]] eqn:Hg; [|done|done].
  apply group4_nil in Hg. apply (f_equal String.length) in Hg.
  rewrite substring_take_length in Hg. cbn [String.length] in Hg. lia.
Qed.

Lemma card_digits_digits value : str_forallb is_digit (card_digits value) = true.
Proof. apply str_remove_digits. Qed.

Lemma str_remove_nondigit_id m :
  str_forallb is_digit m = true → str_remove (λ c, negb (is_digit c)) m = m.
Proof. intros Hd. apply str_remove_id. eapply str_forallb_impl; [|exact Hd]. intros ch ->. done. Qed.

Lemma card_digits_id m : str_forallb is_digit m = true → card_digits m = m.
Proof.
  intros Hd. unfold card_digits. rewrite (str_remove_space_digits _ Hd).
  by apply str_remove_nondigit_id.
Qed.

Lemma card_digits_group4 m : str_forallb is_digit m = true → card_digits (str_join " " (group4 m)) = m.
Proof.
  intros Hd. unfold card_digits. rewrite str_remove_group4 by done. by apply str_remove_nondigit_id.
Qed.

(** ** Theorems *)

(** C16: the Place Order button cannot start a second payment: in every
    reachable state it is accepted only when no payment is pending, and
    afterwards exactly one is. *)
Theorem submit_at_most_once cart s s' :
  checkout_reach cart s → checkout_step s ClickSubmit = Some s' →
  payments_pending (pending s) = 0%nat ∧ payments_pending (pending s') = 1%nat ∧
  isProcessing s' = true.
Proof.
  intros Hr Hs. destruct (checkout_reach_wf cart s Hr) as (_ & Hproc & _).
  simpl in Hs. destruct (form_shown s 2); simpl in Hs; [|done].
  unfold submit_disabled in Hs. destruct (isProcessing s) eqn:Hp; simpl in Hs; [done|].
  destruct (negb _); simplify_eq/=.
  symmetry in Hproc. apply bool_decide_eq_false in Hproc.
  rewrite payments_pending_app, payments_pending_PaymentDone. split_and!; [lia|lia|done].
Qed.

(** C19: once the order is placed, the confirmation comes: from every
    reachable state, firing the pending [setTimeout] callbacks, as many as
    [timers_left] counts, empties the queue and leaves the page not
    processing; a payment that was running ends on the confirmation step,
    and the cart is cleared whenever a timer was pending. *)
Theorem checkout_timers_complete cart s :
  checkout_reach cart s →
  ∃ s', run_events s (repeat Fire (timers_left (pending s))) = Some s' ∧ pending s' = [] ∧
    isProcessing s' = false ∧ (pending s ≠ [] → cartItems s' = []) ∧
    (isProcessing s = true → step s' = 3).
Proof.
  intros Hr. destruct (checkout_reach_wf cart s Hr) as (_ & Hproc & _).
  destruct (fire_all s) as (s' & Hrun & Hp & Hc & H3 & H0).
  exists s'. split_and!; try done.
  - destruct (decide (payments_pending (pending s) = 0%nat)) as [Hz|Hz].
    + rewrite (proj2 (H0 Hz)), Hproc. apply bool_decide_eq_false. lia.
    + apply H3. lia.
  - intros Hpr. apply H3. rewrite Hpr in Hproc. symmetry in Hproc.
    by apply bool_decide_eq_true in Hproc.
Qed.

(** C35: the confirmation does not re-check the forms: from a payment form
    ready to submit, placing the order, going back to the shipping form
    while the payment runs and clearing the email reaches the
    confirmation with an empty email. *)
Theorem confirm_after_clearing_email cart s :
  checkout_reach cart s → form_shown s 2 = true → submit_disabled s = false →
  ∃ s', run_events s [ClickSubmit; ClickBack; ChangeCustomer Email ""; Fire] = Some s' ∧
    step s' = 3 ∧ cf_email (customerInfo s') = "" ∧ pending s' = [ClearCart].
Proof.
  intros Hr Hf Hd. pose proof (checkout_reach_wf cart s Hr) as Hwf.
  pose proof (form_shown_step _ _ Hf) as Hst. pose proof (form2_cart _ Hf) as Hc.
  assert (isProcessing s = false) as Hp.
  { unfold submit_disabled in Hd. by destruct (isProcessing s). }
  pose proof (idle_step2_pending s Hwf ltac:(lia) Hp) as Hpend.
  simpl. rewrite Hf, Hd. simpl.
  destruct s as [st pr ci pi ca pe]; cbn in Hst, Hp, Hpend, Hc; subst.
  unfold handleSubmitOrder, handlePrevStep, form_shown, shows_empty_cart. cbn.
  rewrite Hc. cbn. rewrite Hc. cbn. destruct ci. eexists. split; [reflexivity|]. done.
Qed.

(** the Next button checks only the names and the email: with those
    non-empty it moves to the payment form whatever the address, city and
    zip code, all marked required. *)
Theorem next_ignores_address s :
  form_shown s 1 = true → cf_firstName (customerInfo s) ≠ "" →
  cf_lastName (customerInfo s) ≠ "" → cf_email (customerInfo s) ≠ "" →
  checkout_step s ClickNext = Some (with_step 2 s).
Proof.
  intros Hf H1 H2 H3. simpl. rewrite Hf. unfold next_disabled.
  rewrite (proj2 (String.eqb_neq _ _) H1), (proj2 (String.eqb_neq _ _) H2),
    (proj2 (String.eqb_neq _ _) H3). simpl.
  unfold handleNextStep. by rewrite (form_shown_step _ _ Hf).
Qed.

(** C23: [formatCardNumber] is idempotent, so re-formatting the formatted
    value on the next keystroke changes nothing, and its result never
    exceeds the 19 characters of the input's [maxLength]. *)
Theorem formatCardNumber_idem value :
  formatCardNumber (formatCardNumber value) = formatCardNumber value ∧
  (String.length (formatCardNumber value) ≤ 19)%nat.
Proof.
  pose proof (card_digits_digits value) as Hv.
  rewrite (formatCardNumber_spec value). cbv zeta.
  destruct (4 <=? String.length (card_digits value))%nat eqn:Hl.
  - apply Nat.leb_le in Hl.
    set (m := Stdlib.Strings.String.substring 0 16 (card_digits value)).
    assert (str_forallb is_digit m = true) as Hm by by apply substring_take_digits.
    assert (String.length m = Nat.min 16 (String.length (card_digits value))) as Hlm
      by apply substring_take_length.
    assert (m ≠ "") as Hne by (intros Hm0; rewrite Hm0 in Hlm; cbn [String.length] in Hlm; lia).
    rewrite formatCardNumber_spec. cbv zeta. rewrite card_digits_group4 by done.
    rewrite (proj2 (Nat.leb_le 4 (String.length m))) by lia.
    split; [unfold m; by rewrite substring_take_idem|].
    pose proof (group4_join_length m Hne). lia.
  - apply Nat.leb_gt in Hl. rewrite formatCardNumber_spec. cbv zeta.
    rewrite card_digits_id, (proj2 (Nat.leb_gt _ _) Hl) by done. split; [done|lia].
Qed.

(** ** Witnesses *)

Definition sample_cart : list CartItem := [mkCartItem (Some "1") (Some "Float") (8999 # 100)%Q 1%Q None].

Definition sample_events : list Event :=
  [ChangeCustomer FirstName "Mona"; ChangeCustomer LastName "Adel";
   ChangeCustomer Email "mona@example.com"; ClickNext;
   InputCardNumber "4111111111111111"; ChangePayment Cvv "123"].

Definition sample_checkout : option Checkout := run_events (initial_checkout sample_cart) sample_events.

Definition sample_ready : Checkout := default (initial_checkout []) sample_checkout.

Lemma sample_ready_reach : checkout_reach sample_cart sample_ready.
Proof.
  apply (run_events_reach sample_cart (initial_checkout sample_cart) sample_events); [apply reach_init|].
  vm_compute. reflexivity.
Qed.

Lemma submit_at_most_once_witness :
  ∃ s', checkout_step sample_ready ClickSubmit = Some s' ∧ payments_pending (pending s') = 1%nat.
Proof.
  eexists. split; [vm_compute; reflexivity|].
  eapply (submit_at_most_once sample_cart sample_ready); [exact sample_ready_reach|].
  vm_compute. reflexivity.
Defined.

Lemma checkout_timers_complete_witness :
  match checkout_step sample_ready ClickSubmit with
  | Some s1 => ∃ s', run_events s1 (repeat Fire (timers_left (pending s1))) = Some s' ∧
                 step s' = 3 ∧ cartItems s' = []
  | None => False
  end.
Proof.
  destruct (checkout_step sample_ready ClickSubmit) as [s1|] eqn:E; [|vm_compute in E; discriminate].
  destruct (checkout_timers_complete sample_cart s1) as (s' & Hrun & _ & _ & Hc & H3).
  { eapply reach_step; [exact sample_ready_reach|exact E]. }
  exists s'. split_and!; [exact Hrun| |].
  - apply H3. vm_compute in E. injection E as <-. reflexivity.
  - apply Hc. vm_compute in E. injection E as <-. discriminate.
Defined.

Lemma confirm_after_clearing_email_witness :
  ∃ s', run_events sample_ready [ClickSubmit; ClickBack; ChangeCustomer Email ""; Fire] = Some s' ∧
    step s' = 3 ∧ cf_email (customerInfo s') = "".
Proof.
  destruct (confirm_after_clearing_email sample_cart sample_ready sample_ready_reach
              ltac:(vm_compute; reflexivity) ltac:(vm_compute; reflexivity))
    as (s' & Hrun & H3 & He & _).
  by exists s'.
Defined.

Lemma next_ignores_address_witness :
  checkout_step (with_step 1 sample_ready) ClickNext = Some (with_step 2 (with_step 1 sample_ready)) ∧
  cf_address (customerInfo sample_ready) = "".
Proof.
  split; [|vm_compute; reflexivity].
  apply next_ignores_address; vm_compute; [reflexivity|discriminate|discriminate|discriminate].
Defined.
