(* ===== verification/Schema.v ===== *)
(** * Relational models

    The Sequelize declarations of [src/backend/models/Order.js],
    [OrderItem.js] and [Address.js], and what [Model.create] does with the
    values it is given: [build] fills the [defaultValue] of every
    attribute the values leave undefined, the instance validator reports
    an explicit [allowNull: false] attribute that is null or undefined and
    an object in a string column, then runs the [validate] rules
    ([min], [notEmpty]) on the string form of each non-null value, and
    PostgreSQL refuses a value outside an [ENUM] type when the row is
    inserted.  The column types other than [ENUM] are not checked (the
    database's input conversion is not modelled), nor are the unique
    indexes and the foreign keys.  No route of the repository calls
    [Model.create] on these models (the order routes keep an in-memory
    array); the file holds the declarations and compares them with what
    the in-memory routes accept. *)

From S2P Require Import Prelude JsString Money Pricing Orders.
From Stdlib Require Import QArith Ascii.
Local Open Scope Z_scope.

(** ** JSON values and rows *)

Inductive JsValue :=
| JNull
| JBool (b : bool)
| JNumber (q : Q)
| JString (s : string)
| JObject (fields : list (string * JsValue)).

(** The values object given to [Model.create]: a JavaScript object, a key
    absent from the list being [undefined]. *)
Definition Row := list (string * JsValue).

Fixpoint row_get (r : Row) (k : string) : option JsValue :=
  match r with
  | [] => None
  | (k', v) :: r' => if String.eqb k k' then Some v else row_get r' k
  end.

(** ** [parseFloat] *)

(** A number read by [parseFloat]: finite, or an infinity of a sign. *)
Inductive JsFloat := FFinite (q : Q) | FInfinity (positive : bool).

(** The longest prefix of decimal digits: its value, its length and the
    rest of the string. *)
Fixpoint decimal_digits (s : string) (acc : Z) (n : nat) : Z * nat * string :=
  match s with
  | String c s' =>
      if is_digit c then decimal_digits s' (acc * 10 + (Z.of_nat (nat_of_ascii c) - 48)) (S n)
      else (acc, n, s)
  | "" => (acc, n, "")
  end.

(** An optional exponent [e], [E] with an optional sign and at least one
    digit; [0] when there is none. *)
Definition exponent_part (s : string) : Z :=
  match s with
  | String c r =>
      if Ascii.eqb c "e" || Ascii.eqb c "E" then
        let '(sg, r') :=
          match r with
          | String d r' => if Ascii.eqb d "+" then (1, r') else if Ascii.eqb d "-" then (-1, r')
                           else (1, r)
          | "" => (1, r)
          end in
        let '(e, n, _) := decimal_digits r' 0 0 in if (n =? 0)%nat then 0 else sg * e
      else 0
  | "" => 0
  end.

(** The longest prefix that is [Infinity] or a decimal literal: digits,
    an optional fraction, an optional exponent, at least one digit before
    the exponent. *)
Definition parse_unsigned_float (s : string) : option JsFloat :=
  if String.prefix "Infinity" s then Some (FInfinity true) else
  let '(ip, ni, r1) := decimal_digits s 0 0 in
  let '(fp, nf, r2) :=
    match r1 with
    | String c r => if Ascii.eqb c "." then decimal_digits r 0 0 else (0, 0%nat, r1)
    | "" => (0, 0%nat, r1)
    end in
  if (ni + nf =? 0)%nat then None
  else Some (FFinite ((inject_Z ip + inject_Z fp / inject_Z (10 ^ Z.of_nat nf))
                      * Qpower 10 (exponent_part r2))).

Definition float_opp (f : JsFloat) : JsFloat :=
  match f with FFinite q => FFinite (- q) | FInfinity b => FInfinity (negb b) end.

(** [parseFloat(s)]: leading whitespace, a sign, the literal; [None] is
    [NaN]. *)
Definition js_parseFloat (s : string) : option JsFloat :=
  match trim_start s with
  | String c r =>
      if Ascii.eqb c "-" then float_opp <$> parse_unsigned_float r
      else if Ascii.eqb c "+" then parse_unsigned_float r
      else parse_unsigned_float (String c r)
  | "" => None
  end.

(** [parseFloat(String(v))]: a number reads back as itself; [true],
    [false] and ["[object Object]"] are [NaN]. *)
Definition js_number_of (v : JsValue) : option JsFloat :=
  match v with
  | JNumber q => Some (FFinite q)
  | JString s => js_parseFloat s
  | _ => None
  end.

(** [String(v)] matches [/^[\s\t\r\n]*$/]. *)
Definition js_blank (v : JsValue) : bool :=
  match v with JString s => str_forallb is_js_space s | _ => false end.

(** ** Model declarations *)

Inductive SqlType :=
| TUuid | TInteger | TString | TText | TJson | TDecimal | TDate | TBoolean
| TEnum (values : list string).

(** [defaultValue]: a value, or [DataTypes.UUIDV4]. *)
Inductive DefaultValue := DValue (v : JsValue) | DUuidV4.

(** The rules of a [validate] block the models use. *)
Inductive Validator := VMin (m : Q) | VNotEmpty.

(** An attribute: its name, type, [allowNull] ([true] unless declared
    [false]), [autoIncrement], [defaultValue] and [validate] rules. *)
Record Attribute := mkAttribute {
  attr_name : string;
  attr_type : SqlType;
  attr_allowNull : bool;
  attr_autoIncrement : bool;
  attr_default : option DefaultValue;
  attr_validate : list Validator
}.

Definition Model := list Attribute.

Definition order_status_values : list string :=
  ["pending"; "paid"; "processing"; "shipped"; "delivered"; "cancelled"; "refunded"].

Definition payment_status_values : list string := ["pending"; "completed"; "failed"; "refunded"].

Definition payment_method_values : list string :=
  ["cash_on_delivery"; "credit_card"; "debit_card"; "bank_transfer"; "wallet"].

(** [sequelize.define('Order', ...)] of [models/Order.js]. *)
Definition order_model : Model := [
  mkAttribute "id" TUuid true false (Some DUuidV4) [];
  mkAttribute "orderNumber" TInteger true true None [];
  mkAttribute "userId" TInteger true false None [];
  mkAttribute "status" (TEnum order_status_values) true false
    (Some (DValue (JString "pending"))) [];
  mkAttribute "paymentStatus" (TEnum payment_status_values) true false
    (Some (DValue (JString "pending"))) [];
  mkAttribute "paymentMethod" (TEnum payment_method_values) true false
    (Some (DValue (JString "cash_on_delivery"))) [];
  mkAttribute "paymentDetails" TJson true false None [];
  mkAttribute "customerInfo" TJson false false None [VNotEmpty];
  mkAttribute "shippingAddress" TJson false false None [VNotEmpty];
  mkAttribute "billingAddress" TJson true false None [];
  mkAttribute "subtotal" TDecimal false false None [VMin 0];
  mkAttribute "tax" TDecimal true false (Some (DValue (JNumber 0))) [VMin 0];
  mkAttribute "shipping" TDecimal true false (Some (DValue (JNumber 0))) [VMin 0];
  mkAttribute "discount" TDecimal true false (Some (DValue (JNumber 0))) [VMin 0];
  mkAttribute "total" TDecimal false false None [VMin 0];
  mkAttribute "trackingNumber" TString true false None [];
  mkAttribute "estimatedDelivery" TDate true false None [];
  mkAttribute "actualDelivery" TDate true false None [];
  mkAttribute "notes" TText true false None [];
  mkAttribute "adminNotes" TText true false None [];
  mkAttribute "cancellationReason" TString true false None [];
  mkAttribute "refundAmount" TDecimal true false None [VMin 0]
].

(** [sequelize.define('OrderItem', ...)] of [models/OrderItem.js]. *)
Definition order_item_model : Model := [
  mkAttribute "id" TInteger true true None [];
  mkAttribute "orderId" TUuid false false None [];
  mkAttribute "productId" TInteger false false None [];
  mkAttribute "quantity" TInteger false false None [VMin 1];
  mkAttribute "price" TDecimal false false None [];
  mkAttribute "originalPrice" TDecimal true false None [];
  mkAttribute "discount" TDecimal true false (Some (DValue (JNumber 0))) [VMin 0];
  mkAttribute "total" TDecimal false false None [];
  mkAttribute "productSnapshot" TJson true false None []
].

(** [sequelize.define('Address', ...)] of [models/Address.js]. *)
Definition address_model : Model := [
  mkAttribute "id" TInteger true true None [];
  mkAttribute "userId" TInteger false false None [];
  mkAttribute "type" (TEnum ["home"; "work"; "other"]) true false
    (Some (DValue (JString "home"))) [];
  mkAttribute "firstName" TString false false None [];
  mkAttribute "lastName" TString false false None [];
  mkAttribute "company" TString true false None [];
  mkAttribute "address" TString false false None [];
  mkAttribute "apartment" TString true false None [];
  mkAttribute "city" TString false false None [];
  mkAttribute "state" TString true false None [];
  mkAttribute "postalCode" TString false false None [];
  mkAttribute "country" TString false false (Some (DValue (JString "Egypt"))) [];
  mkAttribute "phone" TString true false None [];
  mkAttribute "isDefault" TBoolean true false (Some (DValue (JBool false))) [];
  mkAttribute "isActive" TBoolean true false (Some (DValue (JBool true))) []
].

(** ** [Model.create] *)

Definition default_value (uuid : string) (d : DefaultValue) : JsValue :=
  match d with DValue v => v | DUuidV4 => JString uuid end.

(** [Model.build]: an attribute whose value is [undefined] takes its
    [defaultValue]; [uuid] is the value [UUIDV4] generates. *)
Definition build_field (uuid : string) (r : Row) (a : Attribute) : option (string * JsValue) :=
  match row_get r (attr_name a) with
  | Some v => Some (attr_name a, v)
  | None => (λ d, (attr_name a, default_value uuid d)) <$> attr_default a
  end.

Definition build_row (uuid : string) (m : Model) (r : Row) : Row := omap (build_field uuid r) m.

Inductive ValidationError :=
| NotNullViolation (field : string)
| StringViolation (field : string)
| ValidatorFailed (field : string) (rule : Validator).

(** The schema check of the instance validator, skipped for
    [autoIncrement] attributes: [allowNull: false] against [null] and
    [undefined], and an object in a [STRING] or [TEXT] column. *)
Definition schema_errors (r : Row) (a : Attribute) : list ValidationError :=
  if attr_autoIncrement a then [] else
  match row_get r (attr_name a) with
  | None | Some JNull => if attr_allowNull a then [] else [NotNullViolation (attr_name a)]
  | Some (JObject _) =>
      match attr_type a with
      | TString | TText => [StringViolation (attr_name a)]
      | _ => []
      end
  | Some _ => []
  end.

(** Sequelize's [min(str, val)]: [isNaN(parseFloat(str)) || parseFloat(str) >= val];
    [notEmpty(str)]: [!str.match(/^[\s\t\r\n]*$/)]. *)
Definition run_validator (v : JsValue) (rule : Validator) : bool :=
  match rule with
  | VMin m =>
      match js_number_of v with
      | None => true
      | Some (FFinite q) => Qle_bool m q
      | Some (FInfinity b) => b
      end
  | VNotEmpty => negb (js_blank v)
  end.

(** The [validate] rules, which run on non-null values only. *)
Definition validator_errors (r : Row) (a : Attribute) : list ValidationError :=
  match row_get r (attr_name a) with
  | None | Some JNull => []
  | Some v => ValidatorFailed (attr_name a) <$> filter (λ rule, negb (run_validator v rule))
                                                 (attr_validate a)
  end.

(** The errors of [instance.validate()]: the schema errors are pushed
    while the attributes are walked, the rule errors when the
    asynchronous rule checks settle, after them. *)
Definition validate_row (m : Model) (r : Row) : list ValidationError :=
  concat (schema_errors r <$> m) ++ concat (validator_errors r <$> m).

(** PostgreSQL's check of an [ENUM] column. *)
Definition enum_ok (r : Row) (a : Attribute) : bool :=
  match attr_type a with
  | TEnum vs =>
      match row_get r (attr_name a) with
      | None | Some JNull => true
      | Some (JString s) => bool_decide (s ∈ vs)
      | Some _ => false
      end
  | _ => true
  end.

Inductive CreateOutcome :=
| Inserted (row : Row)
| ValidationFailed (errors : list ValidationError)
| DatabaseError (column : string).

(** [Model.create(values)]: build, validate (a [SequelizeValidationError]
    carrying every error), insert (a [SequelizeDatabaseError] naming the
    first column the database refuses). *)
Definition model_create (uuid : string) (m : Model) (values : Row) : CreateOutcome :=
  let r := build_row uuid m values in
  match validate_row m r with
  | [] => match find (λ a, negb (enum_ok r a)) m with
          | Some a => DatabaseError (attr_name a)
          | None => Inserted r
          end
  | errs => ValidationFailed errs
  end.

(** ** Theorems *)

(** the status update accepts exactly the values of the model's
    [status] enumeration other than ["refunded"]. *)
Theorem parse_valid_status_model (s : string) :
  is_Some (parse_valid_status (Some s)) ↔ s ∈ order_status_values ∧ s ≠ "refunded".
Proof.
  split.
  - unfold parse_valid_status. destruct (js_truthy _); [|by intros []].
    intros [v Hv]. apply find_some in Hv as [Hin Heq%bool_decide_eq_true].
    injection Heq as <-. destruct v; simpl in Hin; try (exfalso; intuition discriminate).
    all: split; [unfold order_status_values; cbn [status_name]; set_solver | discriminate].
  - intros [Hin Hne]. unfold order_status_values in Hin.
    repeat (apply elem_of_cons in Hin as [->|Hin]; [done || by eexists|]).
    by apply elem_of_nil in Hin.
Qed.
