(* ===== verification/Widgets.v ===== *)
(** * Product widgets of the storefront

    The stateful React components that sell a product:
    [src/src/components/ProductPage.jsx] (quantity selector, image
    thumbnails, [Add to Cart]), [FeaturedProducts.jsx] (a carousel of
    four products per view with slide indicators) and the [Toast.jsx]
    notification both show.  Each component is a state record and a step
    function on the events its rendered buttons fire; a step applies the
    handler's [setState] calls (batched, as React does inside an event
    handler) and, when the state changed, re-renders, which re-runs the
    toast's effect.  The cart context ([useCart]) is not among the
    sources: its [addToCart] is recorded as a log of calls. *)

From S2P Require Import Prelude JsString.
From Stdlib Require Import QArith.
Local Open Scope Z_scope.

(** ** [Toast.jsx] *)

(** The timer the toast's effect keeps: the pending [setTimeout] id and
    the next id the browser hands out. *)
Record ToastTimer := mkToastTimer { toast_pending : option nat; toast_next : nat }.

Definition toast_idle : ToastTimer := mkToastTimer None 0.

(** The effect [useEffect(() => { if (isVisible) { const timer =
    setTimeout(onHide, 3000); return () => clearTimeout(timer) } },
    [isVisible, onHide])] after a render.  [onHide] is an arrow function
    created anew by every render of the parent, so the effect re-runs on
    every render: its cleanup clears the previous timer and, while the
    toast is visible, a fresh 3 s timer is armed. *)
Definition toast_render (visible : bool) (t : ToastTimer) : ToastTimer :=
  if visible then mkToastTimer (Some (toast_next t)) (S (toast_next t))
  else mkToastTimer None (toast_next t).

(** ** [ProductPage.jsx] *)

(** The page's [product] constant, the fields the handlers read. *)
Record PageProduct := mkPageProduct { pp_id : Z; pp_name : string; pp_price : Z }.

Definition page_product : PageProduct := mkPageProduct 1 "Mambobaby Float" 89.

(** [productImages.length]: the thumbnails rendered. *)
Definition product_image_count : nat := 3.

Record ProductPageState := mkProductPage {
  quantity : Z;
  selectedImage : nat;
  showToast : bool;
  toastMessage : string;
  page_toast : ToastTimer;
  page_cart : list (Z * Z)
}.

(** [useState(1)], [useState(0)], [useState(false)], [useState('')]. *)
Definition initial_product_page : ProductPageState :=
  mkProductPage 1 0 false "" toast_idle [].

(** The React state of the page, which decides whether an update renders. *)
Definition page_view (s : ProductPageState) : Z * nat * bool * string :=
  (quantity s, selectedImage s, showToast s, toastMessage s).

(** The commit of an update: React bails out of a render when every
    state is unchanged ([Object.is]), unless the cart context changed. *)
Definition page_render (s' : ProductPageState) : ProductPageState :=
  mkProductPage (quantity s') (selectedImage s') (showToast s') (toastMessage s')
    (toast_render (showToast s') (page_toast s')) (page_cart s').

Definition page_commit (s s' : ProductPageState) (context_changed : bool) : ProductPageState :=
  if context_changed || negb (bool_decide (page_view s = page_view s')) then page_render s'
  else s.

Definition set_quantity (q : Z) (s : ProductPageState) : ProductPageState :=
  mkProductPage q (selectedImage s) (showToast s) (toastMessage s) (page_toast s) (page_cart s).

(** [setQuantity(prev => prev + 1)]. *)
Definition incrementQuantity (s : ProductPageState) : ProductPageState := set_quantity (quantity s + 1) s.

(** [setQuantity(prev => prev > 1 ? prev - 1 : 1)]. *)
Definition decrementQuantity (s : ProductPageState) : ProductPageState :=
  set_quantity (if 1 <? quantity s then quantity s - 1 else 1) s.

(** [`${quantity} ${product.name}${quantity > 1 ? 's' : ''} added to cart!`]. *)
Definition add_message (q : Z) : string :=
  z_to_string q +:+ " " +:+ pp_name page_product +:+ (if 1 <? q then "s" else "") +:+
  " added to cart!".

(** [handleAddToCart]: [addToCart(product, quantity)], the message, the
    toast shown. *)
Definition handleAddToCart (s : ProductPageState) : ProductPageState :=
  mkProductPage (quantity s) (selectedImage s) true (add_message (quantity s)) (page_toast s)
    (page_cart s ++ [(pp_id page_product, quantity s)]).

Definition set_selected_image (i : nat) (s : ProductPageState) : ProductPageState :=
  mkProductPage (quantity s) i (showToast s) (toastMessage s) (page_toast s) (page_cart s).

(** [onHide={() => setShowToast(false)}]. *)
Definition hide_toast (s : ProductPageState) : ProductPageState :=
  mkProductPage (quantity s) (selectedImage s) false (toastMessage s) (page_toast s) (page_cart s).

Inductive PageEvent :=
| PIncrement
| PDecrement
| PAddToCart
| PSelectImage (i : nat)
| PToastTimeout (timer : nat).

(** A step: the event of a rendered button, or the pending toast timer
    firing; [None] when no such button or timer exists. *)
Definition product_step (s : ProductPageState) (e : PageEvent) : option ProductPageState :=
  match e with
  | PIncrement => Some (page_commit s (incrementQuantity s) false)
  | PDecrement => Some (page_commit s (decrementQuantity s) false)
  | PAddToCart => Some (page_commit s (handleAddToCart s) true)
  | PSelectImage i =>
      if (i <? product_image_count)%nat then Some (page_commit s (set_selected_image i s) false)
      else None
  | PToastTimeout t =>
      if bool_decide (toast_pending (page_toast s) = Some t)
      then Some (page_commit s (hide_toast s) false) else None
  end.

Inductive product_reach : ProductPageState → Prop :=
| preach_init : product_reach initial_product_page
| preach_step s e s' : product_reach s → product_step s e = Some s' → product_reach s'.

(** ** [FeaturedProducts.jsx] *)

(** A product of the carousel: [id], [name], [price], [originalPrice]
    ([null] as [None]), [badge], [rating] and the optional [link]; the
    [image] URL is not modelled. *)
Record FeaturedItem := mkFeaturedItem {
  fi_id : Z; fi_name : string; fi_price : Z;
  fi_originalPrice : option Z; fi_badge : string; fi_rating : Q; fi_link : option string
}.

(** The component's [products] array: seven products, the last two both
    with [id: 6]. *)
Definition featured_products : list FeaturedItem := [
  mkFeaturedItem 1 "Mambobaby Float" 89 (Some 99) "Best Seller" (49 # 10) (Some "/product/mambobaby-float");
  mkFeaturedItem 2 "Superhero Action Figure" 25 (Some 30) "Popular" (49 # 10) None;
  mkFeaturedItem 3 "Princess Doll Set" 35 None "New" (48 # 10) None;
  mkFeaturedItem 4 "Creative Building Blocks" 50 (Some 60) "Limited" 5 None;
  mkFeaturedItem 5 "DIY Craft Kit" 20 None "Hot" (47 # 10) None;
  mkFeaturedItem 6 "Family Board Game" 40 (Some 45) "Hot" (49 # 10) None;
  mkFeaturedItem 6 "Outdoor Adventure Set" 75 None "Premium" (48 # 10) None
].

Definition productsPerView : Z := 4.

Record Featured := mkFeatured {
  currentSlide : Z;
  f_showToast : bool;
  f_toastMessage : string;
  f_toast : ToastTimer;
  f_cart : list Z
}.

Definition initial_featured : Featured := mkFeatured 0 false "" toast_idle [].

Section Carousel.
(** The [products] array, kept as a variable: the theorems hold for any
    number of products where they say so. *)
Variable products : list FeaturedItem.

(** [products.length - productsPerView]. *)
Definition maxSlide : Z := Z.of_nat (length products) - productsPerView.

(** [products.slice(currentSlide, currentSlide + productsPerView)]. *)
Definition visibleProducts (s : Featured) : list FeaturedItem :=
  js_slice products (currentSlide s) (currentSlide s + productsPerView).

(** [[...Array(maxSlide + 1)].map((_, index) => ...)]: the indices of the
    slide indicators; [Array(n)] with a negative [n] throws a
    [RangeError], [None] here, and the component fails to render. *)
Definition slide_indicators : option (list Z) :=
  if maxSlide + 1 <? 0 then None
  else Some (Z.of_nat <$> seq 0 (Z.to_nat (maxSlide + 1))).

Definition set_slide (k : Z) (s : Featured) : Featured :=
  mkFeatured k (f_showToast s) (f_toastMessage s) (f_toast s) (f_cart s).

(** [setCurrentSlide(currentSlide >= maxSlide ? 0 : currentSlide + 1)]. *)
Definition nextSlide (s : Featured) : Featured :=
  set_slide (if maxSlide <=? currentSlide s then 0 else currentSlide s + 1) s.

(** [setCurrentSlide(currentSlide <= 0 ? maxSlide : currentSlide - 1)]. *)
Definition prevSlide (s : Featured) : Featured :=
  set_slide (if currentSlide s <=? 0 then maxSlide else currentSlide s - 1) s.

(** [handleAddToCart(product)]: [addToCart(product)] and the toast. *)
Definition featured_add (p : FeaturedItem) (s : Featured) : Featured :=
  mkFeatured (currentSlide s) true (fi_name p +:+ " added to cart!") (f_toast s)
    (f_cart s ++ [fi_id p]).

Definition featured_view (s : Featured) : Z * bool * string :=
  (currentSlide s, f_showToast s, f_toastMessage s).

Definition featured_render (s' : Featured) : Featured :=
  mkFeatured (currentSlide s') (f_showToast s') (f_toastMessage s')
    (toast_render (f_showToast s') (f_toast s')) (f_cart s').

Definition featured_commit (s s' : Featured) (context_changed : bool) : Featured :=
  if context_changed || negb (bool_decide (featured_view s = featured_view s')) then
    featured_render s'
  else s.

Inductive FeaturedEvent :=
| FPrev
| FNext
| FIndicator (index : Z)
| FAddToCart (k : nat)
| FToastTimeout (timer : nat).

(** A step on a rendered button: the arrows are [disabled] at
    [currentSlide === 0] and [currentSlide === maxSlide], an indicator
    exists for each index the render produced, an [Add to Cart] button
    for each visible product; a component whose render throws has no
    buttons. *)
Definition featured_step (s : Featured) (e : FeaturedEvent) : option Featured :=
  match slide_indicators with
  | None => None
  | Some indices =>
    match e with
    | FPrev => if bool_decide (currentSlide s = 0) then None
               else Some (featured_commit s (prevSlide s) false)
    | FNext => if bool_decide (currentSlide s = maxSlide) then None
               else Some (featured_commit s (nextSlide s) false)
    | FIndicator i => if bool_decide (i ∈ indices)
                      then Some (featured_commit s (set_slide i s) false) else None
    | FAddToCart k => p ← visibleProducts s !! k; Some (featured_commit s (featured_add p s) true)
    | FToastTimeout t =>
        if bool_decide (toast_pending (f_toast s) = Some t)
        then Some (featured_commit s (mkFeatured (currentSlide s) false (f_toastMessage s)
                                        (f_toast s) (f_cart s)) false)
        else None
    end
  end.

Inductive featured_reach : Featured → Prop :=
| freach_init : featured_reach initial_featured
| freach_step s e s' : featured_reach s → featured_step s e = Some s' → featured_reach s'.
End Carousel.

(** ** Invariants *)

(** The toast's timer matches its visibility, and ids are fresh. *)
Definition toast_wf (visible : bool) (t : ToastTimer) : Prop :=
  match toast_pending t with
  | Some id => visible = true ∧ (id < toast_next t)%nat
  | None => visible = false
  end.

Definition page_wf (s : ProductPageState) : Prop :=
  1 ≤ quantity s ∧ (selectedImage s < product_image_count)%nat ∧
  toast_wf (showToast s) (page_toast s) ∧
  Forall (λ c, c.1 = pp_id page_product ∧ 1 ≤ c.2) (page_cart s).

Definition featured_wf (products : list FeaturedItem) (s : Featured) : Prop :=
  0 ≤ currentSlide s ≤ Z.max 0 (maxSlide products) ∧ toast_wf (f_showToast s) (f_toast s).

Lemma toast_render_wf visible t : toast_wf visible (toast_render visible t).
Proof. unfold toast_wf, toast_render. destruct visible; simpl; [lia|done]. Qed.

#[export] Hint Resolve toast_render_wf : hedeya.

Lemma page_commit_cases s s' b : page_commit s s' b = s ∨ page_commit s s' b = page_render s'.
Proof. unfold page_commit. case_match; auto. Qed.

Lemma featured_commit_cases s s' b :
  featured_commit s s' b = s ∨ featured_commit s s' b = featured_render s'.
Proof. unfold featured_commit. case_match; auto. Qed.

Lemma page_render_wf s' :
  1 ≤ quantity s' → (selectedImage s' < product_image_count)%nat →
  Forall (λ c, c.1 = pp_id page_product ∧ 1 ≤ c.2) (page_cart s') → page_wf (page_render s').
Proof. intros. repeat split; simpl; auto with hedeya. Qed.

Lemma page_step_wf s e s' : page_wf s → product_step s e = Some s' → page_wf s'.
Proof.
  intros (Hq & Hi & Ht & Hc) Hstep.
  destruct e as [| | |i|t]; simpl in Hstep.
  4: destruct (i <? _)%nat eqn:Hlt; [|done].
  5: case_bool_decide; [|done].
  all: injection Hstep as <-;
    match goal with |- page_wf (page_commit ?s ?s' ?b) =>
      destruct (page_commit_cases s s' b) as [-> | ->]; [by split_and!|] end;
    apply page_render_wf; simpl; auto; try lia.
  - destruct (Z.ltb_spec 1 (quantity s)); lia.
  - apply Forall_app; split; [done|]. repeat constructor; simpl; lia.
  - by apply Nat.ltb_lt.
Qed.

Lemma js_slice_length_window {A} (l : list A) s k :
  0 ≤ s → 0 ≤ k → s + k ≤ Z.of_nat (length l) → length (js_slice l s (s + k)) = Z.to_nat k.
Proof.
  intros Hs Hk Hl. unfold js_slice. rewrite !js_rel_index_nonneg by lia.
  rewrite length_take, length_drop. lia.
Qed.

Lemma featured_render_wf ps s' :
  0 ≤ currentSlide s' ≤ Z.max 0 (maxSlide ps) → featured_wf ps (featured_render s').
Proof. intros. split; [done|]. apply toast_render_wf. Qed.

Lemma slide_indicators_elem ps indices i :
  slide_indicators ps = Some indices → i ∈ indices → 0 ≤ i ≤ maxSlide ps.
Proof.
  unfold slide_indicators. destruct (Z.ltb_spec (maxSlide ps + 1) 0); [done|].
  intros [= <-] (j & -> & Hj%elem_of_seq)%list_elem_of_fmap. lia.
Qed.

Lemma featured_step_wf ps s e s' :
  featured_wf ps s → featured_step ps s e = Some s' → featured_wf ps s'.
Proof.
  intros [Hs Ht] Hstep. unfold featured_step in Hstep.
  destruct (slide_indicators ps) as [indices|] eqn:Hind; [|done].
  destruct e as [| |i|k|t]; repeat case_match; simplify_eq/=.
  4: destruct (visibleProducts ps s !! k); simplify_eq/=.
  all: match goal with |- featured_wf _ (featured_commit ?s ?s' ?b) =>
      destruct (featured_commit_cases s s' b) as [-> | ->]; [by split|] end;
    apply featured_render_wf; simpl; auto.
  - match goal with H : bool_decide (currentSlide s = 0) = false |- _ =>
      apply bool_decide_eq_false in H end.
    destruct (Z.leb_spec (currentSlide s) 0); lia.
  - destruct (Z.leb_spec (maxSlide ps) (currentSlide s)); lia.
  - match goal with H : bool_decide (i ∈ indices) = true |- _ =>
      apply bool_decide_eq_true in H end.
    apply (slide_indicators_elem ps indices i) in Hind; [lia|done].
Qed.

Lemma product_reach_wf s : product_reach s → page_wf s.
Proof.
  induction 1 as [|s e s' _ IH Hstep]; [|by eapply page_step_wf].
  unfold page_wf; simpl. split_and!; [lia|unfold product_image_count; lia|done|constructor].
Qed.

Lemma featured_reach_wf ps s : featured_reach ps s → featured_wf ps s.
Proof.
  induction 1 as [|s e s' _ IH Hstep]; [|by eapply featured_step_wf].
  split; simpl; [lia|done].
Qed.

(** Runs of events, for the witnesses. *)
Fixpoint run_page (s : ProductPageState) (es : list PageEvent) : option ProductPageState :=
  match es with [] => Some s | e :: es' => product_step s e ≫= λ s', run_page s' es' end.

Fixpoint run_featured (ps : list FeaturedItem) (s : Featured) (es : list FeaturedEvent)
    : option Featured :=
  match es with [] => Some s | e :: es' => featured_step ps s e ≫= λ s', run_featured ps s' es' end.

Lemma run_page_reach s es s' : product_reach s → run_page s es = Some s' → product_reach s'.
Proof.
  revert s. induction es as [|e es IH]; intros s Hs Hrun; simpl in Hrun; [by simplify_eq|].
  destruct (product_step s e) as [s1|] eqn:E; [|done]. eapply IH; [|done]. by econstructor.
Qed.

Lemma run_featured_reach ps s es s' :
  featured_reach ps s → run_featured ps s es = Some s' → featured_reach ps s'.
Proof.
  revert s. induction es as [|e es IH]; intros s Hs Hrun; simpl in Hrun; [by simplify_eq|].
  destruct (featured_step ps s e) as [s1|] eqn:E; [|done]. eapply IH; [|done]. by econstructor.
Qed.

(** ** Theorems *)

(** C20: on the product page the quantity never drops below 1, the
    selected image is one of the three thumbnails, every [addToCart]
    call passes the page's product with a quantity of at least 1, and a
    toast timer is pending exactly while the toast is shown. *)
Theorem product_page_invariant s :
  product_reach s →
  1 ≤ quantity s ∧ (selectedImage s < product_image_count)%nat ∧
  Forall (λ c, c.1 = pp_id page_product ∧ 1 ≤ c.2) (page_cart s) ∧
  (is_Some (toast_pending (page_toast s)) ↔ showToast s = true).
Proof.
  intros Hr. destruct (product_reach_wf s Hr) as (Hq & Hi & Ht & Hc).
  do 3 (split; [done|]). unfold toast_wf in Ht.
  destruct (toast_pending (page_toast s)) as [t|].
  - destruct Ht as [-> _]. split; [done|by eexists].
  - rewrite Ht. split; [by intros []|done].
Qed.

(** C31: the toast always goes away: in every reachable state where it is
    shown, its pending timer can fire, which hides it and leaves no
    timer pending. *)
Theorem toast_eventually_hides s :
  product_reach s → showToast s = true →
  ∃ t s', toast_pending (page_toast s) = Some t ∧ product_step s (PToastTimeout t) = Some s' ∧
          showToast s' = false ∧ toast_pending (page_toast s') = None.
Proof.
  intros Hr Hv. destruct (product_reach_wf s Hr) as (_ & _ & Ht & _). unfold toast_wf in Ht.
  destruct (toast_pending (page_toast s)) as [t|] eqn:Hp; [|congruence].
  exists t. eexists. split; [done|]. simpl. rewrite Hp, bool_decide_true by done.
  split; [reflexivity|]. unfold page_commit, page_view.
  rewrite bool_decide_false by (simpl; rewrite Hv; congruence). done.
Qed.

(** C32: the carousel never leaves its slides: in every reachable state
    [currentSlide] lies in [0 .. max(0, maxSlide)], so with at least four
    products exactly four are visible. *)
Theorem featured_slide_bounds ps s :
  featured_reach ps s →
  0 ≤ currentSlide s ≤ Z.max 0 (maxSlide ps) ∧
  ((4 ≤ length ps)%nat → length (visibleProducts ps s) = 4%nat).
Proof.
  intros Hr. destruct (featured_reach_wf ps s Hr) as [Hs _]. split; [done|]. intros Hn.
  unfold visibleProducts, maxSlide, productsPerView in *.
  rewrite js_slice_length_window; lia.
Qed.

(** [Array(maxSlide + 1)] throws for fewer than three products: the
    carousel then fails to render and none of its buttons exists. *)
Theorem featured_indicators_throw ps :
  (slide_indicators ps = None ↔ (length ps < 3)%nat) ∧
  ((length ps < 3)%nat → ∀ s e, featured_step ps s e = None).
Proof.
  assert (slide_indicators ps = None ↔ (length ps < 3)%nat) as Hiff.
  { unfold slide_indicators, maxSlide, productsPerView.
    destruct (Z.ltb_spec (Z.of_nat (length ps) - 4 + 1) 0); split; intros; done || lia. }
  split; [done|]. intros Hn s e. unfold featured_step. by rewrite (proj2 Hiff Hn).
Qed.

(** ** Witnesses *)

Definition sample_page_events : list PageEvent := [PIncrement; PIncrement; PAddToCart; PDecrement].

Lemma product_page_invariant_witness :
  match run_page initial_product_page sample_page_events with
  | Some s =>
      1 ≤ quantity s ∧ (selectedImage s < product_image_count)%nat ∧
      Forall (λ c, c.1 = pp_id page_product ∧ 1 ≤ c.2) (page_cart s) ∧
      (is_Some (toast_pending (page_toast s)) ↔ showToast s = true)
  | None => False
  end.
Proof.
  destruct (run_page initial_product_page sample_page_events) as [s|] eqn:E;
    [|vm_compute in E; discriminate].
  apply product_page_invariant. eapply run_page_reach; [constructor|exact E].
Defined.

Lemma toast_eventually_hides_witness :
  match run_page initial_product_page sample_page_events with
  | Some s =>
      ∃ t s', toast_pending (page_toast s) = Some t ∧ product_step s (PToastTimeout t) = Some s' ∧
              showToast s' = false ∧ toast_pending (page_toast s') = None
  | None => False
  end.
Proof.
  destruct (run_page initial_product_page sample_page_events) as [s|] eqn:E;
    [|vm_compute in E; discriminate].
  apply toast_eventually_hides.
  - eapply run_page_reach; [constructor|exact E].
  - vm_compute in E. injection E as <-. reflexivity.
Defined.

Definition sample_carousel_events : list FeaturedEvent := [FNext; FNext; FAddToCart 3; FIndicator 3].

Lemma featured_slide_bounds_witness :
  match run_featured featured_products initial_featured sample_carousel_events with
  | Some s =>
      0 ≤ currentSlide s ≤ Z.max 0 (maxSlide featured_products) ∧
      ((4 ≤ length featured_products)%nat → length (visibleProducts featured_products s) = 4%nat)
  | None => False
  end.
Proof.
  destruct (run_featured featured_products initial_featured sample_carousel_events) as [s|] eqn:E;
    [|vm_compute in E; discriminate].
  apply featured_slide_bounds. eapply run_featured_reach; [constructor|exact E].
Defined.

Lemma featured_indicators_throw_witness :
  slide_indicators (take 2 featured_products) = None ∧
  featured_step (take 2 featured_products) initial_featured FNext = None.
Proof.
  destruct (featured_indicators_throw (take 2 featured_products)) as [Hiff Hthrow].
  split; [apply Hiff; vm_compute; lia|apply Hthrow; vm_compute; lia].
Defined.
