(* ===== verification/Navigation.v ===== *)
(** * Site navigation

    The header of [src/src/components/Header.jsx] (scroll shadow, the two
    hover dropdowns with their 150 ms close timer, the buttons opening the
    sidebar and the cart), the [Sidebar.jsx] menu with its expandable
    categories, the [CartModal.jsx] checkout button, and the routes of
    [App.jsx] the links lead to.  The header is an event machine like the
    checkout page: the pointer's position is kept beside the component's
    state, since it decides which [onMouseEnter] / [onMouseLeave] handlers
    a pointer move runs; the pending [setTimeout] callbacks are a list of
    timer ids. *)

From S2P Require Import Prelude JsString.
From Stdlib Require Import Ascii.
Local Open Scope Z_scope.

(** ** Routes and links *)

(** React Router's test of a [<Route path>] without parameters against
    the location's pathname: the regular expression [^path\/*$] with the
    [i] flag, so letters compare up to case and trailing slashes are
    ignored.  Without the [u] flag a non-ASCII character never folds to an
    ASCII one, and the routes are ASCII, so ASCII case folding decides. *)
Fixpoint route_matches (route path : string) : bool :=
  match route, path with
  | "", _ => str_forallb (λ c, Ascii.eqb c "/") path
  | String r route', String c path' =>
      Ascii.eqb (ascii_to_lower r) (ascii_to_lower c) && route_matches route' path'
  | String _ _, "" => false
  end.

(** The [<Route path=...>] elements of [App.jsx]; any other path renders
    no page between the header and the footer.  The three patterns are
    disjoint, so React Router's ranking plays no part. *)
Inductive Page := HomePage | ProductPageRoute | CheckoutPageRoute.

Definition app_route (path : string) : option Page :=
  if route_matches "/" path then Some HomePage
  else if route_matches "/product/mambobaby-float" path then Some ProductPageRoute
  else if route_matches "/checkout" path then Some CheckoutPageRoute
  else None.

(** [s.replace(/ & /g, '-')]. *)
Fixpoint replace_amp (s : string) : string :=
  match s with
  | String " " (String "&" (String " " r)) => String "-" (replace_amp r)
  | String c r => String c (replace_amp r)
  | "" => ""
  end.

(** [s.replace(/\s+/g, '-')]: each maximal run of whitespace becomes one
    dash; [in_run] says whether the previous character was whitespace. *)
Fixpoint replace_spaces_run (in_run : bool) (s : string) : string :=
  match s with
  | String c r =>
      if is_js_space c then (if in_run then replace_spaces_run true r
                             else String "-" (replace_spaces_run true r))
      else String c (replace_spaces_run false r)
  | "" => ""
  end.

Definition replace_spaces (s : string) : string := replace_spaces_run false s.

Definition header_categories : list string :=
  ["Action Figures"; "Dolls & Accessories"; "Building Blocks"; "Arts & Crafts";
   "Puzzles & Games"; "Outdoor Fun"].

Definition header_occasions : list string :=
  ["Birthday Party"; "Holiday Gifts"; "Just for Fun"; "Outdoor Adventures";
   "Creative Corner"; "Brainy Games"].

(** The [href]s of the two dropdowns. *)
Definition header_links : list string :=
  ((λ c, "/category/" +:+ replace_amp (to_lower c)) <$> header_categories) ++
  ((λ o, "/occasion/" +:+ replace_amp (to_lower o)) <$> header_occasions).

Record NavSubcategory := mkNavSubcategory { sub_title : string; sub_items : list string }.
Record NavCategory := mkNavCategory { nav_id : string; nav_title : string; nav_subs : list NavSubcategory }.

(** [navigationData] of [Sidebar.jsx] (the icons omitted). *)
Definition navigationData : list NavCategory := [
  mkNavCategory "necessities" "Necessities" [
    mkNavSubcategory "Baby Care Essentials" ["VIEW ALL"; "Diapers & Wipes"; "Baby Health"; "Baby Safety"];
    mkNavSubcategory "Feeding Essentials" ["VIEW ALL"; "Bottles & Cups"; "High Chairs"; "Bibs & Burp Cloths"]];
  mkNavCategory "toys" "Toys" [
    mkNavSubcategory "OUTDOORS FUN" ["VIEW ALL"; "Book in Fun"; "Foods & Activity Centers"; "Outdoor Games"; "Sports Equipment"];
    mkNavSubcategory "FUN & EDUCATION" ["VIEW ALL"; "Boards & Board Games"; "Building Blocks"; "Educational Toys"; "STEM Kits"];
    mkNavSubcategory "LITTLE ARTIST" ["VIEW ALL"; "Arts & Crafts"; "Drawing Supplies"; "Musical Instruments"; "Creative Sets"];
    mkNavSubcategory "BIKES & RIDE ONS" ["VIEW ALL"; "Bicycles & Walkers"; "Scooters"; "Ride-on Toys"; "Balance Bikes"]];
  mkNavCategory "playtime" "Play Time" [
    mkNavSubcategory "Indoor Games" ["VIEW ALL"; "Puzzles"; "Board Games"; "Card Games"];
    mkNavSubcategory "Outdoor Activities" ["VIEW ALL"; "Ball Games"; "Water Play"; "Garden Toys"]];
  mkNavCategory "onthego" "On The Go" [
    mkNavSubcategory "Travel Gear" ["VIEW ALL"; "Car Seats"; "Strollers"; "Travel Bags"];
    mkNavSubcategory "Portable Items" ["VIEW ALL"; "Travel Toys"; "Snack Containers"; "Travel Accessories"]];
  mkNavCategory "feeding" "Feeding" [
    mkNavSubcategory "Bottles & Cups" ["VIEW ALL"; "Baby Bottles"; "Sippy Cups"; "Training Cups"];
    mkNavSubcategory "Feeding Accessories" ["VIEW ALL"; "High Chairs"; "Booster Seats"; "Bibs"]];
  mkNavCategory "bathing" "Bathing" [
    mkNavSubcategory "Bath Essentials" ["VIEW ALL"; "Baby Bathtubs"; "Bath Toys"; "Towels & Washcloths"];
    mkNavSubcategory "Bath Safety" ["VIEW ALL"; "Bath Mats"; "Temperature Gauges"; "Bath Seats"]];
  mkNavCategory "fashion" "Fashion" [
    mkNavSubcategory "Baby Clothing" ["VIEW ALL"; "Onesies"; "Sleepwear"; "Outerwear"];
    mkNavSubcategory "Accessories" ["VIEW ALL"; "Hats"; "Shoes"; "Socks"]];
  mkNavCategory "bedroom" "Bedroom" [
    mkNavSubcategory "Nursery Furniture" ["VIEW ALL"; "Cribs"; "Changing Tables"; "Dressers"];
    mkNavSubcategory "Bedding & Decor" ["VIEW ALL"; "Bedding Sets"; "Night Lights"; "Wall Decor"]];
  mkNavCategory "school" "School" [
    mkNavSubcategory "School Supplies" ["VIEW ALL"; "Backpacks"; "Lunch Boxes"; "Stationery"];
    mkNavSubcategory "Learning Materials" ["VIEW ALL"; "Educational Books"; "Learning Tablets"; "Flash Cards"]];
  mkNavCategory "adults" "Adults & Teens" [
    mkNavSubcategory "Parenting Essentials" ["VIEW ALL"; "Baby Monitors"; "Breast Pumps"; "Parenting Books"];
    mkNavSubcategory "Teen Products" ["VIEW ALL"; "Teen Furniture"; "Study Accessories"; "Teen Fashion"]]
].

(** [`/category/${category.id}/${subcategory.title.toLowerCase().replace(/\s+/g, '-')}/${item.toLowerCase().replace(/\s+/g, '-')}`]. *)
Definition sidebar_link (c : NavCategory) (sub : NavSubcategory) (item : string) : string :=
  "/category/" +:+ nav_id c +:+ "/" +:+ replace_spaces (to_lower (sub_title sub)) +:+ "/" +:+
  replace_spaces (to_lower item).

Definition sidebar_links : list string :=
  c ← navigationData; sub ← nav_subs c; item ← sub_items sub; [sidebar_link c sub item].

(** ** The header, its sidebar and its cart modal *)

Inductive Dropdown := DCategory | DOccasion.

#[export] Instance Dropdown_eq_dec : EqDecision Dropdown.
Proof. solve_decision. Defined.

(** Where the pointer is: outside both dropdown containers, over a
    container (its button), or over the dropdown panel, a DOM child of the
    container. *)
Inductive Pointer := Outside | OverButton (d : Dropdown) | OverPanel (d : Dropdown).

#[export] Instance Pointer_eq_dec : EqDecision Pointer.
Proof. solve_decision. Defined.

Record Header := mkHeader {
  isScrolled : bool;
  isSidebarOpen : bool;
  isCartOpen : bool;
  dropdownOpen : option Dropdown;
  closeTimeout : option nat;
  expandedCategories : gmap string bool;
  location : string;
  timers : list nat;
  next_timer : nat;
  pointer : Pointer
}.

(** Browser timer ids are positive, hence truthy in [if (closeTimeout)]. *)
Definition initial_header : Header :=
  mkHeader false false false None None ∅ "/" [] 1 Outside.

(** [handleMouseEnter(dropdown)]: [if (closeTimeout) { clearTimeout(closeTimeout);
    setCloseTimeout(null) }; setDropdownOpen(dropdown)]. *)
Definition handleMouseEnter (d : Dropdown) (h : Header) : Header :=
  let ts := match closeTimeout h with Some t => filter (λ t', t' ≠ t) (timers h) | None => timers h end in
  mkHeader (isScrolled h) (isSidebarOpen h) (isCartOpen h) (Some d) None
    (expandedCategories h) (location h) ts (next_timer h) (pointer h).

(** [handleMouseLeave]: a fresh 150 ms timer that closes the dropdown,
    remembered in [closeTimeout]; a timer already pending is not
    cleared. *)
Definition handleMouseLeave (h : Header) : Header :=
  mkHeader (isScrolled h) (isSidebarOpen h) (isCartOpen h) (dropdownOpen h) (Some (next_timer h))
    (expandedCategories h) (location h) (timers h ++ [next_timer h]) (S (next_timer h)) (pointer h).

(** The timer's callback [setDropdownOpen(null)]. *)
Definition close_dropdown (t : nat) (h : Header) : Header :=
  mkHeader (isScrolled h) (isSidebarOpen h) (isCartOpen h) None (closeTimeout h)
    (expandedCategories h) (location h) (filter (λ t', t' ≠ t) (timers h)) (next_timer h)
    (pointer h).

Definition move_pointer (p : Pointer) (h : Header) : Header :=
  mkHeader (isScrolled h) (isSidebarOpen h) (isCartOpen h) (dropdownOpen h) (closeTimeout h)
    (expandedCategories h) (location h) (timers h) (next_timer h) p.

(** [setIsScrolled(window.scrollY > 50)]. *)
Definition handleScroll (scrollY : Z) (h : Header) : Header :=
  mkHeader (50 <? scrollY) (isSidebarOpen h) (isCartOpen h) (dropdownOpen h) (closeTimeout h)
    (expandedCategories h) (location h) (timers h) (next_timer h) (pointer h).

Definition set_sidebar (b : bool) (h : Header) : Header :=
  mkHeader (isScrolled h) b (isCartOpen h) (dropdownOpen h) (closeTimeout h)
    (expandedCategories h) (location h) (timers h) (next_timer h) (pointer h).

(** [toggleCategory(categoryId)]: [{...prev, [categoryId]: !prev[categoryId]}]. *)
Definition toggleCategory (id : string) (m : gmap string bool) : gmap string bool :=
  <[id := negb (default false (m !! id))]> m.

Definition toggle_in_header (id : string) (h : Header) : Header :=
  mkHeader (isScrolled h) (isSidebarOpen h) (isCartOpen h) (dropdownOpen h) (closeTimeout h)
    (toggleCategory id (expandedCategories h)) (location h) (timers h) (next_timer h) (pointer h).

Definition set_cart (b : bool) (h : Header) : Header :=
  mkHeader (isScrolled h) (isSidebarOpen h) b (dropdownOpen h) (closeTimeout h)
    (expandedCategories h) (location h) (timers h) (next_timer h) (pointer h).

(** [handleCheckout] of [CartModal.jsx]: [onClose(); navigate('/checkout')]. *)
Definition handleCheckout (h : Header) : Header :=
  mkHeader (isScrolled h) (isSidebarOpen h) false (dropdownOpen h) (closeTimeout h)
    (expandedCategories h) "/checkout" (timers h) (next_timer h) (pointer h).

Inductive HeaderEvent :=
| HScroll (scrollY : Z)
| HEnterButton (d : Dropdown)     (** outside → over the container *)
| HEnterPanel (d : Dropdown)      (** container → its open panel *)
| HLeavePanel (d : Dropdown)      (** panel → container *)
| HLeaveButton (d : Dropdown)     (** container → outside *)
| HLeavePanelOut (d : Dropdown)   (** panel → outside, leaving both *)
| HTimer (t : nat)
| HOpenSidebar | HCloseSidebar | HToggleCategory (id : string)
| HOpenCart | HCloseCart | HCartCheckout.

(** The handlers a pointer move or a click runs, guarded by where the
    pointer is and by what is rendered.  Leaving the panel for the outside
    leaves two elements and runs [handleMouseLeave] twice.  When the panel
    unmounts under the pointer, the pointer is outside the container
    (the panel lies below it), with no [mouseleave]. *)
Definition header_step (h : Header) (e : HeaderEvent) : option Header :=
  match e with
  | HScroll y => Some (handleScroll y h)
  | HEnterButton d =>
      if bool_decide (pointer h = Outside)
      then Some (move_pointer (OverButton d) (handleMouseEnter d h)) else None
  | HEnterPanel d =>
      if bool_decide (pointer h = OverButton d ∧ dropdownOpen h = Some d)
      then Some (move_pointer (OverPanel d) (handleMouseEnter d h)) else None
  | HLeavePanel d =>
      if bool_decide (pointer h = OverPanel d)
      then Some (move_pointer (OverButton d) (handleMouseLeave h)) else None
  | HLeaveButton d =>
      if bool_decide (pointer h = OverButton d)
      then Some (move_pointer Outside (handleMouseLeave h)) else None
  | HLeavePanelOut d =>
      if bool_decide (pointer h = OverPanel d)
      then Some (move_pointer Outside (handleMouseLeave (handleMouseLeave h))) else None
  | HTimer t =>
      if bool_decide (t ∈ timers h) then
        let h' := close_dropdown t h in
        Some (match pointer h with OverPanel _ => move_pointer Outside h' | _ => h' end)
      else None
  | HOpenSidebar => Some (set_sidebar true h)
  | HCloseSidebar => if isSidebarOpen h then Some (set_sidebar false h) else None
  | HToggleCategory id =>
      if isSidebarOpen h && bool_decide (id ∈ nav_id <$> navigationData)
      then Some (toggle_in_header id h) else None
  | HOpenCart => Some (set_cart true h)
  | HCloseCart => if isCartOpen h then Some (set_cart false h) else None
  | HCartCheckout => if isCartOpen h then Some (handleCheckout h) else None
  end.

Fixpoint run_header (h : Header) (es : list HeaderEvent) : option Header :=
  match es with [] => Some h | e :: es' => header_step h e ≫= λ h', run_header h' es' end.

Inductive header_reach : Header → Prop :=
| hreach_init : header_reach initial_header
| hreach_step h e h' : header_reach h → header_step h e = Some h' → header_reach h'.

(** ** The sidebar's effect on the document *)

(** What the sidebar's effect touches: [document.body.style.overflow]
    and whether its [mousedown] listener is registered. *)
Record DocumentState := mkDocumentState { body_overflow : string; mousedown_listener : bool }.

Definition initial_document : DocumentState := mkDocumentState "" false.

(** The effect [useEffect(() => { ...; if (isOpen) { addEventListener;
    overflow = 'hidden' }; return () => { removeEventListener; overflow
    = 'unset' } }, [isOpen, onClose])] after a render of the header: the
    header passes [onClose={() => setIsSidebarOpen(false)}], a new
    function at each of its renders, so the effect re-runs at each of
    them, its cleanup first. *)
Definition sidebar_effect (isOpen : bool) (d : DocumentState) : DocumentState :=
  if isOpen then mkDocumentState "hidden" true else mkDocumentState "unset" false.

(** The header's React state: a render happens when it changes
    ([Object.is] on each hook). *)
Definition header_view (h : Header) : bool * bool * bool * option Dropdown * option nat :=
  (isScrolled h, isSidebarOpen h, isCartOpen h, dropdownOpen h, closeTimeout h).

(** A header event, re-rendering (and re-running the sidebar's effect)
    when the header's state changed; the sidebar's own state
    ([expandedCategories]) re-renders only the sidebar, whose effect
    dependencies are unchanged. *)
Definition header_commit (h h' : Header) (d : DocumentState) : DocumentState :=
  if bool_decide (header_view h = header_view h') then d else sidebar_effect (isSidebarOpen h') d.

Inductive SiteEvent :=
| PHeader (e : HeaderEvent)
| PMouseDown (inside_sidebar : bool).   (** a [mousedown] on the page *)

(** [handleClickOutside]: a [mousedown] outside [sidebarRef] calls
    [onClose()] while the listener is registered. *)
Definition site_step (p : Header * DocumentState) (e : SiteEvent) : option (Header * DocumentState) :=
  let '(h, d) := p in
  match e with
  | PHeader e => h' ← header_step h e; Some (h', header_commit h h' d)
  | PMouseDown inside =>
      if mousedown_listener d && negb inside then
        let h' := set_sidebar false h in Some (h', header_commit h h' d)
      else Some (h, d)
  end.

Inductive site_reach : Header * DocumentState → Prop :=
| site_reach_init : site_reach (initial_header, initial_document)
| site_reach_step p e p' : site_reach p → site_step p e = Some p' → site_reach p'.

Fixpoint run_site (p : Header * DocumentState) (es : list SiteEvent) : option (Header * DocumentState) :=
  match es with [] => Some p | e :: es' => site_step p e ≫= λ p', run_site p' es' end.

(** ** Lemmas *)

Lemma toggleCategory_lookup id id' m :
  default false (toggleCategory id m !! id') =
    if bool_decide (id = id') then negb (default false (m !! id')) else default false (m !! id').
Proof.
  unfold toggleCategory. case_bool_decide as Heq.
  - subst. by rewrite lookup_insert_eq.
  - by rewrite lookup_insert_ne.
Qed.

(** The document matches the sidebar: locked and listening exactly
    while it is open. *)
Definition document_wf (p : Header * DocumentState) : Prop :=
  (body_overflow p.2 = "hidden" ↔ isSidebarOpen p.1 = true) ∧
  mousedown_listener p.2 = isSidebarOpen p.1.

Lemma header_commit_wf h h' d :
  document_wf (h, d) → document_wf (h', header_commit h h' d).
Proof.
  unfold document_wf, header_commit, header_view. cbn [fst snd]. intros [Ho Hl].
  case_bool_decide as Hv.
  - assert (isSidebarOpen h = isSidebarOpen h') as Hs by (injection Hv; intros; done).
    rewrite <- Hs. by split.
  - unfold sidebar_effect. destruct (isSidebarOpen h'); simpl; split; done || (split; done).
Qed.

Lemma site_step_wf p e p' : document_wf p → site_step p e = Some p' → document_wf p'.
Proof.
  destruct p as [h d]. intros Hwf Hs. destruct e as [e|inside]; simpl in Hs.
  - destruct (header_step h e) as [h'|]; simplify_eq/=. by apply header_commit_wf.
  - destruct (mousedown_listener d && negb inside); simplify_eq/=; [by apply header_commit_wf|done].
Qed.

Lemma run_site_reach p es p' : site_reach p → run_site p es = Some p' → site_reach p'.
Proof.
  revert p. induction es as [|e es IH]; intros p Hr Hrun; simpl in Hrun; [by simplify_eq|].
  destruct (site_step p e) as [p1|] eqn:Hs; simpl in Hrun; [|done].
  apply (IH p1); [by eapply site_reach_step|done].
Qed.

(** ** Theorems *)

(** C37: a dropdown closes under the pointer.  Whatever the header's
    state, when the pointer is over a dropdown's panel, moving it back
    onto the dropdown's button runs only the panel's [onMouseLeave] (the
    panel is a child of the button's container), and the 150 ms timer it
    starts then closes the menu while the pointer rests on the button.
    Leaving the panel for the outside runs [handleMouseLeave] twice, and
    coming back onto the button reopens the menu and clears only the
    second timer: the first still closes it under the pointer. *)
Theorem dropdown_closes_under_pointer h d :
  pointer h = OverPanel d →
  (∃ h1 h2, header_step h (HLeavePanel d) = Some h1 ∧
     header_step h1 (HTimer (next_timer h)) = Some h2 ∧
     pointer h2 = OverButton d ∧ dropdownOpen h2 = None) ∧
  (∃ h1 h2 h3, header_step h (HLeavePanelOut d) = Some h1 ∧
     header_step h1 (HEnterButton d) = Some h2 ∧
     dropdownOpen h2 = Some d ∧ closeTimeout h2 = None ∧
     header_step h2 (HTimer (next_timer h)) = Some h3 ∧
     pointer h3 = OverButton d ∧ dropdownOpen h3 = None).
Proof.
  destruct h as [? ? ? ? ? ? ? ts n p]. cbn [pointer next_timer]. intros ->.
  split; [do 2 eexists|do 3 eexists]; split_and!;
    try (unfold header_step; cbn; rewrite bool_decide_true; [reflexivity|]);
    rewrite ?list_elem_of_filter, ?elem_of_app, ?list_elem_of_singleton; auto with lia.
Qed.

(** C36: a sidebar category is shown expanded exactly when it was toggled
    an odd number of times since the sidebar started collapsed
    ([!undefined] is [true]): toggling is its own inverse. *)
Theorem sidebar_toggle_parity (ids : list string) (id : string) :
  default false (foldl (λ m i, toggleCategory i m) ∅ ids !! id) =
    Nat.odd (length (filter (λ i, i = id) ids)).
Proof.
  assert (∀ m, default false (foldl (λ m i, toggleCategory i m) m ids !! id) =
                xorb (default false (m !! id)) (Nat.odd (length (filter (λ i, i = id) ids))))
    as Hgen.
  { induction ids as [|i ids IH]; intros m; simpl.
    - by destruct (default false (m !! id)).
    - rewrite IH, toggleCategory_lookup, filter_cons. case_bool_decide as Heq; simpl.
      + rewrite decide_True by done. cbn [length]. rewrite Nat.odd_succ, <- Nat.negb_odd.
        by destruct (default false _), (Nat.odd _).
      + by rewrite decide_False by done. }
  by rewrite Hgen.
Qed.

(** C21: the sidebar's effect keeps the page in step with it: in every
    state the header, the sidebar and a pointer reach, the page scroll is
    locked ([overflow: hidden]) and the [mousedown] listener registered
    exactly while the sidebar is open; and while it is open, a
    [mousedown] outside the panel closes it and unlocks the page. *)
Theorem sidebar_locks_page p :
  site_reach p →
  document_wf p ∧
  (isSidebarOpen p.1 = true →
   ∃ p', site_step p (PMouseDown false) = Some p' ∧ isSidebarOpen p'.1 = false ∧
         body_overflow p'.2 = "unset").
Proof.
  intros Hr. assert (document_wf p) as Hwf.
  { induction Hr as [|p e p' _ IH Hs]; [|by eapply site_step_wf].
    unfold document_wf. simpl. split; [split; done|done]. }
  split; [done|]. intros Hopen. destruct p as [h d]. destruct Hwf as [_ Hl]. simpl in *.
  rewrite Hl, Hopen. simpl. eexists. split; [reflexivity|]. cbn [fst snd].
  unfold header_commit, header_view. rewrite bool_decide_eq_false_2; [done|].
  simpl. rewrite Hopen. congruence.
Qed.

(** none of the 12 header links and 92 sidebar links leads to a page:
    [App.jsx] routes only [/], [/product/mambobaby-float] and
    [/checkout]; the header's [replace(/ & /g, '-')] also leaves spaces
    in its slugs. *)
Theorem nav_links_unrouted :
  Forall (λ l, app_route l = None) (header_links ++ sidebar_links) ∧
  "/category/action figures" ∈ header_links.
Proof.
  split.
  - apply Forall_forall. intros l Hl.
    assert (forallb (λ l, bool_decide (app_route l = None)) (header_links ++ sidebar_links) = true)
      as Hall by (vm_compute; reflexivity).
    rewrite forallb_forall in Hall. apply list_elem_of_In in Hl.
    exact (proj1 (bool_decide_eq_true _) (Hall l Hl)).
  - apply list_elem_of_In. vm_compute. tauto.
Qed.

(** ** Witnesses *)

(** The header once the pointer has entered the [Categories] button and
    then its open panel. *)
Definition sample_panel_header : Header :=
  mkHeader false false false (Some DCategory) None ∅ "/" [] 1 (OverPanel DCategory).

Lemma dropdown_closes_under_pointer_witness :
  run_header initial_header [HEnterButton DCategory; HEnterPanel DCategory] = Some sample_panel_header ∧
  ∃ h1 h2, header_step sample_panel_header (HLeavePanel DCategory) = Some h1 ∧
    header_step h1 (HTimer 1) = Some h2 ∧ pointer h2 = OverButton DCategory ∧ dropdownOpen h2 = None.
Proof.
  split; [vm_compute; reflexivity|].
  exact (proj1 (dropdown_closes_under_pointer sample_panel_header DCategory eq_refl)).
Defined.

Lemma sidebar_locks_page_witness :
  match run_site (initial_header, initial_document) [PHeader HOpenSidebar; PHeader (HToggleCategory "toys")] with
  | Some p => body_overflow p.2 = "hidden" ∧
              ∃ p', site_step p (PMouseDown false) = Some p' ∧ body_overflow p'.2 = "unset"
  | None => False
  end.
Proof.
  destruct (run_site (initial_header, initial_document) _) as [p|] eqn:E;
    [|vm_compute in E; discriminate].
  assert (site_reach p) as Hr by (eapply run_site_reach; [constructor|exact E]).
  destruct (sidebar_locks_page p Hr) as [[Ho _] Hclose].
  assert (isSidebarOpen p.1 = true) as Hopen by (vm_compute in E; injection E as <-; reflexivity).
  split; [by apply Ho|]. destruct (Hclose Hopen) as (p' & Hs & _ & Hu). by exists p'.
Defined.
