(* ===== verification/Api.v ===== *)
(** * The HTTP boundary: query strings and routing

    What happens between a call of the frontend client
    [src/src/api/index.js] and the backend handler it reaches: the
    client's [URLSearchParams] query built from a filter object, the
    endpoint path it appends to [API_BASE_URL], the URL [fetch] sends,
    Express's routing of that path through the mounts of
    [src/backend/server.js] and the routers of [src/backend/routes], and
    [req.query] as the [qs] parser Express uses reads it back.  Strings
    are byte strings (the UTF-8 encoding of the JavaScript strings);
    the round trips are stated for ASCII text. *)

From S2P Require Import Prelude JsString.
From Stdlib Require Import Ascii.
Local Open Scope nat_scope.

(** ** Bytes and hexadecimal digits *)

Definition byte_of (c : ascii) : nat := nat_of_ascii c.

Definition is_ascii_char (c : ascii) : bool := (byte_of c <? 128)%nat.

Definition is_alnum (c : ascii) : bool :=
  let n := byte_of c in
  ((48 <=? n) && (n <=? 57)) || ((65 <=? n) && (n <=? 90)) || ((97 <=? n) && (n <=? 122)).

(** An uppercase hexadecimal digit. *)
Definition hex_digit (n : nat) : ascii :=
  if (n <? 10)%nat then ascii_of_nat (48 + n) else ascii_of_nat (55 + n).

(** The value of a hexadecimal digit, either case. *)
Definition hex_value (c : ascii) : option nat :=
  let n := byte_of c in
  if (48 <=? n) && (n <=? 57) then Some (n - 48)%nat
  else if (65 <=? n) && (n <=? 70) then Some (n - 55)%nat
  else if (97 <=? n) && (n <=? 102) then Some (n - 87)%nat
  else None.

(** ** [URLSearchParams.prototype.toString()] *)

(** The [application/x-www-form-urlencoded] byte serializer: [*], [-],
    [.], [_] and ASCII alphanumerics stay, a space becomes [+], every
    other byte [%XX]. *)
Definition urlencode_byte (c : ascii) : string :=
  if is_alnum c || Ascii.eqb c "*" || Ascii.eqb c "-" || Ascii.eqb c "." || Ascii.eqb c "_"
  then String c ""
  else if Ascii.eqb c " " then "+"
  else String "%" (String (hex_digit (byte_of c / 16)) (String (hex_digit (byte_of c mod 16)) "")).

Fixpoint form_urlencode (s : string) : string :=
  match s with
  | "" => ""
  | String c r => urlencode_byte c +:+ form_urlencode r
  end.

(** The serialization of a list of name-value pairs. *)
Definition search_params_to_string (ps : list (string * string)) : string :=
  str_join "&" ((λ p, form_urlencode p.1 +:+ "=" +:+ form_urlencode p.2) <$> ps).

(** A value of the client's [filters] object: [undefined], [null] or a
    string (a number is passed as its [toString]). *)
Inductive FilterValue := FUndefined | FNull | FStr (s : string).

(** [Object.entries(filters).forEach(([key, value]) => { if (value !==
    undefined && value !== null && value !== '') queryParams.append(key,
    value) })]. *)
Definition filter_params (filters : list (string * FilterValue)) : list (string * string) :=
  omap (λ kv, match kv.2 with
              | FStr v => if String.eqb v "" then None else Some (kv.1, v)
              | _ => None
              end) filters.

Definition build_query (filters : list (string * FilterValue)) : string :=
  search_params_to_string (filter_params filters).

(** [`${base}${query ? `?${query}` : ''}`]. *)
Definition with_query (base query : string) : string :=
  if String.eqb query "" then base else base +:+ "?" +:+ query.

(** ** [decodeURIComponent] *)

(** A character of the input, or a byte written [%XX]. *)
Inductive UriToken := TChar (c : ascii) | TByte (b : nat).

(** The tokens of a string; [None] when a [%] is not followed by two
    hexadecimal digits (a [URIError]). *)
Fixpoint uri_tokens (s : string) : option (list UriToken) :=
  match s with
  | "" => Some []
  | String "%" (String h1 (String h2 r)) =>
      match hex_value h1, hex_value h2 with
      | Some a, Some b => (λ ts, TByte (16 * a + b) :: ts) <$> uri_tokens r
      | _, _ => None
      end
  | String "%" _ => None
  | String c r => (λ ts, TChar c :: ts) <$> uri_tokens r
  end.

Definition is_continuation (b : nat) : bool := (128 <=? b)%nat && (b <? 192)%nat.

Definition bytes_string (bs : list nat) : string :=
  foldr (λ b s, String (ascii_of_nat b) s) "" bs.

(** The UTF-8 decoding of the [%XX] bytes: a byte below [0x80] is a
    character; a lead byte takes one to three continuation bytes written
    [%XX], and the sequence must be the shortest encoding of a code point
    that is not a surrogate and not above [U+10FFFF]. *)
Fixpoint utf8_decode (ts : list UriToken) : option string :=
  match ts with
  | [] => Some ""
  | TChar c :: r => String c <$> utf8_decode r
  | TByte b :: r =>
      if (b <? 128)%nat then String (ascii_of_nat b) <$> utf8_decode r else
      match r with
      | TByte b1 :: r1 =>
          if (194 <=? b)%nat && (b <=? 223)%nat && is_continuation b1
          then (λ s, bytes_string [b; b1] +:+ s) <$> utf8_decode r1 else
          match r1 with
          | TByte b2 :: r2 =>
              if (224 <=? b)%nat && (b <=? 239)%nat && is_continuation b1 && is_continuation b2 &&
                 negb ((b =? 224)%nat && (b1 <? 160)%nat) && negb ((b =? 237)%nat && (159 <? b1)%nat)
              then (λ s, bytes_string [b; b1; b2] +:+ s) <$> utf8_decode r2 else
              match r2 with
              | TByte b3 :: r3 =>
                  if (240 <=? b)%nat && (b <=? 244)%nat && is_continuation b1 &&
                     is_continuation b2 && is_continuation b3 &&
                     negb ((b =? 240)%nat && (b1 <? 144)%nat) && negb ((b =? 244)%nat && (143 <? b1)%nat)
                  then (λ s, bytes_string [b; b1; b2; b3] +:+ s) <$> utf8_decode r3 else None
              | _ => None
              end
          | _ => None
          end
      | _ => None
      end
  end.

(** [decodeURIComponent(s)]; [None] is the [URIError] it throws. *)
Definition decode_uri_component (s : string) : option string :=
  uri_tokens s ≫= utf8_decode.

(** ** [req.query]: the [qs] parser *)

Fixpoint replace_plus (s : string) : string :=
  match s with
  | "" => ""
  | String c r => String (if Ascii.eqb c "+" then " " else c) (replace_plus r)
  end.

(** [qs]'s decoder: [+] as a space, then [decodeURIComponent], the
    undecoded string when that throws. *)
Definition qs_decode (s : string) : string :=
  let s' := replace_plus s in default s' (decode_uri_component s').

(** The position of the first [=], and of the first [=] preceded by
    [\]]. *)
Fixpoint index_of (c : ascii) (s : string) : option nat :=
  match s with
  | "" => None
  | String c' r => if Ascii.eqb c' c then Some 0%nat else S <$> index_of c r
  end.

Fixpoint index_of_bracket_eq (s : string) : option nat :=
  match s with
  | String "]" (String "=" _) => Some 0%nat
  | String _ r => S <$> index_of_bracket_eq r
  | "" => None
  end.

(** One [&]-separated part: [pos] is the [=] after the first [\]=] if any,
    else the first [=]; the key and the value are decoded, the value of
    a part without [=] being [''].  *)
Definition qs_part (part : string) : string * string :=
  let pos := match index_of_bracket_eq part with
             | Some i => Some (S i)
             | None => index_of "=" part
             end in
  match pos with
  | None => (qs_decode part, "")
  | Some p => (qs_decode (Stdlib.Strings.String.substring 0 p part),
               qs_decode (Stdlib.Strings.String.substring (S p) (String.length part) part))
  end.

(** A parsed query value: a string, or the array [qs] makes of a
    repeated key. *)
Inductive QsValue := QsString (s : string) | QsArray (vs : list string).

Definition qs_combine (old : QsValue) (v : string) : QsValue :=
  match old with QsString s => QsArray [s; v] | QsArray vs => QsArray (vs ++ [v]) end.

Fixpoint qs_insert (k v : string) (obj : list (string * QsValue)) : list (string * QsValue) :=
  match obj with
  | [] => [(k, QsString v)]
  | (k', old) :: r => if String.eqb k k' then (k', qs_combine old v) :: r else (k', old) :: qs_insert k v r
  end.

(** [qs.parse(str)] with Express's options, for keys without brackets
    (a key [a[b]] makes a nested object, which is not modelled): at most
    [parameterLimit = 1000] parts, an empty key dropped, a repeated key
    collected into an array. *)
Definition qs_parse (query : string) : list (string * QsValue) :=
  foldl (λ obj part, let '(k, v) := qs_part part in
                     if String.eqb k "" then obj else qs_insert k v obj)
    [] (take 1000 (split_on "&" query)).

(** ** Lemmas *)

Definition ascii_text (s : string) : bool := str_forallb is_ascii_char s.

(** No character the parser splits or searches on survives encoding. *)
Definition query_safe (c : ascii) : bool :=
  negb (Ascii.eqb c "&") && negb (Ascii.eqb c "=") && negb (Ascii.eqb c "]").

Lemma replace_plus_app a b : replace_plus (a +:+ b) = replace_plus a +:+ replace_plus b.
Proof. induction a as [|c a IH]; simpl; [done|]. by rewrite IH. Qed.

(** Decoding one encoded ASCII character, checked on all 128 of them. *)
Lemma decode_urlencode_byte c rest :
  is_ascii_char c = true →
  (uri_tokens (replace_plus (urlencode_byte c) +:+ rest) ≫= utf8_decode) =
    String c <$> (uri_tokens rest ≫= utf8_decode).
Proof.
  destruct c as [[] [] [] [] [] [] [] []]; intros Hc; try discriminate Hc;
    simpl; rewrite ?str_app_nil; destruct (uri_tokens rest); reflexivity.
Qed.

Lemma urlencode_byte_safe c : str_forallb query_safe (urlencode_byte c) = true.
Proof. destruct c as [[] [] [] [] [] [] [] []]; reflexivity. Qed.

Lemma form_urlencode_safe s : str_forallb query_safe (form_urlencode s) = true.
Proof.
  induction s as [|c s IH]; [done|]. simpl. by rewrite str_forallb_app, urlencode_byte_safe, IH.
Qed.

Lemma qs_decode_urlencode s : ascii_text s = true → qs_decode (form_urlencode s) = s.
Proof.
  unfold qs_decode, decode_uri_component.
  assert (ascii_text s = true → uri_tokens (replace_plus (form_urlencode s)) ≫= utf8_decode = Some s)
    as Hdec.
  { induction s as [|c s IH]; [done|]. unfold ascii_text. simpl.
    intros [Hc Hs]%andb_prop. rewrite replace_plus_app, decode_urlencode_byte by done.
    by rewrite IH. }
  intros Hs. by rewrite Hdec.
Qed.

Lemma str_forallb_safe_no_sep (sep : ascii) s :
  sep = "&"%char ∨ sep = "="%char ∨ sep = "]"%char →
  str_forallb query_safe s = true → str_forallb (λ c, negb (Ascii.eqb c sep)) s = true.
Proof.
  intros Hsep. apply str_forallb_impl. intros c.
  unfold query_safe. destruct (Ascii.eqb_spec c sep); [|done].
  subst. destruct Hsep as [-> | [-> | ->]]; simpl; by rewrite ?andb_false_r.
Qed.

(** [str.split('&')] of a non-empty [join('&')] of parts without [&]. *)
Lemma split_on_join (sep : ascii) parts :
  parts ≠ [] → Forall (λ p, str_forallb (λ c, negb (Ascii.eqb c sep)) p = true) parts →
  split_on sep (str_join (String sep "") parts) = parts.
Proof.
  induction parts as [|p [|q qs] IH]; intros Hne Hall; [done| |].
  - inversion Hall; subst. by apply split_on_none.
  - inversion Hall as [|? ? Hp Hrest]; subst.
    rewrite str_join_cons2. change (String sep "" +:+ ?x) with (String sep x).
    rewrite split_on_app by done. by rewrite IH.
Qed.

Lemma index_of_app (c : ascii) a b :
  str_forallb (λ x, negb (Ascii.eqb x c)) a = true → index_of c (a +:+ String c b) = Some (String.length a).
Proof.
  induction a as [|x a IH]; simpl; [by rewrite Ascii.eqb_refl|].
  intros [Hx Ha]%andb_prop. apply negb_true_iff in Hx. by rewrite Hx, IH.
Qed.

Lemma index_of_bracket_eq_none s :
  str_forallb (λ x, negb (Ascii.eqb x "]")) s = true → index_of_bracket_eq s = None.
Proof.
  induction s as [|x s IH]; [done|]. simpl. intros [Hx Hs]%andb_prop.
  rewrite IH by done. destruct (Ascii.eqb_spec x "]"); [done|].
  destruct x as [[] [] [] [] [] [] [] []]; try done; destruct s as [|[[] [] [] [] [] [] [] []] s]; done.
Qed.

Lemma substring_prefix a b : Stdlib.Strings.String.substring 0 (String.length a) (a +:+ b) = a.
Proof. induction a as [|c a IH]; simpl; [by destruct b|]. by rewrite IH. Qed.

Lemma substring_suffix a b n :
  String.length b ≤ n → Stdlib.Strings.String.substring (String.length a) n (a +:+ b) = b.
Proof.
  induction a as [|c a IH]; simpl; intros Hn.
  - revert n Hn. induction b as [|c b IH]; intros n Hn.
    + by destruct n.
    + destruct n as [|n]; simpl in Hn; [lia|]. simpl. rewrite IH; [done|lia].
  - by apply IH.
Qed.

(** A part [k=v] written by [URLSearchParams] reads back as [(k, v)]. *)
Lemma qs_part_encoded k v :
  ascii_text k = true → ascii_text v = true →
  qs_part (form_urlencode k +:+ "=" +:+ form_urlencode v) = (k, v).
Proof.
  intros Hk Hv. pose proof (form_urlencode_safe k) as Sk. pose proof (form_urlencode_safe v) as Sv.
  unfold qs_part. change ("=" +:+ form_urlencode v) with (String "=" (form_urlencode v)).
  rewrite index_of_bracket_eq_none.
  2: { rewrite str_forallb_app. simpl.
       rewrite !(str_forallb_safe_no_sep "]") by auto. done. }
  rewrite index_of_app by (apply str_forallb_safe_no_sep; auto).
  rewrite substring_prefix.
  change (String "=" (form_urlencode v)) with ("=" +:+ form_urlencode v).
  rewrite str_app_assoc.
  replace (S (String.length (form_urlencode k))) with (String.length (form_urlencode k +:+ "="))
    by (rewrite str_length_app; simpl; lia).
  rewrite substring_suffix by (rewrite !str_length_app; lia).
  by rewrite !qs_decode_urlencode.
Qed.

Lemma qs_insert_fresh k v obj :
  k ∉ obj.*1 → qs_insert k v obj = obj ++ [(k, QsString v)].
Proof.
  induction obj as [|[k' old] obj IH]; simpl; [done|]. intros Hk.
  rewrite elem_of_cons in Hk. destruct (String.eqb_spec k k'); [subst; tauto|].
  rewrite IH; [done|tauto].
Qed.

Definition encode_pair (p : string * string) : string :=
  form_urlencode p.1 +:+ "=" +:+ form_urlencode p.2.

Lemma qs_fold_encoded (pairs : list (string * string)) obj :
  NoDup (pairs.*1) → Forall (λ p, p.1 ≠ "" ∧ ascii_text p.1 = true ∧ ascii_text p.2 = true) pairs →
  (∀ k, k ∈ pairs.*1 → k ∉ obj.*1) →
  foldl (λ obj part, let '(k, v) := qs_part part in
                     if String.eqb k "" then obj else qs_insert k v obj) obj (encode_pair <$> pairs)
  = obj ++ ((λ p, (p.1, QsString p.2)) <$> pairs).
Proof.
  revert obj. induction pairs as [|[k v] pairs IH]; intros obj Hnd Hall Hfresh; simpl.
  { by rewrite app_nil_r. }
  inversion Hall as [|? ? (Hk0 & Hk & Hv) Hrest]; subst. inversion Hnd as [|? ? Hnin Hnd']; subst.
  unfold encode_pair at 1. simpl. rewrite qs_part_encoded by done.
  destruct (String.eqb_spec k ""); [done|].
  rewrite qs_insert_fresh by (apply Hfresh; left).
  rewrite IH; [by rewrite <- app_assoc| done | done |].
  intros k' Hk'. rewrite fmap_app, elem_of_app. simpl. intros [Hin|Hin].
  - apply (Hfresh k'); [by right|done].
  - apply list_elem_of_singleton in Hin. subst. done.
Qed.

Lemma filter_params_elem filters k v :
  (k, v) ∈ filter_params filters → (k, FStr v) ∈ filters.
Proof.
  induction filters as [|[k' [| |v']] filters IH]; simpl; try set_solver.
  destruct (String.eqb v' ""); [set_solver|]. rewrite !elem_of_cons. intros [[= -> ->]|H]; auto.
Qed.

Lemma filter_params_keys_sublist filters : (filter_params filters).*1 `sublist_of` filters.*1.
Proof.
  induction filters as [|[k [| |v]] filters IH]; simpl; try by constructor.
  destruct (String.eqb v ""); simpl; by constructor.
Qed.

Lemma encode_pair_no_amp q : str_forallb (λ c, negb (Ascii.eqb c "&")) (encode_pair q) = true.
Proof.
  unfold encode_pair. rewrite !str_forallb_app.
  rewrite !(str_forallb_safe_no_sep "&") by first [by left | apply form_urlencode_safe]. simpl.
  apply str_forallb_safe_no_sep; [by left|apply form_urlencode_safe].
Qed.

(** ** Theorems *)

(** A filter key [qs] reads as a plain property: non-empty ASCII without
    [[], which would make a nested object. *)
Definition plain_key (k : string) : bool :=
  negb (String.eqb k "") && ascii_text k && str_forallb (λ c, negb (Ascii.eqb c "[")) k.

(** C15: the query the client builds from a filter object reads back
    through Express's [qs] parser as exactly the filters it kept: each key
    with a value other than [undefined], [null] and [''] is a property of
    [req.query] holding that string, in the object's order, whatever
    characters ([&], [=], [+], [%], spaces) the values contain. *)
Theorem query_roundtrip (filters : list (string * FilterValue)) :
  NoDup (filters.*1) → length filters ≤ 1000 →
  Forall (λ kv, plain_key kv.1 = true ∧
                match kv.2 with FStr v => ascii_text v = true | _ => True end) filters →
  qs_parse (build_query filters) = (λ p, (p.1, QsString p.2)) <$> filter_params filters.
Proof.
  intros Hnd Hlen Hall. unfold qs_parse, build_query, search_params_to_string.
  destruct (filter_params filters) as [|p ps] eqn:Hfp; [reflexivity|].
  pose proof (filter_params_keys_sublist filters) as Hsub. rewrite Hfp in Hsub.
  assert (Forall (λ p, p.1 ≠ "" ∧ ascii_text p.1 = true ∧ ascii_text p.2 = true) (p :: ps)) as Hpairs.
  { apply Forall_forall. intros [k v] Hkv. rewrite <- Hfp in Hkv.
    apply filter_params_elem in Hkv. rewrite Forall_forall in Hall.
    destruct (Hall _ Hkv) as [Hk Hv]. simpl in *. unfold plain_key in Hk.
    apply andb_prop in Hk as [[Hk0 Hk]%andb_prop _]. apply negb_true_iff, String.eqb_neq in Hk0.
    done. }
  change ((λ p, form_urlencode p.1 +:+ "=" +:+ form_urlencode p.2) <$> p :: ps) with
    (encode_pair <$> p :: ps).
  rewrite (split_on_join "&") by
    (done || (apply Forall_fmap, Forall_forall; intros q _; apply encode_pair_no_amp)).
  rewrite take_ge.
  2: { rewrite length_fmap. apply sublist_length in Hsub. rewrite length_fmap in Hsub.
       rewrite length_fmap in Hsub. lia. }
  apply (qs_fold_encoded (p :: ps) []); [|done|set_solver].
  by eapply sublist_NoDup.
Qed.

(** ** The URL [fetch] sends *)

(** The client's [API_BASE_URL] without its origin. *)
Definition API_BASE_PATH : string := "/api".

(** The characters before the first [c]. *)
Fixpoint before_char (c : ascii) (s : string) : string :=
  match s with
  | "" => ""
  | String c' r => if Ascii.eqb c' c then "" else String c' (before_char c r)
  end.

(** The characters after the first [c], if any. *)
Fixpoint after_char (c : ascii) (s : string) : option string :=
  match s with
  | "" => None
  | String c' r => if Ascii.eqb c' c then Some r else after_char c r
  end.

(** The path percent-encode set of the URL standard: C0 controls, space,
    the double quote, [#], [<], [>], [?], [`], [{], [}] and every
    non-ASCII byte. *)
Definition in_path_encode_set (c : ascii) : bool :=
  let n := byte_of c in
  (n <? 33) || (126 <? n) || (n =? 34) || Ascii.eqb c "#" || Ascii.eqb c "<" ||
  Ascii.eqb c ">" || Ascii.eqb c "?" || Ascii.eqb c "`" || Ascii.eqb c "{" || Ascii.eqb c "}".

Definition percent_byte (c : ascii) : string :=
  String "%" (String (hex_digit (byte_of c / 16)) (String (hex_digit (byte_of c mod 16)) "")).

Fixpoint encode_path_segment (s : string) : string :=
  match s with
  | "" => ""
  | String c r => (if in_path_encode_set c then percent_byte c else String c "") +:+ encode_path_segment r
  end.

Definition single_dot (s : string) : bool := bool_decide (to_lower s ∈ ["."; "%2e"]).
Definition double_dot (s : string) : bool :=
  bool_decide (to_lower s ∈ [".."; ".%2e"; "%2e."; "%2e%2e"]).

(** The path state of the URL parser over the segments after the first
    [/]: a [..] segment pops the last one, a [.] is dropped, and either
    keeps a trailing slash when it ends the path.  [acc] is reversed. *)
Fixpoint resolve_dots (acc : list string) (segs : list string) : list string :=
  match segs with
  | [] => reverse acc
  | s :: rest =>
      if double_dot s then
        (match rest with [] => reverse ("" :: tail acc) | _ => resolve_dots (tail acc) rest end)
      else if single_dot s then
        (match rest with [] => reverse ("" :: acc) | _ => resolve_dots acc rest end)
      else resolve_dots (s :: acc) rest
  end.

(** [\] is a path separator in a URL of a special scheme such as [http]. *)
Fixpoint backslash_to_slash (s : string) : string :=
  match s with
  | "" => ""
  | String c r => String (if Ascii.eqb c "\" then "/"%char else c) (backslash_to_slash r)
  end.

(** The request target of [fetch(API_BASE_URL + endpoint)]: the fragment
    dropped, the path split at the first [?], cut into segments, each
    percent-encoded and the dot segments resolved; the query as written
    (the client's queries hold no character the query encode set
    changes). *)
Definition request_target (endpoint : string) : list string * option string :=
  let url := before_char "#" (API_BASE_PATH +:+ endpoint) in
  let path := before_char "?" url in
  let segs := match split_on "/" (backslash_to_slash path) with _ :: ss => ss | [] => [] end in
  (resolve_dots [] (encode_path_segment <$> segs), after_char "?" url).

(** ** Express routing *)

Inductive Method := GET | POST | PUT | DELETE.

#[export] Instance Method_eq_dec : EqDecision Method.
Proof. solve_decision. Defined.

(** The handler a request reaches, with its decoded path parameters. *)
Inductive Endpoint :=
| EListProducts | EGetProduct (id : string) | EProductsByCategory (category : string)
| EProductsByAge (ageGroup : string) | EUpdateStock (id : string)
| ECreateOrder | EGetOrder (orderId : string) | ETrackOrder (trackingNumber : string)
| EUpdateOrderStatus (orderId : string) | EListOrders
| ERegister | ELogin | EVerifyToken | ERefreshToken | ELogout
| EGetProfile | EUpdateProfile | EChangePassword | EUserOrders | EGetAddresses | EAddAddress
| EUpdateAddress (addressId : string) | EDeleteAddress (addressId : string)
| EGetWishlist | EAddToWishlist (productId : string) | ERemoveFromWishlist (productId : string)
| ERoot | EHealth
| ENotFound           (** the [app.use('*')] handler: 404 Endpoint not found *)
| EBadParam.          (** a parameter [decodeURIComponent] rejects: 400 *)

(** A segment of a route path: a literal or a [:param]. *)
Inductive PathPat := PLit (s : string) | PParam.

(** A route of a router: its method, its path, and the handler given
    the decoded parameters. *)
Record Route := mkRoute { rt_method : Method; rt_path : list PathPat; rt_endpoint : list string → Endpoint }.

Definition param0 (f : string → Endpoint) (ps : list string) : Endpoint :=
  match ps with p :: _ => f p | [] => ENotFound end.

(** [router.get('/', ...)] and the others of [routes/products.js], in
    declaration order. *)
Definition products_routes : list Route := [
  mkRoute GET [] (λ _, EListProducts);
  mkRoute GET [PParam] (param0 EGetProduct);
  mkRoute GET [PLit "category"; PParam] (param0 EProductsByCategory);
  mkRoute GET [PLit "age"; PParam] (param0 EProductsByAge);
  mkRoute POST [PParam; PLit "stock"] (param0 EUpdateStock)
].

(** The routes of [routes/orders.js]. *)
Definition orders_routes : list Route := [
  mkRoute POST [] (λ _, ECreateOrder);
  mkRoute GET [PParam] (param0 EGetOrder);
  mkRoute GET [PLit "tracking"; PParam] (param0 ETrackOrder);
  mkRoute PUT [PParam; PLit "status"] (param0 EUpdateOrderStatus);
  mkRoute GET [] (λ _, EListOrders)
].

(** The routes of [routes/auth.js]. *)
Definition auth_routes : list Route := [
  mkRoute POST [PLit "register"] (λ _, ERegister);
  mkRoute POST [PLit "login"] (λ _, ELogin);
  mkRoute POST [PLit "verify-token"] (λ _, EVerifyToken);
  mkRoute POST [PLit "refresh-token"] (λ _, ERefreshToken);
  mkRoute POST [PLit "logout"] (λ _, ELogout)
].

(** The routes of [routes/users.js]. *)
Definition users_routes : list Route := [
  mkRoute GET [PLit "profile"] (λ _, EGetProfile);
  mkRoute PUT [PLit "profile"] (λ _, EUpdateProfile);
  mkRoute PUT [PLit "change-password"] (λ _, EChangePassword);
  mkRoute GET [PLit "orders"] (λ _, EUserOrders);
  mkRoute GET [PLit "addresses"] (λ _, EGetAddresses);
  mkRoute POST [PLit "addresses"] (λ _, EAddAddress);
  mkRoute PUT [PLit "addresses"; PParam] (param0 EUpdateAddress);
  mkRoute DELETE [PLit "addresses"; PParam] (param0 EDeleteAddress);
  mkRoute GET [PLit "wishlist"] (λ _, EGetWishlist);
  mkRoute POST [PLit "wishlist"; PParam] (param0 EAddToWishlist);
  mkRoute DELETE [PLit "wishlist"; PParam] (param0 ERemoveFromWishlist)
].

(** [path-to-regexp] without [strict] and without [sensitive]: literals
    compare case-insensitively, a parameter is a non-empty segment, and
    one trailing slash is allowed; the raw parameters are returned. *)
Fixpoint match_segments (pat : list PathPat) (segs : list string) : option (list string) :=
  match pat, segs with
  | [], [] | [], [""] => Some []
  | PLit l :: pat', s :: segs' =>
      if String.eqb (to_lower s) l then match_segments pat' segs' else None
  | PParam :: pat', s :: segs' =>
      if String.eqb s "" then None else (λ ps, s :: ps) <$> match_segments pat' segs'
  | _, _ => None
  end.

(** A mount [app.use(prefix, router)] matches a path whose first
    segments are the prefix's, case-insensitively; the router sees the
    rest. *)
Fixpoint strip_mount (prefix : list string) (segs : list string) : option (list string) :=
  match prefix, segs with
  | [], _ => Some segs
  | l :: prefix', s :: segs' => if String.eqb (to_lower s) l then strip_mount prefix' segs' else None
  | _ :: _, [] => None
  end.

(** Express's [Router.handle]: the layers are tried in order; a layer
    whose path matches decodes its parameters, and a parameter
    [decodeURIComponent] rejects becomes the layer error, which no later
    route can clear: the request ends with 400 whatever its method.  A
    layer whose path matches but whose route does not handle the method
    is skipped. *)
Fixpoint router_dispatch (routes : list Route) (m : Method) (segs : list string) : option Endpoint :=
  match routes with
  | [] => None
  | r :: routes' =>
      match match_segments (rt_path r) segs with
      | Some raw =>
          match mapM decode_uri_component raw with
          | None => Some EBadParam
          | Some ps => if bool_decide (rt_method r = m) then Some (rt_endpoint r ps)
                       else router_dispatch routes' m segs
          end
      | None => router_dispatch routes' m segs
      end
  end.

(** The application of [server.js] (and of [server-hybrid.js], which
    mounts the same routes): the four routers under [/api/...], then
    [GET /], [GET /api/health], and the 404 handler for anything else. *)
Definition app_dispatch (m : Method) (segs : list string) : Endpoint :=
  let mounted := [(["api"; "products"], products_routes); (["api"; "orders"], orders_routes);
                  (["api"; "auth"], auth_routes); (["api"; "users"], users_routes)] in
  let fix try_mounts ms :=
    match ms with
    | [] => None
    | (prefix, routes) :: ms' =>
        match strip_mount prefix segs ≫= router_dispatch routes m with
        | Some e => Some e
        | None => try_mounts ms'
        end
    end in
  match try_mounts mounted with
  | Some e => e
  | None =>
      if bool_decide (m = GET) && bool_decide (match_segments [] segs = Some []) then ERoot
      else if bool_decide (m = GET) &&
              bool_decide (match_segments [PLit "api"; PLit "health"] segs = Some []) then EHealth
      else ENotFound
  end.

(** ** The calls of the client *)

(** [api.get], [api.post], [api.put] and [api.delete] call
    [api.request(endpoint, options)]: the options carry the method (none
    for [get], which [fetch] sends as [GET]) and, for the others, the
    [JSON.stringify]ed body. *)
Record RequestOptions := mkRequestOptions { opt_method : option Method; opt_body : bool }.

Definition api_get (endpoint : string) : string * RequestOptions := (endpoint, mkRequestOptions None false).
Definition api_post (endpoint : string) : string * RequestOptions := (endpoint, mkRequestOptions (Some POST) true).
Definition api_put (endpoint : string) : string * RequestOptions := (endpoint, mkRequestOptions (Some PUT) true).
Definition api_delete (endpoint : string) : string * RequestOptions := (endpoint, mkRequestOptions (Some DELETE) false).

(** The functions of each API object that send a request, with the
    arguments that shape it (request bodies do not take part in
    routing). *)
Inductive ProductCall :=
| GetProducts (filters : list (string * FilterValue)) | GetProduct (id : string)
| GetProductsByCategory (category : string) | GetProductsByAge (ageGroup : string)
| UpdateStock (productId : string).

Inductive OrderCall :=
| CreateOrder | GetOrder (orderId : string) | TrackOrder (trackingNumber : string)
| UpdateOrderStatus (orderId : string) | GetAllOrders (filters : list (string * FilterValue)).

Inductive AuthCall := Register | Login | VerifyTokenCall | RefreshTokenCall | Logout.

Inductive UserCall :=
| GetProfile | UpdateProfile | ChangePassword | GetUserOrders (filters : list (string * FilterValue))
| GetAddresses | AddAddress | UpdateAddress (addressId : string) | DeleteAddress (addressId : string)
| GetWishlist | AddToWishlist (productId : string) | RemoveFromWishlist (productId : string).

Inductive SystemCall := HealthCheck | GetApiInfo.

Inductive ClientCall :=
| ProductApi (c : ProductCall) | OrderApi (c : OrderCall) | AuthApi (c : AuthCall)
| UserApi (c : UserCall) | SystemApi (c : SystemCall).

(** [productApi]. *)
Definition productApi (c : ProductCall) : string * RequestOptions :=
  match c with
  | GetProducts f => api_get (with_query "/products" (build_query f))
  | GetProduct id => api_get ("/products/" +:+ id)
  | GetProductsByCategory cat => api_get ("/products/category/" +:+ cat)
  | GetProductsByAge a => api_get ("/products/age/" +:+ a)
  | UpdateStock id => api_post ("/products/" +:+ id +:+ "/stock")
  end.

(** [orderApi]. *)
Definition orderApi (c : OrderCall) : string * RequestOptions :=
  match c with
  | CreateOrder => api_post "/orders"
  | GetOrder id => api_get ("/orders/" +:+ id)
  | TrackOrder tn => api_get ("/orders/tracking/" +:+ tn)
  | UpdateOrderStatus id => api_put ("/orders/" +:+ id +:+ "/status")
  | GetAllOrders f => api_get (with_query "/orders" (build_query f))
  end.

(** [authApi]: the requests; the session bookkeeping is in [Client]. *)
Definition authApi (c : AuthCall) : string * RequestOptions :=
  match c with
  | Register => api_post "/auth/register"
  | Login => api_post "/auth/login"
  | VerifyTokenCall => api_post "/auth/verify-token"
  | RefreshTokenCall => api_post "/auth/refresh-token"
  | Logout => api_post "/auth/logout"
  end.

(** [userApi]. *)
Definition userApi (c : UserCall) : string * RequestOptions :=
  match c with
  | GetProfile => api_get "/users/profile"
  | UpdateProfile => api_put "/users/profile"
  | ChangePassword => api_put "/users/change-password"
  | GetUserOrders f => api_get (with_query "/users/orders" (build_query f))
  | GetAddresses => api_get "/users/addresses"
  | AddAddress => api_post "/users/addresses"
  | UpdateAddress id => api_put ("/users/addresses/" +:+ id)
  | DeleteAddress id => api_delete ("/users/addresses/" +:+ id)
  | GetWishlist => api_get "/users/wishlist"
  | AddToWishlist id => api_post ("/users/wishlist/" +:+ id)
  | RemoveFromWishlist id => api_delete ("/users/wishlist/" +:+ id)
  end.

(** [systemApi]. *)
Definition systemApi (c : SystemCall) : string * RequestOptions :=
  match c with
  | HealthCheck => api_get "/health"
  | GetApiInfo => api_get ""
  end.

Definition api_call (c : ClientCall) : string * RequestOptions :=
  match c with
  | ProductApi p => productApi p | OrderApi o => orderApi o | AuthApi a => authApi a
  | UserApi u => userApi u | SystemApi y => systemApi y
  end.

(** The method [fetch] sends and the [endpoint] of a call. *)
Definition client_request (c : ClientCall) : Method * string :=
  let '(endpoint, opts) := api_call c in (default GET (opt_method opts), endpoint).

(** The endpoint a request reaches, and the [req.query] it carries. *)
Definition server_receives (c : ClientCall) : Endpoint * list (string * QsValue) :=
  let '(m, endpoint) := client_request c in
  let '(segs, query) := request_target endpoint in
  (app_dispatch m segs, qs_parse (default "" query)).

(** The handler each function is written for. *)
Definition intended_endpoint (c : ClientCall) : Endpoint :=
  match c with
  | ProductApi (GetProducts _) => EListProducts | ProductApi (GetProduct id) => EGetProduct id
  | ProductApi (GetProductsByCategory cat) => EProductsByCategory cat
  | ProductApi (GetProductsByAge a) => EProductsByAge a
  | ProductApi (UpdateStock id) => EUpdateStock id
  | OrderApi CreateOrder => ECreateOrder | OrderApi (GetOrder id) => EGetOrder id
  | OrderApi (TrackOrder tn) => ETrackOrder tn | OrderApi (UpdateOrderStatus id) => EUpdateOrderStatus id
  | OrderApi (GetAllOrders _) => EListOrders
  | AuthApi Register => ERegister | AuthApi Login => ELogin
  | AuthApi VerifyTokenCall => EVerifyToken | AuthApi RefreshTokenCall => ERefreshToken
  | AuthApi Logout => ELogout
  | UserApi GetProfile => EGetProfile | UserApi UpdateProfile => EUpdateProfile
  | UserApi ChangePassword => EChangePassword
  | UserApi (GetUserOrders _) => EUserOrders | UserApi GetAddresses => EGetAddresses
  | UserApi AddAddress => EAddAddress
  | UserApi (UpdateAddress id) => EUpdateAddress id | UserApi (DeleteAddress id) => EDeleteAddress id
  | UserApi GetWishlist => EGetWishlist | UserApi (AddToWishlist id) => EAddToWishlist id
  | UserApi (RemoveFromWishlist id) => ERemoveFromWishlist id
  | SystemApi HealthCheck => EHealth
  | SystemApi GetApiInfo => ERoot
  end.

(** ** [api.request] and the answers of [server.js] *)

(** What [api.request] reads of a response: its status and the [message]
    field of its JSON body ([None] when the body has none). *)
Record HttpResponse := mkHttpResponse { res_status : Z; res_message : option string }.

(** The settled promise of [api.request]. *)
Inductive ClientOutcome := Resolved (status : Z) | Rejected (message : string).

#[export] Instance ClientOutcome_eq_dec : EqDecision ClientOutcome.
Proof. solve_decision. Defined.

(** [if (!response.ok) throw new Error(data.message || `HTTP error!
    status: ${response.status}`); return data]; the [catch] logs and
    rethrows the same error. *)
Definition api_request (r : HttpResponse) : ClientOutcome :=
  if ((200 <=? res_status r) && (res_status r <? 300))%Z then Resolved (res_status r)
  else Rejected (js_or (res_message r) ("HTTP error! status: " +:+ z_to_string (res_status r))).

Definition method_name (m : Method) : string :=
  match m with GET => "GET" | POST => "POST" | PUT => "PUT" | DELETE => "DELETE" end.

(** [req.originalUrl]: the path and query as [fetch] sent them. *)
Definition original_url (segs : list string) (q : option string) : string :=
  "/" +:+ str_join "/" segs +:+ match q with Some q => "?" +:+ q | None => "" end.

(** The answers [server.js] gives itself: [GET /] and [GET /api/health]
    ([res.json], status 200), the 404 handler ([{error, message: `Cannot
    ${req.method} ${req.originalUrl}`, availableEndpoints}]) and, for a
    parameter Express cannot decode, the global error handler
    ([res.status(err.status || 500).json({error, stack?})], no
    [message]); [None] for a request a route handler answers. *)
Definition server_response (m : Method) (url : string) (e : Endpoint) : option HttpResponse :=
  match e with
  | ERoot => Some (mkHttpResponse 200 (Some "Kido Land Backend API is running!"))
  | EHealth => Some (mkHttpResponse 200 None)
  | ENotFound => Some (mkHttpResponse 404 (Some ("Cannot " +:+ method_name m +:+ " " +:+ url)))
  | EBadParam => Some (mkHttpResponse 400 None)
  | _ => None
  end.

(** How a call settles when [server.js] answers it itself. *)
Definition client_outcome (c : ClientCall) : option ClientOutcome :=
  let '(m, endpoint) := client_request c in
  let '(segs, query) := request_target endpoint in
  api_request <$> server_response m (original_url segs query) (app_dispatch m segs).

(** ** Routing lemmas *)

(** A character a path segment keeps through [fetch] and Express
    unchanged: ASCII, outside the path percent-encode set, and none of
    [/], [\] and [%]. *)
Definition segment_char (c : ascii) : bool :=
  is_ascii_char c && negb (in_path_encode_set c) && negb (Ascii.eqb c "/") &&
  negb (Ascii.eqb c "\") && negb (Ascii.eqb c "%").

Definition safe_segment (s : string) : bool :=
  negb (String.eqb s "") && str_forallb segment_char s && negb (single_dot s) && negb (double_dot s).

Lemma before_char_none (c : ascii) s :
  str_forallb (λ x, negb (Ascii.eqb x c)) s = true → before_char c s = s.
Proof.
  induction s as [|x s IH]; [done|]. simpl. intros [Hx Hs]%andb_prop.
  apply negb_true_iff in Hx. by rewrite Hx, IH.
Qed.

Lemma before_char_app (c : ascii) a b :
  str_forallb (λ x, negb (Ascii.eqb x c)) a = true → before_char c (a +:+ String c b) = a.
Proof.
  induction a as [|x a IH]; simpl; [by rewrite Ascii.eqb_refl|].
  intros [Hx Ha]%andb_prop. apply negb_true_iff in Hx. by rewrite Hx, IH.
Qed.

Lemma after_char_none (c : ascii) s :
  str_forallb (λ x, negb (Ascii.eqb x c)) s = true → after_char c s = None.
Proof.
  induction s as [|x s IH]; [done|]. simpl. intros [Hx Hs]%andb_prop.
  apply negb_true_iff in Hx. by rewrite Hx, IH.
Qed.

Lemma after_char_app (c : ascii) a b :
  str_forallb (λ x, negb (Ascii.eqb x c)) a = true → after_char c (a +:+ String c b) = Some b.
Proof.
  induction a as [|x a IH]; simpl; [by rewrite Ascii.eqb_refl|].
  intros [Hx Ha]%andb_prop. apply negb_true_iff in Hx. by rewrite Hx, IH.
Qed.

Lemma backslash_to_slash_id s :
  str_forallb (λ x, negb (Ascii.eqb x "\")) s = true → backslash_to_slash s = s.
Proof.
  induction s as [|x s IH]; [done|]. simpl. intros [Hx Hs]%andb_prop.
  apply negb_true_iff in Hx. by rewrite Hx, IH.
Qed.

Lemma encode_path_segment_id s :
  str_forallb (λ x, negb (in_path_encode_set x)) s = true → encode_path_segment s = s.
Proof.
  induction s as [|x s IH]; [done|]. simpl. intros [Hx Hs]%andb_prop.
  apply negb_true_iff in Hx. by rewrite Hx, IH.
Qed.

Lemma resolve_dots_plain acc segs :
  Forall (λ s, single_dot s = false ∧ double_dot s = false) segs →
  resolve_dots acc segs = reverse acc ++ segs.
Proof.
  revert acc. induction segs as [|s segs IH]; intros acc Hall; simpl.
  - by rewrite app_nil_r.
  - inversion Hall as [|? ? [Hs Hd] Hrest]; subst. rewrite Hd, Hs, IH by done.
    by rewrite reverse_cons, <- app_assoc.
Qed.

Lemma segment_char_not (c x : ascii) :
  c = "/"%char ∨ c = "\"%char ∨ c = "%"%char ∨ c = "?"%char ∨ c = "#"%char →
  segment_char x = true → negb (Ascii.eqb x c) = true.
Proof.
  intros Hc Hx. destruct (Ascii.eqb_spec x c) as [->|]; [|done].
  exfalso. destruct Hc as [-> | [-> | [-> | [-> | ->]]]]; discriminate Hx.
Qed.

Lemma safe_segment_chars (c : ascii) s :
  c = "/"%char ∨ c = "\"%char ∨ c = "%"%char ∨ c = "?"%char ∨ c = "#"%char →
  safe_segment s = true → str_forallb (λ x, negb (Ascii.eqb x c)) s = true.
Proof.
  intros Hc Hs. unfold safe_segment in Hs. apply andb_prop in Hs as [[[_ Hs]%andb_prop _]%andb_prop _].
  apply (str_forallb_impl segment_char); [|done]. intros x. by apply segment_char_not.
Qed.

Lemma str_forallb_join (p : ascii → bool) (sep : ascii) parts :
  p sep = true → Forall (λ s, str_forallb p s = true) parts →
  str_forallb p (str_join (String sep "") parts) = true.
Proof.
  intros Hsep. induction parts as [|s [|t ts] IH]; intros Hall; [done| |].
  - by inversion Hall.
  - inversion Hall as [|? ? Hs Hrest]; subst. rewrite str_join_cons2, !str_forallb_app.
    rewrite Hs, IH by done. simpl. by rewrite Hsep.
Qed.

Lemma safe_segments_chars (c : ascii) segs :
  c = "/"%char ∨ c = "\"%char ∨ c = "%"%char ∨ c = "?"%char ∨ c = "#"%char →
  Forall (λ s, safe_segment s = true) segs →
  Forall (λ s, str_forallb (λ x, negb (Ascii.eqb x c)) s = true) segs.
Proof. intros Hc Hall. eapply Forall_impl; [exact Hall|]. intros s. by apply safe_segment_chars. Qed.

(** The path [fetch] sends for [API_BASE_URL + '/' + segs.join('/')]
    reaches Express as the segments [api :: segs]. *)
Lemma request_target_segments segs :
  segs ≠ [] → Forall (λ s, safe_segment s = true) segs →
  ∀ q, str_forallb (λ x, negb (Ascii.eqb x "#")) q = true →
  request_target ("/" +:+ str_join "/" segs) = ("api" :: segs, None) ∧
  request_target ("/" +:+ str_join "/" segs +:+ "?" +:+ q) = ("api" :: segs, Some q).
Proof.
  intros Hne Hall q Hq.
  set (W := "/" +:+ str_join "/" ("api" :: segs)).
  assert (∀ x, "/api" +:+ ("/" +:+ str_join "/" segs +:+ x) = W +:+ x) as Hw.
  { intros x. unfold W. destruct segs; [done|]. reflexivity. }
  assert ("/api" +:+ ("/" +:+ str_join "/" segs) = W) as Hw0.
  { unfold W. destruct segs; [done|]. reflexivity. }
  assert (Forall (λ s, safe_segment s = true) ("api" :: segs)) as Hall' by (constructor; done).
  assert (∀ c, c = "/"%char ∨ c = "\"%char ∨ c = "%"%char ∨ c = "?"%char ∨ c = "#"%char →
    c ≠ "/"%char → str_forallb (λ x, negb (Ascii.eqb x c)) W = true) as Hnc.
  { intros c Hc Hc'. unfold W. change ("/" +:+ ?x) with (String "/" x).
    rewrite str_forallb_cons. apply andb_true_intro. split.
    - destruct (Ascii.eqb_spec "/" c); [congruence|done].
    - apply str_forallb_join; [|by apply safe_segments_chars].
      destruct (Ascii.eqb_spec "/" c); [congruence|done]. }
  assert (split_on "/" (backslash_to_slash W) = "" :: "api" :: segs) as Hsplit.
  { rewrite backslash_to_slash_id by (apply Hnc; auto; discriminate).
    unfold W. change ("/" +:+ ?x) with ("" +:+ String "/" x). rewrite split_on_app by done.
    rewrite (split_on_join "/") by (done || by apply safe_segments_chars; auto). done. }
  assert (encode_path_segment <$> "api" :: segs = "api" :: segs) as Henc.
  { rewrite <- (list_fmap_id ("api" :: segs)) at 2. apply list_fmap_ext.
    intros i s Hs. apply encode_path_segment_id.
    apply (proj1 (Forall_lookup _ _) Hall') in Hs. unfold safe_segment in Hs.
    apply andb_prop in Hs as [[[_ Hs]%andb_prop _]%andb_prop _].
    apply (str_forallb_impl segment_char); [|done]. intros x Hx.
    unfold segment_char in Hx. by apply andb_prop in Hx as [[[[_ ->]%andb_prop _]%andb_prop _]%andb_prop _]. }
  assert (resolve_dots [] ("api" :: segs) = "api" :: segs) as Hdots.
  { rewrite resolve_dots_plain; [done|]. apply (Forall_impl _ _ _ Hall').
    intros s Hs. unfold safe_segment in Hs. apply andb_prop in Hs as [[_ Hs1]%andb_prop Hs2].
    by apply negb_true_iff in Hs1, Hs2. }
  unfold request_target, API_BASE_PATH. split.
  - rewrite Hw0.
    rewrite (before_char_none "#" W) by (apply Hnc; auto; discriminate).
    rewrite (before_char_none "?" W) by (apply Hnc; auto; discriminate).
    rewrite (after_char_none "?" W) by (apply Hnc; auto; discriminate).
    by rewrite Hsplit, Henc, Hdots.
  - rewrite Hw.
    rewrite (before_char_none "#").
    2: { rewrite str_forallb_app. rewrite Hnc by (auto; discriminate). simpl. done. }
    change ("?" +:+ q) with (String "?" q).
    rewrite before_char_app, after_char_app by (apply Hnc; auto; discriminate).
    by rewrite Hsplit, Henc, Hdots.
Qed.

Lemma uri_tokens_char (c : ascii) r :
  c ≠ "%"%char → uri_tokens (String c r) = (λ ts, TChar c :: ts) <$> uri_tokens r.
Proof. destruct c as [[] [] [] [] [] [] [] []]; intros Hc; done. Qed.

(** [decodeURIComponent] leaves a string without [%] unchanged. *)
Lemma decode_uri_component_plain s :
  str_forallb (λ x, negb (Ascii.eqb x "%")) s = true → decode_uri_component s = Some s.
Proof.
  unfold decode_uri_component. induction s as [|c s IH]; [done|].
  rewrite str_forallb_cons. intros [Hc Hs]%andb_prop. apply negb_true_iff in Hc.
  rewrite uri_tokens_char by (intros ->; discriminate). specialize (IH Hs).
  destruct (uri_tokens s); simpl in *; [|done]. by rewrite IH.
Qed.

Lemma urlencode_byte_no_hash c : str_forallb (λ x, negb (Ascii.eqb x "#")) (urlencode_byte c) = true.
Proof. destruct c as [[] [] [] [] [] [] [] []]; reflexivity. Qed.

Lemma build_query_no_hash f : str_forallb (λ x, negb (Ascii.eqb x "#")) (build_query f) = true.
Proof.
  assert (∀ s, str_forallb (λ x, negb (Ascii.eqb x "#")) (form_urlencode s) = true) as Henc.
  { induction s as [|c s IH]; [done|]. simpl. by rewrite str_forallb_app, urlencode_byte_no_hash. }
  unfold build_query, search_params_to_string. apply str_forallb_join; [done|].
  apply Forall_fmap, Forall_forall. intros p _. simpl. rewrite !str_forallb_app, !Henc. done.
Qed.

(** The path arguments a call must have for the theorem: segments that
    [fetch] and Express carry unchanged. *)
Definition call_ok (c : ClientCall) : bool :=
  match c with
  | ProductApi (GetProduct p | GetProductsByCategory p | GetProductsByAge p | UpdateStock p)
  | OrderApi (GetOrder p | TrackOrder p | UpdateOrderStatus p)
  | UserApi (UpdateAddress p | DeleteAddress p | AddToWishlist p | RemoveFromWishlist p) =>
      safe_segment p
  | _ => true
  end.

(** The query a call sends. *)
Definition client_query (c : ClientCall) : string :=
  match c with
  | ProductApi (GetProducts f) | OrderApi (GetAllOrders f) | UserApi (GetUserOrders f) => build_query f
  | _ => ""
  end.

(** The segments of a path [fetch] sends. *)
Lemma target_path segs :
  segs ≠ [] → Forall (λ s, safe_segment s = true) segs →
  request_target ("/" +:+ str_join "/" segs) = ("api" :: segs, None).
Proof. intros Hne Hall. exact (proj1 (request_target_segments segs Hne Hall "" eq_refl)). Qed.

Lemma target_with_query segs q :
  segs ≠ [] → Forall (λ s, safe_segment s = true) segs →
  str_forallb (λ x, negb (Ascii.eqb x "#")) q = true →
  request_target (with_query ("/" +:+ str_join "/" segs) q) =
    ("api" :: segs, if String.eqb q "" then None else Some q).
Proof.
  intros Hne Hall Hq. unfold with_query. destruct (String.eqb q ""); [by apply target_path|].
  rewrite <- str_app_assoc. exact (proj2 (request_target_segments segs Hne Hall q Hq)).
Qed.

Lemma qs_parse_empty : qs_parse "" = [].
Proof. reflexivity. Qed.

Ltac reach_route segs :=
  unfold server_receives, client_request, api_call, productApi, orderApi, authApi, userApi,
    systemApi, api_get, api_post, api_put, api_delete; cbv beta iota;
  lazymatch goal with |- context [request_target ?e] =>
    change e with ("/" +:+ str_join "/" segs) end;
  rewrite (target_path segs) by (done || (repeat constructor; assumption));
  try match goal with H : safe_segment ?p = true |- _ =>
    is_var p; destruct p as [|?ch ?p']; [discriminate H|] end;
  unfold app_dispatch; simpl;
  repeat match goal with |- context [if ?b then _ else _] =>
    lazymatch b with context [decode_uri_component] => fail | _ => destruct b end end; simpl;
  repeat match goal with
  | H : safe_segment ?p = true |- context [decode_uri_component ?p] =>
      rewrite (decode_uri_component_plain p) by (apply safe_segment_chars; auto)
  end; reflexivity.

Ltac reach_query segs :=
  unfold server_receives, client_request, api_call, productApi, orderApi, authApi, userApi,
    systemApi, api_get, api_post, api_put, api_delete; cbv beta iota;
  lazymatch goal with |- context [request_target (with_query ?e ?q)] =>
    change e with ("/" +:+ str_join "/" segs) end;
  rewrite (target_with_query segs) by first [done | apply build_query_no_hash | repeat constructor];
  simpl client_query;
  lazymatch goal with |- context [String.eqb ?q ""] =>
    destruct (String.eqb_spec q "") as [->|]; reflexivity end.

(** C12: every function of the client whose path arguments are plain
    segments (non-empty ASCII, none of [/ \ % ? #] or the characters
    the URL parser escapes, not a dot segment) reaches, through
    [fetch], the mounts of [server.js] and the route order of its router,
    the handler it is written for, with those arguments as [req.params]
    and its query string as [req.query]; [systemApi.getApiInfo()]
    requests [/api], which no route serves: it gets the 404 handler. *)
Theorem client_reaches_handler c :
  call_ok c = true →
  server_receives c =
    (match c with SystemApi GetApiInfo => ENotFound | _ => intended_endpoint c end,
     qs_parse (client_query c)).
Proof.
  destruct c as [[]|[]|[]|[]|[]]; simpl call_ok; intros Hok.
  - reach_query ["products"].
  - reach_route ["products"; id].
  - reach_route ["products"; "category"; category].
  - reach_route ["products"; "age"; ageGroup].
  - reach_route ["products"; productId; "stock"].
  - reach_route ["orders"].
  - reach_route ["orders"; orderId].
  - reach_route ["orders"; "tracking"; trackingNumber].
  - reach_route ["orders"; orderId; "status"].
  - reach_query ["orders"].
  - reach_route ["auth"; "register"].
  - reach_route ["auth"; "login"].
  - reach_route ["auth"; "verify-token"].
  - reach_route ["auth"; "refresh-token"].
  - reach_route ["auth"; "logout"].
  - reach_route ["users"; "profile"].
  - reach_route ["users"; "profile"].
  - reach_route ["users"; "change-password"].
  - reach_query ["users"; "orders"].
  - reach_route ["users"; "addresses"].
  - reach_route ["users"; "addresses"].
  - reach_route ["users"; "addresses"; addressId].
  - reach_route ["users"; "addresses"; addressId].
  - reach_route ["users"; "wishlist"].
  - reach_route ["users"; "wishlist"; productId].
  - reach_route ["users"; "wishlist"; productId].
  - reach_route ["health"].
  - reflexivity.
Qed.

(** ** Witnesses *)

Definition sample_filters : list (string * FilterValue) :=
  [("category", FStr "Pool & Beach"); ("minPrice", FUndefined); ("search", FStr "50% off+");
   ("sort", FNull); ("page", FStr "2")].

Lemma query_roundtrip_witness :
  qs_parse (build_query sample_filters) =
    [("category", QsString "Pool & Beach"); ("search", QsString "50% off+"); ("page", QsString "2")].
Proof.
  apply (query_roundtrip sample_filters).
  - vm_compute. repeat constructor; set_solver.
  - vm_compute. lia.
  - repeat constructor.
Defined.

Lemma client_reaches_handler_witness :
  server_receives (ProductApi (GetProductsByCategory "pool-toys")) = (EProductsByCategory "pool-toys", []) ∧
  server_receives (ProductApi (GetProducts sample_filters)) =
    (EListProducts, qs_parse (build_query sample_filters)).
Proof.
  split.
  - apply (client_reaches_handler (ProductApi (GetProductsByCategory "pool-toys"))). vm_compute. reflexivity.
  - apply (client_reaches_handler (ProductApi (GetProducts sample_filters))). reflexivity.
Defined.

