(* ===== verification/Boot.v ===== *)
(** * Starting the backend

    What happens when [node server.js] or [node server-hybrid.js] runs:
    Node loads the module, which [require]s the local modules it needs,
    depth first and in source order, each of them loading the modules it
    needs in turn; a [require] of a file that does not exist throws
    [MODULE_NOT_FOUND] naming it, and the throw ends every load on the
    way up.  Once loaded, [startServer] initializes the database
    ([initializeDatabase]) and listens.  The npm packages ([express],
    [sequelize], ...) are taken to be installed; only the repository's
    own modules are in the graph.  The outcomes of the database calls
    ([authenticate], [sync], the seed) are the arguments [connected],
    [synced] and [seeded].  The same loader resolves the imports of the
    frontend's React modules. *)

From S2P Require Import Prelude.
Local Open Scope Z_scope.

(** ** The module graph *)

(** A module of [src/backend], by its path without [.js], and the local
    modules its top level requires, in source order. *)
Definition ModuleGraph := list (string * list string).



(** What [module.exports] of [models/index.js] holds. *)
Definition models_index_exports : list string :=
  ["sequelize"; "User"; "Product"; "Order"; "OrderItem"; "Address"; "syncDatabase"; "seedDatabase"].

(** The outcome of loading a module: loaded, [MODULE_NOT_FOUND] for the
    named module, or [OutOfFuel] when the depth bound is reached, which
    only a cycle can cause. *)
Inductive LoadResult := Loaded | NotFound (m : string) | OutOfFuel.

#[export] Instance LoadResult_eq_dec : EqDecision LoadResult.
Proof. solve_decision. Defined.

Section Loader.
Variable mods : ModuleGraph.

Fixpoint find_module (m : string) (g : ModuleGraph) : option (list string) :=
  match g with
  | [] => None
  | (m', deps) :: g' => if String.eqb m m' then Some deps else find_module m g'
  end.

(** The body of a module: its [require] calls in order; the first that
    throws ends the load with its error. *)
Fixpoint run_requires (req : string → LoadResult) (ds : list string) : LoadResult :=
  match ds with
  | [] => Loaded
  | d :: ds' => match req d with Loaded => run_requires req ds' | r => r end
  end.

(** [require(m)]: a module that is not a file throws [MODULE_NOT_FOUND];
    otherwise its body runs. *)
Fixpoint require_module (fuel : nat) (m : string) : LoadResult :=
  match fuel with
  | O => OutOfFuel
  | S fuel' =>
      match find_module m mods with
      | None => NotFound m
      | Some deps => run_requires (require_module fuel') deps
      end
  end.

(** A depth bound that suffices for a graph without cycles. *)
Definition require (m : string) : LoadResult := require_module (S (length mods)) m.

End Loader.

(** ** Database initialization and start *)

Inductive DbMode := Postgresql | Memory.

#[export] Instance DbMode_eq_dec : EqDecision DbMode.
Proof. solve_decision. Defined.

Inductive BootOutcome :=
| ModuleNotFound (m : string)   (** the entry module fails to load *)
| Exited (code : Z)             (** [process.exit(code)] *)
| Unresolved                    (** the depth bound was reached: never without a cycle *)
| Listening (mode : DbMode).    (** [app.listen] with [global.dbMode] *)

#[export] Instance BootOutcome_eq_dec : EqDecision BootOutcome.
Proof. solve_decision. Defined.

Section Start.
Variable mods : ModuleGraph.

(** [checkPostgreSQL] of [server-hybrid.js]: [require('./config/database')]
    and [testConnection()], which catches its own errors and answers
    [false]; a throw of the [require] is caught as [false]. *)
Definition checkPostgreSQL (connected : bool) : bool :=
  match require mods "config/database" with Loaded => connected | _ => false end.

(** [initializeDatabase] of [server-hybrid.js]: with a connection,
    [require('./models/index')], [syncDatabase] and [seedDatabase] (which
    rethrow their errors), answering ['postgresql']; any throw is caught
    as ['memory']. *)
Definition hybrid_initializeDatabase (connected synced seeded : bool) : DbMode :=
  if checkPostgreSQL connected then
    match require mods "models/index" with
    | Loaded => if synced && seeded then Postgresql else Memory
    | _ => Memory
    end
  else Memory.

(** [node server-hybrid.js]: the module loads (its routes are required at
    the top level), then [startServer] sets [global.dbMode] and listens. *)
Definition start_hybrid (connected synced seeded : bool) : BootOutcome :=
  match require mods "server-hybrid" with
  | NotFound m => ModuleNotFound m
  | OutOfFuel => Unresolved
  | Loaded => Listening (hybrid_initializeDatabase connected synced seeded)
  end.

(** [initializeDatabase] of [server.js]: [testConnection] is taken from
    [require('./models/index')]; calling it when the module does not
    export it throws a [TypeError]; a failed connection throws; any throw
    ends in [process.exit(1)]. *)
Definition server_initializeDatabase (connected synced seeded : bool) : option Z :=
  if bool_decide ("testConnection" ∈ models_index_exports) then
    if connected && synced && seeded then None else Some 1
  else Some 1.

(** [node server.js]. *)
Definition start_server (connected synced seeded : bool) : BootOutcome :=
  match require mods "server" with
  | NotFound m => ModuleNotFound m
  | OutOfFuel => Unresolved
  | Loaded =>
      match server_initializeDatabase connected synced seeded with
      | Some code => Exited code
      | None => Listening Postgresql
      end
  end.

End Start.




(** ** The frontend's import graph *)

(** The relative [import]s of the React modules of [src/src], by path
    without extension, in source order ([App.css] is a side-effect
    import); the bundler resolves each before the app runs. *)
Definition frontend_modules : ModuleGraph := [
  ("App", ["context/CartContext"; "components/Header"; "components/TopBar"; "components/Hero";
           "components/CategorySection"; "components/FeaturedProducts"; "components/OccasionSection";
           "components/ProductPage"; "components/CheckoutPage"; "components/Footer"; "App.css"]);
  ("components/Header", ["context/CartContext"; "components/Sidebar"; "components/CartModal"]);
  ("components/Sidebar", []);
  ("components/CartModal", ["context/CartContext"; "components/Portal"]);
  ("components/TopBar", []);
  ("components/Hero", []);
  ("components/CategorySection", []);
  ("components/FeaturedProducts", ["context/CartContext"; "components/Toast"]);
  ("components/OccasionSection", []);
  ("components/ProductPage", ["context/CartContext"; "components/Toast"]);
  ("components/Toast", ["components/Portal"]);
  ("components/CheckoutPage", ["context/CartContext"]);
  ("components/Footer", [])
].

(** The imports of a graph that name no module of it. *)
Definition unresolved_imports (g : ModuleGraph) : list string :=
  remove_dups (filter (λ d, find_module d g = None) (concat g.*2)).

(** ** Lemmas *)






(** ** Theorems *)


(** the frontend cannot be bundled from the repository: [App.jsx]
    imports [./context/CartContext] first, which is not in it; the
    imports that name no file are the cart context, [App.css] and
    [components/Portal].  With the three added (as modules without
    imports of their own) every module resolves. *)
Theorem frontend_imports_unresolved :
  require frontend_modules "App" = NotFound "context/CartContext" ∧
  unresolved_imports frontend_modules = ["App.css"; "components/Portal"; "context/CartContext"] ∧
  require (frontend_modules ++ [("context/CartContext", []); ("App.css", []); ("components/Portal", [])]) "App"
    = Loaded.
Proof. split_and!; vm_compute; reflexivity. Qed.

(** ** Witnesses *)

