(* ===== verification/Footer.v ===== *)
(** * The footer and the site's links

    [src/src/components/Footer.jsx]: the newsletter form, a controlled
    [<input type="email" required>] whose [onChange] keeps the state
    [email] and whose [onSubmit] runs [handleNewsletterSubmit] (the
    signup is only written to the console, then the field is cleared).
    The browser takes part: the input's value is sanitized (line breaks
    removed, surrounding ASCII whitespace trimmed) and the form is only
    submitted when the field is non-empty and a valid e-mail address in
    the sense of the HTML standard.  The file also gathers every
    internal link the pages render (header, sidebar, footer), against
    the routes of [App.jsx]. *)

From S2P Require Import Prelude JsString Api Navigation.
From Stdlib Require Import Ascii.
Local Open Scope nat_scope.

(** ** The input's value *)

(** ASCII whitespace of the HTML standard: tab, LF, FF, CR and space. *)
Definition is_ascii_whitespace (c : ascii) : bool :=
  let n := byte_of c in (n =? 9) || (n =? 10) || (n =? 12) || (n =? 13) || (n =? 32).

Fixpoint strip_newlines (s : string) : string :=
  match s with
  | "" => ""
  | String c r =>
      if (byte_of c =? 10) || (byte_of c =? 13) then strip_newlines r else String c (strip_newlines r)
  end.

Fixpoint strip_leading_whitespace (s : string) : string :=
  match s with
  | "" => ""
  | String c r => if is_ascii_whitespace c then strip_leading_whitespace r else s
  end.

Fixpoint strip_trailing_whitespace (s : string) : string :=
  match s with
  | "" => ""
  | String c r =>
      let r' := strip_trailing_whitespace r in
      if is_ascii_whitespace c && String.eqb r' "" then "" else String c r'
  end.

(** The value sanitization algorithm of [<input type="email">]. *)
Definition sanitize_email_value (v : string) : string :=
  strip_trailing_whitespace (strip_leading_whitespace (strip_newlines v)).

(** ** A valid e-mail address (HTML standard) *)

(** [[a-zA-Z0-9.!#$%&'*+/=?^_`{|}~-]]. *)
Definition is_email_local_char (c : ascii) : bool :=
  is_alnum c || negb (str_forallb (λ x, negb (Ascii.eqb x c)) ".!#$%&'*+/=?^_`{|}~-").

Fixpoint last_char (s : string) : option ascii :=
  match s with
  | "" => None
  | String c "" => Some c
  | String _ r => last_char r
  end.

(** [[a-zA-Z0-9]([a-zA-Z0-9-]{0,61}[a-zA-Z0-9])?]: 1 to 63 letters,
    digits and hyphens, neither first nor last a hyphen. *)
Definition valid_label (l : string) : bool :=
  match l with
  | "" => false
  | String c _ =>
      (String.length l <=? 63) && str_forallb (λ x, is_alnum x || Ascii.eqb x "-") l &&
      is_alnum c && is_alnum (default "-"%char (last_char l))
  end.

(** The pattern [^local-chars+@label(\.label)*$]. *)
Definition html_valid_email (s : string) : bool :=
  match split_on "@" s with
  | [local; domain] =>
      negb (String.eqb local "") && str_forallb is_email_local_char local &&
      forallb valid_label (split_on "." domain)
  | _ => false
  end.

(** ** [Footer.jsx] *)

Record Footer := mkFooter {
  email : string;
  console_log : list string   (** the [console.log] lines written so far *)
}.

(** [useState('')]. *)
Definition initial_footer : Footer := mkFooter "" [].

(** [handleNewsletterSubmit]: [e.preventDefault()], [console.log('Newsletter
    signup:', email)], [setEmail('')]. *)
Definition handleNewsletterSubmit (f : Footer) : Footer :=
  mkFooter "" (console_log f ++ ["Newsletter signup: " +:+ email f]).

Inductive FooterEvent :=
| FTyped (raw : string)   (** the user edits the field to [raw] *)
| FSubmit.                (** the send button or Enter *)

(** [onChange={(e) => setEmail(e.target.value)}] reads the sanitized
    value; a submission is blocked by constraint validation ([required],
    [type="email"]), [None], unless the value is a valid address. *)
Definition footer_step (f : Footer) (e : FooterEvent) : option Footer :=
  match e with
  | FTyped raw => Some (mkFooter (sanitize_email_value raw) (console_log f))
  | FSubmit => if html_valid_email (email f) then Some (handleNewsletterSubmit f) else None
  end.

Inductive footer_reach : Footer → Prop :=
| footer_reach_init : footer_reach initial_footer
| footer_reach_step f e f' : footer_reach f → footer_step f e = Some f' → footer_reach f'.

Fixpoint run_footer (f : Footer) (es : list FooterEvent) : option Footer :=
  match es with [] => Some f | e :: es' => footer_step f e ≫= λ f', run_footer f' es' end.

(** ** The internal links of the pages *)

(** The header's [Home], logo, [All Toys] and [About Us] links. *)
Definition header_page_links : list string := ["/"; "/"; "/toys"; "/about"].

(** The sidebar's bottom links. *)
Definition sidebar_page_links : list string := ["/about"; "/contact"; "/help"].

(** The footer's [Customer Service] and [Company] links. *)
Definition footer_links : list string :=
  ["/contact"; "/faq"; "/track-order"; "/delivery-info"; "/returns";
   "/about"; "/careers"; "/terms"; "/privacy"].

Definition site_links : list string :=
  header_page_links ++ header_links ++ sidebar_links ++ sidebar_page_links ++ footer_links.


(** ** Theorems *)

(** every internal link of the pages but [/] leads to no page:
    [App.jsx] routes only [/], [/product/mambobaby-float] and
    [/checkout], and no link points to the last two. *)
Theorem site_links_unrouted :
  Forall (λ l, l = "/" ∨ app_route l = None) site_links.
Proof.
  apply Forall_forall. intros l Hl.
  assert (forallb (λ l, String.eqb l "/" || bool_decide (app_route l = None)) site_links = true)
    as Hall by (vm_compute; reflexivity).
  rewrite forallb_forall in Hall. apply list_elem_of_In in Hl. specialize (Hall l Hl).
  apply orb_true_iff in Hall as [H|H]; [left; by apply String.eqb_eq|right; by apply bool_decide_eq_true in H].
Qed.

