(* ===== verification/PrintedSummary.v ===== *)
(** * The order summary of the checkout page

    The sidebar of [src/src/components/CheckoutPage.jsx] prints each
    cart line's [(item.price * item.quantity).toFixed(2)] and the
    subtotal, shipping (['Free'] when zero), tax and total of
    [Pricing.checkout_summary] with [toFixed(2)].  This file models
    [Number.prototype.toFixed] and [String] of a number on exact
    rationals, the value a printed amount denotes, and what the printed
    summary says.
    The cart total comes from the cart context, which is not in the
    repository: it is an argument. *)

From S2P Require Import Prelude JsString Money Pricing.
From Stdlib Require Import Ascii QArith Qabs DecimalString DecimalN.
Local Open Scope Z_scope.

(** ** [Number.prototype.toFixed] and [String] of a number *)

(** [x.toFixed(d)]: with [x] made non-negative and the sign printed
    first, [n] is the integer for which [n / 10^d - x] is closest to
    zero, the larger on a tie; its digits, padded to [d + 1] with zeros,
    get a point before the last [d] (no point when [d = 0]).  (From
    [10^21] on, [toFixed] prints [String(x)]; amounts stay far below.) *)
Definition to_fixed (d : nat) (x : Q) : string :=
  let sign := if Qle_bool 0 x then "" else "-" in
  let n := math_round (Qabs x * inject_Z (10 ^ Z.of_nat d)) in
  let m := pad_start (n_to_string (Z.to_N n)) (S d) "0" in
  let k := String.length m in
  if (d =? 0)%nat then sign +:+ m
  else sign +:+ Stdlib.Strings.String.substring 0 (k - d) m +:+ "." +:+
         Stdlib.Strings.String.substring (k - d) d m.

(** [x.toFixed(2)], the amounts of the pages. *)
Definition to_fixed2 (x : Q) : string := to_fixed 2 x.

(** The number of decimals [String(x)] prints: the least [d] for which
    [x * 10^d] is whole, tried up to 20. *)
Definition decimal_places (x : Q) : nat :=
  default 20%nat (find (λ d, is_whole (x * inject_Z (10 ^ Z.of_nat d))) (seq 0 21)).

(** [String(x)] (the text [${x}] of a number): its shortest decimal,
    which for a finite decimal is its exact digits, without trailing
    zeros.  Faithful for [x = 0] and for [10^-6 <= |x| < 10^21] with at
    most 20 decimals; JavaScript prints other numbers with an exponent or
    17 significant digits. *)
Definition number_text (x : Q) : string := to_fixed (decimal_places x) x.

(** ** The amount a printed number denotes *)

Definition digit_N (c : ascii) : N := N.of_nat (nat_of_ascii c - 48).

(** The digits of [s] read left to right after [acc]. *)
Fixpoint digits_acc (s : string) (acc : N) : N :=
  match s with
  | "" => acc
  | String c r => digits_acc r (10 * acc + digit_N c)
  end.

(** A non-negative decimal [a.b] as a rational. *)
Definition fixed_value (s : string) : option Q :=
  match split_on "." s with
  | [a; b] =>
      if negb (String.eqb a "") && str_forallb is_digit a && str_forallb is_digit b then
        Some (inject_Z (Z.of_N (digits_acc (a +:+ b) 0)) / inject_Z (10 ^ Z.of_nat (String.length b)))%Q
      else None
  | _ => None
  end.

(** How a reader takes a printed amount: [$a.bc], or [Free]. *)
Definition shown_amount (text : string) : option Q :=
  match text with
  | String "$" r => fixed_value r
  | _ => if String.eqb text "Free" then Some 0%Q else None
  end.

(** ** The printed summary *)

Record SummaryView := mkSummaryView {
  line_texts : list string;
  subtotal_text : string;
  shipping_text : string;
  tax_text : string;
  total_text : string
}.

(** The [Order Summary] sidebar for the cart lines and [getCartTotal()]. *)
Definition order_summary_view (items : list CartItem) (cart_total : Q) : SummaryView :=
  let s := checkout_summary cart_total in
  mkSummaryView
    ((λ it, "$" +:+ to_fixed2 (ci_price it * ci_quantity it)) <$> items)
    ("$" +:+ to_fixed2 (co_subtotal s))
    (if Qeq_bool (co_shipping s) 0 then "Free" else "$" +:+ to_fixed2 (co_shipping s))
    ("$" +:+ to_fixed2 (co_tax s))
    ("$" +:+ to_fixed2 (co_total s)).

(** ** Lemmas *)

Lemma digits_acc_app a b acc : digits_acc (a +:+ b) acc = digits_acc b (digits_acc a acc).
Proof. revert acc. induction a as [|c a IH]; intros acc; simpl; [done|]. apply IH. Qed.

Lemma digits_acc_shift b acc :
  digits_acc b acc = (acc * 10 ^ N.of_nat (String.length b) + digits_acc b 0)%N.
Proof.
  revert acc. induction b as [|c b IH]; intros acc; simpl; [lia|].
  rewrite (IH (10 * acc + digit_N c)%N), (IH (10 * 0 + digit_N c)%N). rewrite Nat2N.inj_succ, N.pow_succ_r'. lia.
Qed.

Lemma digits_acc_uint_pos d (acc : positive) :
  digits_acc (NilEmpty.string_of_uint d) (N.pos acc) = N.pos (Pos.of_uint_acc d acc).
Proof.
  revert acc. induction d; intros acc; simpl; try reflexivity;
    rewrite <- IHd; f_equal; cbv [digit_N]; simpl; lia.
Qed.

Lemma digits_acc_uint d : digits_acc (NilEmpty.string_of_uint d) 0 = N.of_uint d.
Proof.
  induction d; simpl; try done;
    match goal with |- digits_acc _ ?a = N.pos (Pos.of_uint_acc _ ?p) =>
      replace a with (N.pos p) by (vm_compute; reflexivity) end;
    apply digits_acc_uint_pos.
Qed.

Lemma digits_acc_n_to_string n : digits_acc (n_to_string n) 0 = n.
Proof. unfold n_to_string. rewrite digits_acc_uint. apply DecimalN.Unsigned.of_to. Qed.

Lemma digits_acc_zeros k s : digits_acc (str_repeat k "0" +:+ s) 0 = digits_acc s 0.
Proof. induction k as [|k IH]; simpl; [done|]. exact IH. Qed.

Lemma str_forallb_repeat p k c : p c = true → str_forallb p (str_repeat k c) = true.
Proof. intros Hc. induction k as [|k IH]; simpl; [done|]. by rewrite Hc, IH. Qed.

Lemma pad_start_digits s k :
  str_forallb is_digit s = true → str_forallb is_digit (pad_start s k "0") = true.
Proof.
  intros Hs. unfold pad_start. destruct (k <=? _)%nat; [done|].
  rewrite str_forallb_app, Hs, str_forallb_repeat; done.
Qed.

Lemma pad_start_length s k : (k ≤ String.length (pad_start s k "0"))%nat.
Proof.
  unfold pad_start. destruct (Nat.leb_spec k (String.length s)); [done|].
  rewrite str_length_app, str_repeat_length. lia.
Qed.

Lemma substring_full m : Stdlib.Strings.String.substring 0 (String.length m) m = m.
Proof. induction m as [|c m IH]; simpl; [done|]. by rewrite IH. Qed.

Lemma substring_split m k :
  (k ≤ String.length m)%nat →
  Stdlib.Strings.String.substring 0 k m +:+
    Stdlib.Strings.String.substring k (String.length m - k) m = m.
Proof.
  revert k. induction m as [|c m IH]; intros k Hk.
  - simpl in Hk. assert (k = 0%nat) as -> by lia. reflexivity.
  - destruct k as [|k].
    + rewrite Nat.sub_0_r. exact (substring_full (String c m)).
    + cbn [String.length Stdlib.Strings.String.substring Nat.sub] in *. rewrite str_app_cons. f_equal. apply IH. lia.
Qed.

Lemma substring_length m k l :
  (k + l ≤ String.length m)%nat → String.length (Stdlib.Strings.String.substring k l m) = l.
Proof.
  revert k l. induction m as [|c m IH]; intros k l Hk.
  - simpl in Hk. assert (k = 0%nat ∧ l = 0%nat) as [-> ->] by lia. reflexivity.
  - cbn [String.length] in Hk.
    destruct k as [|k], l as [|l]; cbn [String.length Stdlib.Strings.String.substring]; try reflexivity.
    + f_equal. apply IH. lia.
    + apply IH. lia.
    + apply IH. lia.
Qed.

Lemma str_forallb_substring p m k l :
  str_forallb p m = true → str_forallb p (Stdlib.Strings.String.substring k l m) = true.
Proof.
  revert k l. induction m as [|c m IH]; intros k l Hm.
  - by destruct k, l.
  - rewrite str_forallb_cons in Hm. apply andb_prop in Hm as [Hc Hm].
    destruct k as [|k], l as [|l]; cbn [Stdlib.Strings.String.substring]; try done.
    + rewrite str_forallb_cons, Hc. by apply IH.
    + by apply IH.
    + by apply IH.
Qed.

Lemma digit_not_dot c : is_digit c = true → Ascii.eqb c "." = false.
Proof. destruct c as [[] [] [] [] [] [] [] []]; vm_compute; done. Qed.

Lemma digits_no_dot s : str_forallb is_digit s = true → str_forallb (λ c, negb (Ascii.eqb c ".")) s = true.
Proof. apply str_forallb_impl. intros c Hc. by rewrite digit_not_dot. Qed.

(** The text [toFixed(d)] prints for a non-negative number denotes it
    rounded to [d] decimals, half up. *)
Lemma fixed_value_to_fixed d x :
  (1 ≤ d)%nat → (0 <= x)%Q →
  fixed_value (to_fixed d x) =
    Some (inject_Z (math_round (x * inject_Z (10 ^ Z.of_nat d))) / inject_Z (10 ^ Z.of_nat d))%Q.
Proof.
  intros Hd1 Hx. unfold to_fixed. cbv zeta.
  assert (math_round (Qabs x * inject_Z (10 ^ Z.of_nat d)) = math_round (x * inject_Z (10 ^ Z.of_nat d)))
    as Habs by (rewrite Qabs_pos by done; reflexivity).
  rewrite (proj2 (Qle_bool_iff 0 x) Hx), Habs, (proj2 (Nat.eqb_neq d 0)) by lia.
  set (n := math_round (x * inject_Z (10 ^ Z.of_nat d))).
  set (m := pad_start (n_to_string (Z.to_N n)) (S d) "0").
  assert (str_forallb is_digit m = true) as Hd by apply pad_start_digits, n_to_string_digits.
  assert (S d ≤ String.length m)%nat as Hl by apply pad_start_length.
  set (a := Stdlib.Strings.String.substring 0 (String.length m - d) m).
  set (b := Stdlib.Strings.String.substring (String.length m - d) d m).
  assert (a +:+ b = m) as Hab.
  { pose proof (substring_split m (String.length m - d) ltac:(lia)) as Hs.
    replace (String.length m - (String.length m - d))%nat with d in Hs by lia. exact Hs. }
  assert (String.length b = d) as Hb by (apply substring_length; lia).
  assert (String.length a = (String.length m - d)%nat) as Ha by (apply substring_length; lia).
  assert (str_forallb is_digit a = true) as Hda by by apply str_forallb_substring.
  assert (str_forallb is_digit b = true) as Hdb by by apply str_forallb_substring.
  assert (digits_acc m 0 = Z.to_N n) as Hv.
  { unfold m, pad_start. destruct (S d <=? _)%nat; [apply digits_acc_n_to_string|].
    rewrite digits_acc_zeros. apply digits_acc_n_to_string. }
  assert (0 ≤ n) as Hn.
  { unfold n. change 0 with (math_round 0). apply math_round_mono.
    apply Qmult_le_0_compat; [done|]. change 0%Q with (inject_Z 0). rewrite <- Zle_Qle.
    apply Z.pow_nonneg. lia. }
  unfold fixed_value. fold a b. change ("" +:+ a +:+ "." +:+ b) with (a +:+ String "." b).
  rewrite (split_on_app "." a b) by by apply digits_no_dot.
  rewrite (split_on_none "." b) by by apply digits_no_dot.
  rewrite Hda, Hdb, Hab, Hv, Hb.
  assert (String.eqb a "" = false) as Hne.
  { apply String.eqb_neq. intros Ha0. rewrite Ha0 in Ha. simpl in Ha. lia. }
  rewrite Hne. simpl. f_equal. rewrite Z2N.id by done. reflexivity.
Qed.

(** The printed amount of a non-negative number denotes it rounded to
    the cent, half a cent up. *)
Lemma fixed_value_to_fixed2 x :
  (0 <= x)%Q → fixed_value (to_fixed2 x) = Some (inject_Z (round_cents x) / 100)%Q.
Proof. intros Hx. exact (fixed_value_to_fixed 2 x ltac:(lia) Hx). Qed.

Lemma math_round_Qeq (x y : Q) : (x == y)%Q → math_round x = math_round y.
Proof. intros H. apply Z.le_antisymm; apply math_round_mono; rewrite H; apply Qle_refl. Qed.

(** Rounding to the cent commutes with adding whole cents. *)
Lemma round_cents_plus_cents (x : Q) (c : Z) :
  round_cents (inject_Z c / 100 + x)%Q = (c + round_cents x)%Z.
Proof.
  unfold round_cents. rewrite <- math_round_plus_Z. apply math_round_Qeq. field.
Qed.

Lemma round_cents_Qeq (x y : Q) : (x == y)%Q → round_cents x = round_cents y.
Proof. intros H. unfold round_cents. apply math_round_Qeq. by rewrite H. Qed.

Lemma Qplus_nonneg (a b : Q) : (0 <= a)%Q → (0 <= b)%Q → (0 <= a + b)%Q.
Proof. intros Ha Hb. apply (Qle_trans _ (0 + 0)); [discriminate|by apply Qplus_le_compat]. Qed.

Lemma shown_dollars x :
  (0 <= x)%Q → shown_amount ("$" +:+ to_fixed2 x) = Some (inject_Z (round_cents x) / 100)%Q.
Proof. intros Hx. exact (fixed_value_to_fixed2 x Hx). Qed.

(** ** Theorems *)

(** C17: the printed order summary adds up: for a cart total of whole
    cents, each printed amount denotes its value rounded to the cent,
    the subtotal is printed exactly, and the printed total is the sum of
    the printed subtotal, shipping and tax; the rounding of the tax and
    of the total agree because the other parts are whole cents.  With a
    total of a fraction of a cent it fails: a cart of 0.0049 prints
    [$0.00], [$9.99], [$0.00] and a total of [$10.00]. *)
Theorem summary_adds_up items (t : Q) :
  (0 <= t)%Q → whole_cents t = true →
  (∃ s sh tx tot,
     shown_amount (subtotal_text (order_summary_view items t)) = Some s ∧
     shown_amount (shipping_text (order_summary_view items t)) = Some sh ∧
     shown_amount (tax_text (order_summary_view items t)) = Some tx ∧
     shown_amount (total_text (order_summary_view items t)) = Some tot ∧
     (s == t)%Q ∧ (tot == s + sh + tx)%Q) ∧
  (subtotal_text (order_summary_view items (49 # 10000)), shipping_text (order_summary_view items (49 # 10000)),
   tax_text (order_summary_view items (49 # 10000)), total_text (order_summary_view items (49 # 10000))) =
    ("$0.00", "$9.99", "$0.00", "$10.00").
Proof.
  intros Ht Hw. split; [|vm_compute; reflexivity].
  apply is_whole_spec in Hw as [z Hz].
  set (shc := if Qle_bool t 50 then 999%Z else 0%Z).
  assert (co_shipping (checkout_summary t) == inject_Z shc / 100)%Q as Hsh.
  { unfold checkout_summary, shc. simpl. destruct (Qle_bool t 50); unfold SHIPPING_FEE; reflexivity. }
  assert (0 <= co_tax (checkout_summary t))%Q as Htx.
  { simpl. unfold TAX_RATE. apply Qmult_le_0_compat; [done|discriminate]. }
  assert (0 <= co_total (checkout_summary t))%Q as Htot.
  { simpl. apply Qplus_nonneg; [apply Qplus_nonneg; [done|]|done].
    destruct (Qle_bool t 50); discriminate. }
  assert (round_cents t = z) as Hrt by (by apply round_cents_whole).
  assert (round_cents (co_total (checkout_summary t)) = (z + shc + round_cents (co_tax (checkout_summary t)))%Z)
    as Hrtot.
  { rewrite <- round_cents_plus_cents. apply round_cents_Qeq. simpl in *. rewrite Hsh.
    rewrite !inject_Z_plus, <- Hz. field. }
  exists (inject_Z z / 100)%Q, (if Qle_bool t 50 then inject_Z 999 / 100 else 0)%Q,
    (inject_Z (round_cents (co_tax (checkout_summary t))) / 100)%Q,
    (inject_Z (z + shc + round_cents (co_tax (checkout_summary t))) / 100)%Q.
  unfold order_summary_view. cbn [subtotal_text shipping_text tax_text total_text].
  split_and!.
  - change (co_subtotal (checkout_summary t)) with t. rewrite shown_dollars by done. by rewrite Hrt.
  - unfold shc, checkout_summary. cbn [co_shipping]. destruct (Qle_bool t 50); vm_compute; reflexivity.
  - by rewrite shown_dollars.
  - rewrite shown_dollars by done. by rewrite Hrtot.
  - rewrite <- Hz. field.
  - unfold shc. destruct (Qle_bool t 50); rewrite !inject_Z_plus; field.
Qed.

(** ** Witnesses *)

Lemma summary_adds_up_witness :
  total_text (order_summary_view [] 40) = "$53.19" ∧
  ∃ s sh tx tot, shown_amount (subtotal_text (order_summary_view [] 40)) = Some s ∧
    shown_amount (shipping_text (order_summary_view [] 40)) = Some sh ∧
    shown_amount (tax_text (order_summary_view [] 40)) = Some tx ∧
    shown_amount (total_text (order_summary_view [] 40)) = Some tot ∧ (tot == s + sh + tx)%Q.
Proof.
  split; [vm_compute; reflexivity|].
  destruct (summary_adds_up [] 40 ltac:(discriminate) ltac:(vm_compute; reflexivity))
    as [(s & sh & tx & tot & H1 & H2 & H3 & H4 & _ & H6) _].
  exists s, sh, tx, tot. split_and!; assumption.
Defined.

