(* ===== verification/CartModal.v ===== *)
(** * The cart modal and the prices the pages show

    [src/src/components/CartModal.jsx]: a portal the header opens
    ([isOpen], [onClose]) that lists the cart's items (name, [${item.price}],
    quantity with [-] and [+] buttons, the line's
    [(item.price * item.quantity).toFixed(2)] and a remove button) or
    [Your cart is empty], and, when the cart has items, the total
    [getCartTotal().toFixed(2)] with the [Checkout] and [Clear Cart]
    buttons.  The cart context ([useCart]) is not among the sources: the
    items and [getCartTotal()] are arguments, and what a button does is
    the list of calls it makes ([updateQuantity], [removeFromCart],
    [clearCart], [onClose], [navigate]).  The file also holds the price
    texts of the product page and the featured carousel, and the
    header's item count badge. *)

From S2P Require Import Prelude JsString Money Pricing Widgets Navigation PrintedSummary.
From Stdlib Require Import QArith.
Local Open Scope Z_scope.

(** ** The rendered modal *)

(** One row of [cartItems.map]. *)
Record ModalLine := mkModalLine {
  ml_name : option string;
  ml_price_text : string;     (** [${item.price}] *)
  ml_quantity_text : string;  (** [{item.quantity}] *)
  ml_total_text : string      (** [${(item.price * item.quantity).toFixed(2)}] *)
}.

Definition modal_line (it : CartItem) : ModalLine :=
  mkModalLine (ci_name it) ("$" +:+ number_text (ci_price it)) (number_text (ci_quantity it))
    ("$" +:+ to_fixed2 (ci_price it * ci_quantity it)).

Inductive ModalBody := EmptyCart | CartLines (ls : list ModalLine).

Record ModalView := mkModalView {
  mv_body : ModalBody;
  mv_footer : option string   (** the total's text, with [Checkout] and [Clear Cart] *)
}.

(** [if (!isOpen) return null]; the body by [cartItems.length === 0];
    the footer by [cartItems.length > 0]. *)
Definition cart_modal_render (isOpen : bool) (items : list CartItem) (cart_total : Q) : option ModalView :=
  if negb isOpen then None
  else Some (mkModalView
               (match items with [] => EmptyCart | _ => CartLines (modal_line <$> items) end)
               (if bool_decide (0 < length items)%nat then Some ("$" +:+ to_fixed2 cart_total) else None)).

(** ** Its buttons *)

Inductive CartCall :=
| UpdateQuantity (id : option string) (q : Q)
| RemoveFromCart (id : option string)
| ClearCart
| OnClose
| Navigate (path : string).

(** A click on the backdrop, the [X] button, the [-], [+] or remove
    button of the [i]-th row, [Checkout] or [Clear Cart]. *)
Inductive ModalEvent :=
| MBackdrop | MCloseButton
| MMinus (i : nat) | MPlus (i : nat) | MRemove (i : nat)
| MCheckout | MClearCart.

(** The calls a click makes; [None] for a button the modal does not
    render.  Each row's buttons close over that row's [item]. *)
Definition modal_click (isOpen : bool) (items : list CartItem) (e : ModalEvent) : option (list CartCall) :=
  if negb isOpen then None
  else match e with
  | MBackdrop | MCloseButton => Some [OnClose]
  | MMinus i => it ← items !! i; Some [UpdateQuantity (ci_id it) (ci_quantity it - 1)]
  | MPlus i => it ← items !! i; Some [UpdateQuantity (ci_id it) (ci_quantity it + 1)]
  | MRemove i => it ← items !! i; Some [RemoveFromCart (ci_id it)]
  | MCheckout => match items with [] => None | _ => Some [OnClose; Navigate "/checkout"] end
  | MClearCart => match items with [] => None | _ => Some [ClearCart] end
  end.

(** ** The prices the pages print *)

(** The product page's price heading, written in the markup. *)
Definition product_price_text : string := "$89.99".

(** The carousel's [${product.price}]. *)
Definition featured_price_text (p : FeaturedItem) : string :=
  "$" +:+ number_text (inject_Z (fi_price p)).

(** The header's badge: [getCartItemsCount() > 0 && count]. *)
Definition cart_badge (count : Q) : option string :=
  if Qle_bool count 0 then None else Some (number_text count).

(** ** The header, which owns the modal *)

(** [navigate(path)]: the router's location. *)
Definition navigate_to (path : string) (h : Header) : Header :=
  mkHeader (isScrolled h) (isSidebarOpen h) (isCartOpen h) (dropdownOpen h) (closeTimeout h)
    (expandedCategories h) path (timers h) (next_timer h) (pointer h).

(** A call's effect on the header: [onClose] is the header's
    [() => setIsCartOpen(false)]; the cart context's calls leave the
    header's own state alone. *)
Definition header_call (h : Header) (c : CartCall) : Header :=
  match c with
  | OnClose => set_cart false h
  | Navigate path => navigate_to path h
  | UpdateQuantity _ _ | RemoveFromCart _ | ClearCart => h
  end.
