(* ===== verification/Carousel.v ===== *)
(** * The product cards of the featured carousel

    The cards [FeaturedProducts.jsx] renders for [visibleProducts]: the
    badge with its colour, five stars of which [Math.floor(rating)] are
    filled, the rating, [${product.price}] and, when [originalPrice] is
    truthy, the struck-through original price, and the [Add to Cart]
    button.  A card whose product has a [link] is wrapped in a router
    [<Link>]: a click on the button inside it runs [handleAddToCart] and
    then bubbles to the link's anchor (the handler calls neither
    [preventDefault] nor [stopPropagation]), whose [onClick] navigates on
    a plain left click.  A click is dispatched along the list of handlers
    from its target up, each seeing the event as the previous one left
    it.  The carousel's state and [handleAddToCart] are [Widgets]' ones. *)

From S2P Require Import Prelude JsString Widgets Navigation PrintedSummary.
From Stdlib Require Import QArith Qround.
Local Open Scope Z_scope.

(** ** A card *)

(** The badge's background class. *)
Definition badge_color (b : string) : string :=
  if String.eqb b "Best Seller" then "bg-pink-500"
  else if String.eqb b "New" then "bg-green-500"
  else if String.eqb b "Limited" then "bg-red-500"
  else if String.eqb b "Popular" then "bg-blue-500"
  else if String.eqb b "Hot" then "bg-orange-500"
  else "bg-purple-500".

Record CardView := mkCardView {
  card_badge : option (string * string);   (** text and colour, when [product.badge] is truthy *)
  card_stars : list bool;                  (** [i < Math.floor(product.rating)] for [i] in [0..4] *)
  card_rating_text : string;               (** [({product.rating})] *)
  card_price_text : string;                (** [${product.price}] *)
  card_original_text : option string;      (** [product.originalPrice && <span>...</span>]: nothing for
                                               [null]; React prints the falsy number [0] itself *)
  card_link : option string                (** the [<Link to>] around the card *)
}.

Definition card_view (p : FeaturedItem) : CardView :=
  mkCardView
    (if String.eqb (fi_badge p) "" then None else Some (fi_badge p, badge_color (fi_badge p)))
    ((λ i, bool_decide (Z.of_nat i < Qfloor (fi_rating p))) <$> seq 0 5)
    ("(" +:+ number_text (fi_rating p) +:+ ")")
    ("$" +:+ number_text (inject_Z (fi_price p)))
    (match fi_originalPrice p with
     | Some o => if bool_decide (o = 0) then Some "0" else Some ("$" +:+ number_text (inject_Z o))
     | None => None
     end)
    (fi_link p).

(** ** A click on [Add to Cart] *)

(** The [click] event's fields the handlers read. *)
Record Click := mkClick {
  c_button : Z; c_metaKey : bool; c_altKey : bool; c_ctrlKey : bool; c_shiftKey : bool
}.

(** The event as it bubbles: the click and what the handlers have done
    to it. *)
Record DomEvent := mkDomEvent {
  de_click : Click; de_defaultPrevented : bool; de_propagationStopped : bool
}.

(** What a card's handlers act on: the carousel and the router's
    location. *)
Definition CardWorld : Type := Featured * string.

Definition Handler : Type := CardWorld → DomEvent → option (CardWorld * DomEvent).

(** The button's [onClick={() => handleAddToCart(product)}] on the
    [k]-th visible card: the carousel's step; it leaves the event
    alone. *)
Definition add_button_handler (products : list FeaturedItem) (k : nat) : Handler :=
  λ w ev, s' ← featured_step products w.1 (FAddToCart k); Some ((s', w.2), ev).

(** React Router's [shouldProcessLinkClick] for a link with no [target]:
    [event.button === 0 && !isModifiedEvent(event)]. *)
Definition shouldProcessLinkClick (c : Click) : bool :=
  (c_button c =? 0) && negb (c_metaKey c || c_altKey c || c_ctrlKey c || c_shiftKey c).

(** The [<Link to>]'s anchor [onClick]: [if (!event.defaultPrevented)]
    its click handler, which on a plain left click calls
    [event.preventDefault()] and [navigate(to)].  A modified click is
    left to the browser, whose activation target is the button, not the
    anchor, so nothing navigates. *)
Definition link_handler (to : string) : Handler :=
  λ w ev,
    if negb (de_defaultPrevented ev) && shouldProcessLinkClick (de_click ev)
    then Some ((w.1, to), mkDomEvent (de_click ev) true (de_propagationStopped ev))
    else Some (w, ev).

(** Bubbling: each handler on the path from the target up, until one
    stops propagation. *)
Fixpoint dispatch (hs : list Handler) (w : CardWorld) (ev : DomEvent) : option (CardWorld * DomEvent) :=
  match hs with
  | [] => Some (w, ev)
  | h :: hs' =>
      '(w', ev') ← h w ev;
      if de_propagationStopped ev' then Some (w', ev') else dispatch hs' w' ev'
  end.

(** The handlers from the [k]-th card's button up: the button's, then
    the [<Link>]'s when [product.link] wraps the card in one (the
    [motion.div] between them has no [onClick]). *)
Definition card_click_path (products : list FeaturedItem) (p : FeaturedItem) (k : nat) : list Handler :=
  add_button_handler products k :: match fi_link p with Some l => [link_handler l] | None => [] end.

(** A click on the [k]-th visible card's button. *)
Definition card_add_click (products : list FeaturedItem) (s : Featured) (location : string) (k : nat)
    (c : Click) : option (Featured * string) :=
  p ← visibleProducts products s !! k;
  '(w, _) ← dispatch (card_click_path products p k) (s, location) (mkDomEvent c false false);
  Some w.

(** ** Lemmas *)

Lemma featured_products_indicators : ∃ ixs, slide_indicators featured_products = Some ixs.
Proof. eexists. reflexivity. Qed.

(** The button's click adds the card's product and shows the toast; the
    link navigates exactly on a plain left click. *)
Lemma card_add_click_spec ps s loc k p c :
  (∃ ixs, slide_indicators ps = Some ixs) → visibleProducts ps s !! k = Some p →
  card_add_click ps s loc k c =
    Some (featured_render (featured_add p s),
          match fi_link p with
          | Some l => if shouldProcessLinkClick c then l else loc
          | None => loc
          end).
Proof.
  intros [ixs His] Hp. unfold card_add_click. rewrite Hp. simpl.
  unfold add_button_handler, featured_step. cbn [fst snd]. rewrite His. simpl. rewrite Hp. simpl.
  destruct (fi_link p); simpl; [|done]. unfold link_handler. simpl.
  by destruct (shouldProcessLinkClick c).
Qed.

(** ** Theorems *)

(** C22: [Add to Cart] on a linked card also leaves the page: in any
    state of the carousel and for any click, a click on a visible card's
    button adds its product to the cart and shows the toast, and the
    event, which the button's handler neither cancels nor stops, bubbles
    to the enclosing [<Link>], which navigates to the product's [link]
    on a plain left click.  The first card, the Mambobaby Float, links to
    its product page, so adding it from the home page navigates there
    (and the home page's toast is unmounted). *)
Theorem add_to_cart_navigates s loc c :
  (∀ k p, visibleProducts featured_products s !! k = Some p →
     ∃ s', card_add_click featured_products s loc k c =
             Some (s', if shouldProcessLinkClick c then default loc (fi_link p) else loc) ∧
       f_cart s' = f_cart s ++ [fi_id p] ∧ f_showToast s' = true) ∧
  (currentSlide s = 0 → shouldProcessLinkClick c = true →
     ∃ s', card_add_click featured_products s loc 0 c = Some (s', "/product/mambobaby-float") ∧
       f_cart s' = f_cart s ++ [1] ∧ app_route "/product/mambobaby-float" = Some ProductPageRoute).
Proof.
  split.
  - intros k p Hp. exists (featured_render (featured_add p s)). split_and!; [|done|done].
    rewrite (card_add_click_spec _ _ _ _ _ _ featured_products_indicators Hp).
    by destruct (fi_link p), (shouldProcessLinkClick c).
  - intros H0 Hc. assert (visibleProducts featured_products s !! 0%nat = head featured_products) as Hv.
    { unfold visibleProducts. rewrite H0. reflexivity. }
    erewrite card_add_click_spec; [|apply featured_products_indicators|exact Hv].
    simpl. rewrite Hc. eexists. split_and!; reflexivity.
Qed.

(** ** Witnesses *)

Definition plain_click : Click := mkClick 0 false false false false.

Lemma add_to_cart_navigates_witness :
  ∃ s', card_add_click featured_products initial_featured "/" 0 plain_click =
          Some (s', "/product/mambobaby-float") ∧ f_cart s' = [1].
Proof.
  destruct (add_to_cart_navigates initial_featured "/" plain_click) as (_ & H).
  destruct (H eq_refl eq_refl) as (s' & Hc & Hf & _). exists s'. split; [exact Hc|exact Hf].
Defined.
