(* ===== verification/CheckoutView.v ===== *)
(** * What the checkout page shows

    The parts of [src/src/components/CheckoutPage.jsx]'s render that
    depend on its state ([Checkout.Checkout]): the progress indicator
    ([[1, 2, 3].map]) with its active markers, check marks, labels and
    connectors, and the step-3 confirmation with the customer's email and
    an order number computed from [Date.now()] at each render. *)

From S2P Require Import Prelude JsString Pricing Checkout.
Local Open Scope Z_scope.

(** ** The progress indicator *)

Record StepMarker := mkStepMarker {
  marker_active : bool;          (** [step >= stepNumber]: pink *)
  marker_checked : bool;         (** [step > stepNumber]: a check mark instead of the number *)
  marker_label : string;
  marker_connector : option bool (** for [stepNumber < 3]: pink when [step > stepNumber] *)
}.

Definition step_label (n : Z) : string :=
  if n =? 1 then "Shipping" else if n =? 2 then "Payment" else if n =? 3 then "Confirmation" else "".

Definition step_marker (st n : Z) : StepMarker :=
  mkStepMarker (n <=? st) (n <? st) (step_label n) (if n <? 3 then Some (n <? st) else None).

Definition progress_view (s : Checkout) : list StepMarker := step_marker (step s) <$> [1; 2; 3].

(** ** The confirmation *)

Record ConfirmationView := mkConfirmationView {
  order_number_text : string;    (** [#HED{Date.now().toString().slice(-6)}] *)
  email_text : string            (** [Confirmation email sent to {customerInfo.email}] *)
}.

(** The [step === 3] block, rendered at time [now]. *)
Definition confirmation_view (s : Checkout) (now : Z) : option ConfirmationView :=
  if step s =? 3 then
    Some (mkConfirmationView ("#HED" +:+ str_slice_last 6 (z_to_string now))
            ("Confirmation email sent to " +:+ cf_email (customerInfo s)))
  else None.

(** ** Theorems *)

(** in every state the page reaches, the progress indicator marks
    exactly the steps up to the current one, checks those before it and
    fills the connectors behind it; the confirmation is rendered exactly
    at step 3, with the form's email as it is then.  Its order number
    comes from the render's clock, not from an order: two renders a
    millisecond apart show different numbers. *)
Theorem checkout_view_consistent cart s :
  checkout_reach cart s →
  (∀ i m, progress_view s !! i = Some m →
     marker_active m = bool_decide (Z.of_nat i < step s) ∧
     marker_checked m = bool_decide (Z.of_nat i + 1 < step s) ∧
     marker_connector m = (if bool_decide (i < 2)%nat then Some (bool_decide (Z.of_nat i + 1 < step s)) else None)) ∧
  (∀ now, step s = 3 →
     confirmation_view s now =
       Some (mkConfirmationView ("#HED" +:+ str_slice_last 6 (z_to_string now))
               ("Confirmation email sent to " +:+ cf_email (customerInfo s)))) ∧
  (∀ now, step s ≠ 3 → confirmation_view s now = None) ∧
  order_number_text <$> confirmation_view (with_step 3 s) 1700000123456 ≠
    order_number_text <$> confirmation_view (with_step 3 s) 1700000123457.
Proof.
  intros Hr. destruct (checkout_reach_wf cart s Hr) as [Hst _].
  split_and!.
  - intros i m Hm. unfold progress_view in Hm.
    destruct i as [|[|[|i]]]; simpl in Hm; try done; injection Hm as <-;
      unfold step_marker; cbn [marker_active marker_checked marker_connector];
      repeat match goal with
      | |- context [?a <=? ?b] => destruct (Z.leb_spec a b)
      | |- context [?a <? ?b] => destruct (Z.ltb_spec a b)
      end; split_and!; repeat case_bool_decide; done || lia.
  - intros now H3. unfold confirmation_view. by rewrite H3.
  - intros now H3. unfold confirmation_view. by rewrite (proj2 (Z.eqb_neq _ _) H3).
  - vm_compute. discriminate.
Qed.

(** ** Witnesses *)

Lemma checkout_view_consistent_witness :
  confirmation_view (initial_checkout []) 1700000123456 = None ∧
  (∀ i m, progress_view (initial_checkout []) !! i = Some m →
     marker_active m = bool_decide (Z.of_nat i < 1)).
Proof.
  destruct (checkout_view_consistent [] (initial_checkout []) (reach_init [])) as (Hp & _ & Hn & _).
  split; [apply Hn; discriminate|]. intros i m Hm. exact (proj1 (Hp i m Hm)).
Defined.
